(** * image_export.py: dataset assembly pipeline

    A shallow embedding of [src/image_export.py] (HIF frame export, the
    shuffle/split engine, the SIXray annotation classifiers, the bounding-box
    mask generator and the copy/move engine) together with the properties
    stated about it.

    Layout: Python built-ins used by the script, the exception/state monad,
    the file-system model, the external collaborators (ElementTree, Pillow,
    the HIF reader, OpenCV, [random]), the functions of the script in source
    order, and finally the lemmas and theorems. *)

From Stdlib Require Import ZArith Floats Uint63 DecimalString Ascii String.
From stdpp Require Import base option list gmap strings.

Local Open Scope string_scope.
Local Open Scope list_scope.
Local Open Scope Z_scope.

(** * Exceptions *)

Inductive exn : Type :=
  | FileNotFoundError
  | NotADirectoryError
  | IsADirectoryError
  | FileExistsError
  | SameFileError
  | OSError             (* an I/O failure while bytes are being written *)
  | AssertionError
  | OverflowError
  | ValueError
  | TypeError
  | AttributeError
  | ParseError          (* xml.etree.ElementTree.ParseError *)
  | CvError.            (* cv2.error *)

Inductive result (A : Type) : Type :=
  | Ok (a : A)
  | Raise (e : exn).

Arguments Ok {A} a.
Arguments Raise {A} e.

#[global] Instance result_ret : MRet result := λ A a, Ok a.
#[global] Instance result_bind : MBind result := λ A B f r,
  match r with
  | Ok a => f a
  | Raise e => Raise e
  end.

(** [None] of a Python value that is used where an object is needed *)
Definition or_raise {A} (e : exn) (o : option A) : result A :=
  match o with
  | Some a => Ok a
  | None => Raise e
  end.

(** * Python built-ins *)

Module Py.

(** ** Slices of sequences

    [l[:k]], [l[k:]] and [l[a:b]] for an arbitrary integer bound: a
    negative bound counts from the end, and every bound is clamped to
    [0 .. len(l)]. *)

Definition slice_index (k : Z) (len : nat) : nat :=
  Z.to_nat (if k <? 0 then Z.max 0 (k + Z.of_nat len) else Z.min k (Z.of_nat len)).

Definition upto {A} (k : Z) (l : list A) : list A :=
  take (slice_index k (length l)) l.

Definition from {A} (k : Z) (l : list A) : list A :=
  drop (slice_index k (length l)) l.

Definition slice {A} (a b : Z) (l : list A) : list A :=
  drop (slice_index a (length l)) (take (slice_index b (length l)) l).

(** ** Strings *)

(** [sub in s] *)
Fixpoint contains (sub s : string) : bool :=
  String.prefix sub s ||
  match s with
  | EmptyString => false
  | String _ s' => contains sub s'
  end.

(** [s.endswith(suffix)] *)
Fixpoint endswith (s suffix : string) : bool :=
  String.eqb s suffix ||
  match s with
  | EmptyString => false
  | String _ s' => endswith s' suffix
  end.

(** [s.replace(old, new)]: non-overlapping occurrences, left to right.
    [skip] counts the characters of a match still to be dropped. *)
Fixpoint replace_from (old new : string) (skip : nat) (s : string) : string :=
  match s with
  | EmptyString => EmptyString
  | String c s' =>
      match skip with
      | S k => replace_from old new k s'
      | O =>
          if String.prefix old s
          then new +:+ replace_from old new (Nat.pred (String.length old)) s'
          else String c (replace_from old new O s')
      end
  end.

Fixpoint intersperse (new s : string) : string :=
  match s with
  | EmptyString => new
  | String c s' => new +:+ String c (intersperse new s')
  end.

Definition replace (old new s : string) : string :=
  if String.eqb old "" then intersperse new s else replace_from old new O s.

(** ["%d" % n] for a natural number *)
Definition str_of_nat (n : nat) : string :=
  NilEmpty.string_of_uint (Nat.to_uint n).

(** ** [int(text)] on a decimal literal

    Surrounding ASCII white space is stripped, one sign is accepted, and
    digits may be grouped by single underscores.  Anything else is a
    [ValueError]. *)

Definition is_space (c : ascii) : bool :=
  let n := nat_of_ascii c in
  (Nat.eqb n 32 || (Nat.leb 9 n && Nat.leb n 13))%bool.

Definition digit_of (c : ascii) : option Z :=
  let n := nat_of_ascii c in
  if (Nat.leb 48 n && Nat.leb n 57)%bool then Some (Z.of_nat (n - 48)) else None.

Fixpoint lstrip (l : list ascii) : list ascii :=
  match l with
  | c :: l' => if is_space c then lstrip l' else l
  | [] => []
  end.

Definition strip (l : list ascii) : list ascii :=
  reverse (lstrip (reverse (lstrip l))).

(** [after_digit] tells whether the previous character was a digit, the
    only place where an underscore or the end of the literal may come. *)
Fixpoint digits (acc : Z) (after_digit : bool) (l : list ascii) : option Z :=
  match l with
  | [] => if after_digit then Some acc else None
  | c :: l' =>
      match digit_of c with
      | Some d => digits (10 * acc + d) true l'
      | None =>
          if (Ascii.eqb c "_" && after_digit)%bool then digits acc false l' else None
      end
  end.

Definition int_of_str (s : string) : result Z :=
  or_raise ValueError
    match strip (list_ascii_of_string s) with
    | c :: l' =>
        if Ascii.eqb c "-" then Z.opp <$> digits 0 false l'
        else if Ascii.eqb c "+" then digits 0 false l'
        else digits 0 false (c :: l')
    | [] => None
    end.

(** ** Floats

    Python's [float] is IEEE-754 binary64, which is [PrimFloat.float]. *)

(** [float(n)] for a list length *)
Definition float_of_nat (n : nat) : float :=
  PrimFloat.of_uint63 (Uint63.of_Z (Z.of_nat n)).

(** [int(x)]: truncation towards zero; an infinity is an
    [OverflowError] and a NaN a [ValueError]. *)
Definition int_of_float (x : float) : result Z :=
  match Prim2SF x with
  | S754_zero _ => Ok 0
  | S754_infinity _ => Raise OverflowError
  | S754_nan => Raise ValueError
  | S754_finite s m e =>
      let v := if 0 <=? e then Z.pos m * 2 ^ e else Z.pos m / 2 ^ (- e) in
      Ok (if s then - v else v)
  end.

End Py.

(** * The file system

    A tree of directories and regular files.  A path is the list of its
    components below the root of the tree, so [os.path.join(p, name)] and
    pathlib's [p / name] are [p ++ [name]] and [os.path.basename] is the last
    component.  There are no links: two paths name the same file exactly when
    they are equal. *)

#[local] Set Warnings "-register-all".

Inductive node : Type :=
  | File (content : string)
  | Dir (entries : list (string * node)).

Abbreviation path := (list string).
Abbreviation entries := (list (string * node)).

Module Fs.

Fixpoint lookup_entry (name : string) (es : entries) : option node :=
  match es with
  | [] => None
  | (k, n) :: es' => if decide (k = name) then Some n else lookup_entry name es'
  end.

Fixpoint set_entry (name : string) (new : node) (es : entries) : entries :=
  match es with
  | [] => [(name, new)]
  | (k, n) :: es' =>
      if decide (k = name) then (k, new) :: es' else (k, n) :: set_entry name new es'
  end.

Definition del_entry (name : string) (es : entries) : entries :=
  filter (λ kn, kn.1 ≠ name) es.

Fixpoint resolve (p : path) (n : node) : result node :=
  match p with
  | [] => Ok n
  | c :: p' =>
      match n with
      | File _ => Raise NotADirectoryError
      | Dir es =>
          match lookup_entry c es with
          | None => Raise FileNotFoundError
          | Some child => resolve p' child
          end
      end
  end.

(** The content of the regular file at [p], if there is one. *)
Definition file_at (p : path) (n : node) : option string :=
  match resolve p n with
  | Ok (File c) => Some c
  | _ => None
  end.

(** Rewrite the entries of the directory at [dir]. *)
Fixpoint with_dir (dir : path) (f : entries → result entries) (n : node)
    {struct dir} : result node :=
  match n with
  | File _ => Raise NotADirectoryError
  | Dir es =>
      match dir with
      | [] => es' ← f es; Ok (Dir es')
      | c :: dir' =>
          match lookup_entry c es with
          | None => Raise FileNotFoundError
          | Some child =>
              child' ← with_dir dir' f child; Ok (Dir (set_entry c child' es))
          end
      end
  end.

(** [os.path.split]: parent directory and last component. *)
Definition split (p : path) : option (path * string) :=
  match reverse p with
  | [] => None
  | name :: rev_dir => Some (reverse rev_dir, name)
  end.

(** Create or truncate-and-fill the regular file at [p]. *)
Definition write (p : path) (content : string) (n : node) : result node :=
  match split p with
  | None => Raise IsADirectoryError
  | Some (dir, name) =>
      with_dir dir (λ es,
        match lookup_entry name es with
        | Some (Dir _) => Raise IsADirectoryError
        | _ => Ok (set_entry name (File content) es)
        end) n
  end.

Definition remove (p : path) (n : node) : result node :=
  match split p with
  | None => Raise IsADirectoryError
  | Some (dir, name) =>
      with_dir dir (λ es,
        match lookup_entry name es with
        | Some (File _) => Ok (del_entry name es)
        | Some (Dir _) => Raise IsADirectoryError
        | None => Raise FileNotFoundError
        end) n
  end.

Definition mkdir (p : path) (n : node) : result node :=
  match split p with
  | None => Raise FileExistsError
  | Some (dir, name) =>
      with_dir dir (λ es,
        match lookup_entry name es with
        | Some _ => Raise FileExistsError
        | None => Ok (set_entry name (Dir []) es)
        end) n
  end.

Definition subdirs (es : entries) : list string :=
  omap (λ kn : string * node, match kn.2 with Dir _ => Some kn.1 | File _ => None end) es.

Definition nondirs (es : entries) : list string :=
  omap (λ kn : string * node, match kn.2 with File _ => Some kn.1 | Dir _ => None end) es.

(** What [os.walk] yields for the tree [n] found at [top]: the triple of
    the directory itself (sub-directory names, other names), then the
    triples of its sub-directories, each walked in turn.  Scanning
    something that is not a directory is an error, which [os.walk] drops
    ([onerror] is [None]). *)
Fixpoint walk_node (top : path) (n : node) : list (path * list string * list string) :=
  match n with
  | File _ => []
  | Dir es =>
      (top, subdirs es, nondirs es) ::
      flat_map (λ kn : string * node,
        let (name, child) := kn in walk_node (top ++ [name]) child) es
  end.

End Fs.

(** * The I/O monad

    The state is the file system; an exception leaves the state it was
    raised in, so what a failed call did before failing stays visible. *)

Definition IO (A : Type) : Type := node → result A * node.

#[global] Instance io_ret : MRet IO := λ A a fs, (Ok a, fs).
#[global] Instance io_bind : MBind IO := λ A B f m fs,
  match m fs with
  | (Ok a, fs') => f a fs'
  | (Raise e, fs') => (Raise e, fs')
  end.

Definition lift {A} (r : result A) : IO A := λ fs, (r, fs).

(** A state change that either happens as a whole or raises. *)
Definition modify (f : node → result node) : IO unit := λ fs,
  match f fs with
  | Ok fs' => (Ok tt, fs')
  | Raise e => (Raise e, fs)
  end.

(** [try: m  except: ...] *)
Definition try_pass (m : IO unit) : IO unit := λ fs, (Ok tt, (m fs).2).

(** [for a in l: body(a)] *)
Fixpoint for_each {A} (l : list A) (body : A → IO unit) : IO unit :=
  match l with
  | [] => mret tt
  | a :: l' => body a;; for_each l' body
  end.

(** [assert cond] *)
Definition assert (cond : bool) : result unit :=
  if cond then Ok tt else Raise AssertionError.

(** * Standard-library calls on the file system *)

Definition basename (p : path) : string := default "" (last p).

Definition os_path_exists (p : path) : IO bool := λ fs,
  (Ok (match Fs.resolve p fs with Ok _ => true | Raise _ => false end), fs).

Definition os_path_isfile (p : path) : IO bool := λ fs,
  (Ok (match Fs.file_at p fs with Some _ => true | None => false end), fs).

Definition os_listdir (p : path) : IO (list string) := λ fs,
  match Fs.resolve p fs with
  | Ok (Dir es) => (Ok es.*1, fs)
  | Ok (File _) => (Raise NotADirectoryError, fs)
  | Raise e => (Raise e, fs)
  end.

Definition os_remove (p : path) : IO unit := modify (Fs.remove p).

Definition os_mkdir (p : path) : IO unit := modify (Fs.mkdir p).

(** [os.makedirs(name)]: the missing ancestors are made first, then the
    leaf, whose [mkdir] fails when the leaf is there already. *)
Fixpoint makedirs_from (head : path) (rest : list string) : IO unit :=
  match rest with
  | [] => os_mkdir head
  | [name] => os_mkdir (head ++ [name])
  | name :: rest' =>
      there ← os_path_exists (head ++ [name]);
      (if there : bool then mret tt else os_mkdir (head ++ [name]));;
      makedirs_from (head ++ [name]) rest'
  end.

Definition os_makedirs (name : path) : IO unit := makedirs_from [] name.

(** [os.walk(top)] with its default [onerror=None]: a directory that
    cannot be scanned, the top one included, contributes nothing and raises
    nothing. *)
Definition os_walk (top : path) : IO (list (path * list string * list string)) := λ fs,
  (Ok (match Fs.resolve top fs with
       | Ok n => Fs.walk_node top n
       | Raise _ => []
       end), fs).

(** [open(p).read()] *)
Definition open_read (p : path) : IO string := λ fs,
  match Fs.resolve p fs with
  | Ok (File c) => (Ok c, fs)
  | Ok (Dir _) => (Raise IsADirectoryError, fs)
  | Raise e => (Raise e, fs)
  end.

(** * External collaborators

    What the script gets from [random], the HIF reader and OpenCV's encoder,
    and from the environment (a copy that breaks while writing). *)

Abbreviation image A := (list (list A)).

Class Collaborators : Type := {
  (** colour pixels of a decoded view *)
  pixel : Type;
  (** [random.seed(seed); random.shuffle(l)] *)
  shuffle : Z → list string → list string;
  (** a [run_len_matlum] section of a HIF file *)
  matlum : Type;
  (** [HifFileReader.read] and [get_sections_of_type], on the file's bytes *)
  hif_sections : string → result (list matlum);
  (** [matlum_float_to_rgb] followed by [cv2.cvtColor] *)
  matlum_rgb : matlum → result (image pixel);
  (** the JPEG encoder behind [cv2.imwrite] *)
  imencode : image pixel → string;
  (** [Some n]: copying the first file to the second breaks after [n] bytes *)
  copy_fault : path → path → option nat;
}.

(** [random.shuffle] rearranges, it neither drops nor duplicates. *)
Class ShufflePermutes (C : Collaborators) : Prop :=
  shuffle_perm : ∀ seed l, shuffle seed l ≡ₚ l.

(** ** ElementTree

    [xml.etree.ElementTree] on the fragment of XML in which Pascal-VOC
    annotation files are written: nested elements and character data, no
    attributes, no entity references, no prolog, no comments.  An element
    carries its tag, its [text] (the character data before its first child,
    [None] when there is none) and its children. *)

Module ET.

Inductive element : Type :=
  | Element (tag : string) (text : option string) (children : list element).

Definition tag (e : element) : string := let 'Element t _ _ := e in t.
Definition text (e : element) : option string := let 'Element _ t _ := e in t.
Definition children (e : element) : list element := let 'Element _ _ c := e in c.

Inductive token : Type :=
  | TOpen (name : string)
  | TClose (name : string)
  | TEmpty (name : string)
  | TText (data : string).

Definition name_char (c : ascii) : bool :=
  let n := nat_of_ascii c in
  ((Nat.leb 97 n && Nat.leb n 122) || (Nat.leb 65 n && Nat.leb n 90) ||
   (Nat.leb 48 n && Nat.leb n 57) || Nat.eqb n 95 || Nat.eqb n 45 || Nat.eqb n 46)%bool.

Definition is_name (l : list ascii) : bool :=
  match l with
  | [] => false
  | _ => forallb name_char l
  end.

(** The markup between [<] and [>], given with its characters reversed. *)
Definition markup (rev_buf : list ascii) : option token :=
  match reverse rev_buf, rev_buf with
  | "/"%char :: name, _ =>
      if is_name name then Some (TClose (string_of_list_ascii name)) else None
  | _, "/"%char :: rev_name =>
      if is_name rev_name then Some (TEmpty (string_of_list_ascii (reverse rev_name))) else None
  | name, _ =>
      if is_name name then Some (TOpen (string_of_list_ascii name)) else None
  end.

Definition flush (rev_buf : list ascii) : list token :=
  match rev_buf with
  | [] => []
  | _ => [TText (string_of_list_ascii (reverse rev_buf))]
  end.

(** One pass over the characters; [rev_buf] holds the character data or
    the markup read so far. *)
Fixpoint lex (in_markup : bool) (rev_buf : list ascii) (s : list ascii) : option (list token) :=
  match s with
  | [] => if in_markup then None else Some (flush rev_buf)
  | c :: s' =>
      if in_markup then
        if Ascii.eqb c ">" then
          t ← markup rev_buf; ts ← lex false [] s'; Some (t :: ts)
        else if Ascii.eqb c "<" then None
        else lex true (c :: rev_buf) s'
      else
        if Ascii.eqb c "<" then
          ts ← lex true [] s'; Some (flush rev_buf ++ ts)
        else if Ascii.eqb c "&" then None
        else lex false (c :: rev_buf) s'
  end.

Definition blank (data : string) : bool :=
  forallb Py.is_space (list_ascii_of_string data).

(** An element under construction: tag, text, children read so far
    (latest first). *)
Definition frame : Type := string * option string * list element.

(** Hand a finished element to its parent, or make it the root. *)
Definition finish (e : element) (stack : list frame) (root : option element)
    : option (list frame * option element) :=
  match stack, root with
  | (t, x, kids) :: stack', _ => Some ((t, x, e :: kids) :: stack', root)
  | [], None => Some ([], Some e)
  | [], Some _ => None
  end.

Fixpoint build (stack : list frame) (root : option element) (ts : list token)
    : option element :=
  match ts with
  | [] => match stack with [] => root | _ => None end
  | TText data :: ts' =>
      match stack with
      | [] => if blank data then build [] root ts' else None
      | (t, _, []) :: stack' => build ((t, Some data, []) :: stack') root ts'
      | _ => build stack root ts'
      end
  | TOpen name :: ts' =>
      match stack, root with
      | [], Some _ => None
      | _, _ => build ((name, None, []) :: stack) root ts'
      end
  | TEmpty name :: ts' =>
      '(stack', root') ← finish (Element name None []) stack root;
      build stack' root' ts'
  | TClose name :: ts' =>
      match stack with
      | (t, x, kids) :: stack' =>
          if decide (t = name) then
            '(stack'', root') ← finish (Element t x (reverse kids)) stack' root;
            build stack'' root' ts'
          else None
      | [] => None
      end
  end.

(** [ET.fromstring(s)], also the root of [ET.parse] on a file holding [s] *)
Definition fromstring (s : string) : result element :=
  or_raise ParseError (lex false [] (list_ascii_of_string s) ≫= build [] None).

(** [e.findall(path)] for a path of tags ['a/b/...'], in document order *)
Definition findall (path : list string) (e : element) : list element :=
  foldl (λ found name,
           flat_map (λ parent,
             List.filter (λ child, bool_decide (tag child = name)) (children parent)) found)
        [e] path.

(** [e.find(path)] *)
Definition find (path : list string) (e : element) : option element :=
  head (findall path e).

End ET.

(** ** Pillow

    [Image.new("L", size, color)] and [ImageDraw.Draw(im).rectangle(xy,
    fill)] on an 8-bit single-channel image stored as its rows: [im !! y !! x]
    is the pixel in column [x] of row [y].  A rectangle is filled with both
    corners included and clipped to the image; corners out of order are a
    [ValueError]. *)

Module PIL.

Definition new (size : Z * Z) (color : Z) : result (image Z) :=
  let (width, height) := size in
  if (width <? 0) || (height <? 0) then Raise ValueError
  else Ok (replicate (Z.to_nat height) (replicate (Z.to_nat width) color)).




End PIL.

(** * The script *)

(** ** [crawl] *)

(** The generator, as the list of the paths it yields. *)
Definition crawl (root : path) (file_type : string) : IO (list path) :=
  triples ← os_walk root;
  mret (flat_map (λ t : path * list string * list string,
          let '(path, subdirs, files) := t in
          (λ name, path ++ [name]) <$> List.filter (λ name, Py.endswith name file_type) files)
        triples).

(** ** [center_crop] *)

(** [img.shape[0]], [img.shape[1]] of an array stored as its rows *)
Definition shape {A} (img : image A) : Z * Z :=
  (Z.of_nat (length img), Z.of_nat (length (List.hd [] img))).

Definition center_crop {A} (img : image A) (h w : Z) : image A :=
  let img_shape := shape img in
  let x := img_shape.2 `div` 2 - w `div` 2 in
  let y := img_shape.1 `div` 2 - h `div` 2 in
  Py.slice x (x + w) <$> Py.slice y (y + h) img.

Section Script.

Context {C : Collaborators}.

(** [shutil.copyfile(src, dst)]: refuses to copy a file onto itself,
    opens the source, truncates the destination and writes the bytes;
    when the environment breaks the copy, the destination keeps the bytes
    written so far. *)
Definition shutil_copyfile (src dst : path) : IO unit := λ fs,
  match Fs.resolve src fs with
  | Raise e => (Raise e, fs)
  | Ok n =>
      if decide (src = dst) then (Raise SameFileError, fs) else
      match n with
      | Dir _ => (Raise IsADirectoryError, fs)
      | File bytes =>
          match copy_fault src dst with
          | None => modify (Fs.write dst bytes) fs
          | Some written =>
              match Fs.write dst (String.substring 0 written bytes) fs with
              | Ok fs' => (Raise OSError, fs')
              | Raise e => (Raise e, fs)
              end
          end
      end
  end.

(** [cv2.imwrite(path, img)]: an empty array is an error; a file that
    cannot be opened for writing is reported by the return value only. *)
Definition cv2_imwrite (p : path) (img : image pixel) : IO bool := λ fs,
  if ((shape img).1 =? 0) || ((shape img).2 =? 0) then (Raise CvError, fs) else
  match Fs.write p (imencode img) fs with
  | Ok fs' => (Ok true, fs')
  | Raise _ => (Ok false, fs)
  end.

(** ** [export] *)

(** ["%s-%d.jpg" % (os.path.basename(hif_path), view_idx)] *)
Definition view_name (hif_path : path) (view_idx : nat) : string :=
  basename hif_path +:+ "-" +:+ Py.str_of_nat view_idx +:+ ".jpg".

(** Lines 55-79.  The reader is handed the bytes of the container; every
    view is converted when its turn comes, and only view 0 is cropped. *)
Definition export (hif_path save_path : path) : IO nat :=
  let src := save_path in
  there ← os_path_exists (src ++ [view_name hif_path 0]);
  if there : bool then mret 0%nat else
  there ← os_path_exists (src ++ ["train"; view_name hif_path 0]);
  if there : bool then mret 0%nat else
  there ← os_path_exists (src ++ ["test"; view_name hif_path 0]);
  if there : bool then mret 0%nat else
  bytes ← open_read hif_path;
  views_matlum ← lift (hif_sections bytes);
  for_each (zip (seq 0 (length views_matlum)) views_matlum)
    (λ iv : nat * matlum,
       let (view_idx, matlum) := iv in
       rgb ← lift (matlum_rgb matlum);
       let path := save_path ++ [view_name hif_path view_idx] in
       let rgb := if decide (view_idx = 0%nat) then center_crop rgb 590 440 else rgb in
       cv2_imwrite path rgb;; mret tt);;
  mret (length views_matlum).

(** ** [copy_files], [move_files] *)

(** The body of the loop of [copy_files], lines 121-128, for one name. *)
Definition copy_file (src dest : path) (delete_at_source overwrite : bool)
    (file : string) : IO unit :=
  there ← os_path_exists (dest ++ [file]);
  if (there && negb overwrite)%bool then mret tt else
  regular ← os_path_isfile (src ++ [file]);
  if regular : bool then
    shutil_copyfile (src ++ [file]) (dest ++ [file]);;
    if delete_at_source then os_remove (src ++ [file]) else mret tt
  else mret tt.

Definition copy_files (src : path) (files : list string) (dest : path)
    (delete_at_source overwrite : bool) : IO unit :=
  try_pass (os_makedirs dest);;
  for_each files (copy_file src dest delete_at_source overwrite).

Definition move_files (src : path) (files : list string) (dest : path) : IO unit :=
  copy_files src files dest true false.

(** ** [split_exported_sd3_hif] *)

(** Lines 150-164: from the directory listing to the three lists
    [first_half], [second_half] and [files2del]. *)
Definition split_lists (listing : list string) (portion discard : float)
    : result (list string * list string * list string) :=
  let files := shuffle 47 listing in
  let files := shuffle 50 files in
  assert (0 <? discard)%float;;
  '(files, files2del) ←
    (if (discard <? 1)%float then
       keep ← Py.int_of_float (Py.float_of_nat (length files) * (1 - discard));
       let files := Py.upto keep files in
       from ← Py.int_of_float (Py.float_of_nat (length files) * (1 - discard));
       Ok (files, Py.from from files)
     else
       keep ← Py.int_of_float discard;
       let files := Py.upto keep files in
       Ok (files, Py.from keep files));
  half ← Py.int_of_float (Py.float_of_nat (length files) * portion);
  Ok (Py.upto half files, Py.from half files, files2del).

Definition split_exported_sd3_hif (src : path) (portion discard : float) : IO unit :=
  listing ← os_listdir src;
  '(first_half, second_half, files2del) ← lift (split_lists listing portion discard);
  let dest_train := src ++ ["train"] in
  let dest_test := src ++ ["test"] in
  move_files src first_half dest_train;;
  move_files src second_half dest_test;;
  for_each files2del (λ file,
    regular ← os_path_isfile (src ++ [file]);
    if regular : bool then os_remove (src ++ [file]) else mret tt).

(** ** [copy_sixray_easy] *)

(** [xml_dir / os.path.basename(file).replace(".jpg", ".xml")] *)
Definition xml_of (xml_dir file : path) : path :=
  xml_dir ++ [Py.replace ".jpg" ".xml" (basename file)].

(** [any(map(lambda x: x in s, anomaly_classes))] *)
Definition mentions (anomaly_classes : list string) (s : string) : bool :=
  existsb (λ x, Py.contains x s) anomaly_classes.

(** The loops of lines 204-211 and 213-220: [files] are sorted into the
    lists [normal] and [abnormal], which grow at their ends. *)
Fixpoint segregate (xml_dir : path) (anomaly_classes : list string) (files : list path)
    (normal abnormal : list path) : IO (list path * list path) :=
  match files with
  | [] => mret (normal, abnormal)
  | file :: files' =>
      s ← open_read (xml_of xml_dir file);
      if mentions anomaly_classes s
      then segregate xml_dir anomaly_classes files' normal (abnormal ++ [file])
      else segregate xml_dir anomaly_classes files' (normal ++ [file]) abnormal
  end.

(** [anomaly_classes] is [None] when the argument is not iterable. *)
Definition copy_sixray_easy (sixray_path anomaly_dataset_path : path)
    (anomaly_classes : option (list string)) : IO unit :=
  let sixray := sixray_path in
  let src_train := sixray ++ ["train"; "JPEGImages"] in
  let src_test := sixray ++ ["test"; "JPEGImages"] in
  let anomaly := anomaly_dataset_path in
  sixray_train_files ← crawl src_train ".jpg";
  sixray_test_files ← crawl src_test ".jpg";
  let dest_train_normal := anomaly ++ ["train"; "0.normal"] in
  let dest_test_normal := anomaly ++ ["test"; "0.normal"] in
  let dest_test_abnormal := anomaly ++ ["test"; "1.abnormal"] in
  match anomaly_classes with
  | Some anomaly_classes =>
      let xml_train := sixray ++ ["train"; "Annotations"] in
      let xml_test := sixray ++ ["test"; "Annotations"] in
      '(normal_train, abnormal_train) ←
        segregate xml_train anomaly_classes sixray_train_files [] [];
      '(normal_test, abnormal_test) ←
        segregate xml_test anomaly_classes sixray_test_files [] [];
      copy_files src_train (basename <$> normal_train) dest_train_normal false false;;
      copy_files src_train (basename <$> abnormal_train) dest_test_abnormal false false;;
      copy_files src_test (basename <$> normal_test) dest_test_normal false false;;
      copy_files src_test (basename <$> abnormal_test) dest_test_abnormal false false
  | None =>
      copy_files src_train (basename <$> sixray_train_files) dest_test_abnormal false true;;
      copy_files src_test (basename <$> sixray_test_files) dest_test_abnormal false false
  end.

End Script.

(** ** [parse_voc_xml] *)

Record bndbox : Type := { xmin : Z; ymin : Z; xmax : Z; ymax : Z }.

(** [obj_info]; the name is [None] when the [name] element is empty. *)
Record voc_object : Type := { obj_name : option string; obj_bbox : bndbox }.

Record voc : Type := {
  filename : option string;
  width : Z;
  height : Z;
  depth : Z;
  objects : list voc_object;
}.

(** [e.find(path).text]: [find] gives [None] for a missing element, whose
    [.text] is an [AttributeError]. *)
Definition find_text (path : list string) (e : ET.element) : result (option string) :=
  found ← or_raise AttributeError (ET.find path e); Ok (ET.text found).

(** [int(e.find(path).text)]: [int(None)] is a [TypeError]. *)
Definition find_int (path : list string) (e : ET.element) : result Z :=
  t ← find_text path e; s ← or_raise TypeError t; Py.int_of_str s.

Definition object_info (obj : ET.element) : result voc_object :=
  name ← find_text ["name"] obj;
  xmin ← find_int ["bndbox"; "xmin"] obj;
  ymin ← find_int ["bndbox"; "ymin"] obj;
  xmax ← find_int ["bndbox"; "xmax"] obj;
  ymax ← find_int ["bndbox"; "ymax"] obj;
  Ok {| obj_name := name;
        obj_bbox := {| xmin := xmin; ymin := ymin; xmax := xmax; ymax := ymax |} |}.

Fixpoint object_infos (objs : list ET.element) : result (list voc_object) :=
  match objs with
  | [] => Ok []
  | obj :: objs' =>
      obj_info ← object_info obj; objects ← object_infos objs'; Ok (obj_info :: objects)
  end.

Definition voc_of_root (root : ET.element) : result voc :=
  filename ← find_text ["filename"] root;
  width ← find_int ["size"; "width"] root;
  height ← find_int ["size"; "height"] root;
  depth ← find_int ["size"; "depth"] root;
  objects ← object_infos (ET.findall ["object"] root);
  Ok {| filename := filename; width := width; height := height; depth := depth;
        objects := objects |}.

Definition parse_voc_xml (xml_path : path) : IO voc :=
  s ← open_read xml_path;
  lift (root ← ET.fromstring s; voc_of_root root).

(** ** [generate_mask_from_bbox] *)



(** ** [classify_files] *)

(** [defaultdict(lambda: [])] from class names to files *)
Abbreviation buckets := (gmap (option string) (list path)).

(** [d[cls].append(file)] *)
Definition bucket_append (cls : option string) (file : path) (d : buckets) : buckets :=
  <[cls := d !!! cls ++ [file]]> d.

(** [set(classes)], each name once *)
Definition unique (classes : list (option string)) : list (option string) :=
  remove_dups classes.

(** The body of the loop, lines 328-336, for one file whose annotation has
    been read. *)
Definition classify_file (anomaly_classes : list string) (file : path) (info : voc)
    (found : buckets * buckets) : buckets * buckets :=
  let (normal_files, abnormal_files) := found in
  let classes := obj_name <$> objects info in
  let unique_cls := unique classes in
  if existsb (λ x, bool_decide (Some x ∈ unique_cls)) anomaly_classes then
    (normal_files,
     foldl (λ abnormal_files cls,
              if bool_decide (cls ∈ Some <$> anomaly_classes)
              then bucket_append cls file abnormal_files else abnormal_files)
           abnormal_files unique_cls)
  else
    (foldl (λ normal_files cls, bucket_append cls file normal_files) normal_files unique_cls,
     abnormal_files).

Fixpoint classify_from (xml_dir : path) (anomaly_classes : list string) (files : list path)
    (found : buckets * buckets) : IO (buckets * buckets) :=
  match files with
  | [] => mret found
  | file :: files' =>
      info ← parse_voc_xml (xml_of xml_dir file);
      classify_from xml_dir anomaly_classes files' (classify_file anomaly_classes file info found)
  end.

Definition classify_files (xml_dir : path) (files : list path) (anomaly_classes : list string)
    : IO (buckets * buckets) :=
  classify_from xml_dir anomaly_classes files (∅, ∅).

(** * Collaborators to run examples with

    A HIF file of [n] bytes decodes to [n] views of one pixel each, the
    pixel being the byte; the encoder writes the pixels back as bytes;
    shuffling reverses the list; a copy breaks after [broken] bytes when
    [broken] is given. *)

Module Demo.

Definition collaborators (broken : option nat) : Collaborators := {|
  pixel := ascii;
  shuffle := λ _ l, reverse l;
  matlum := ascii;
  hif_sections := λ bytes, Ok (list_ascii_of_string bytes);
  matlum_rgb := λ m, Ok [[m]];
  imencode := λ img, string_of_list_ascii (concat img);
  copy_fault := λ _ _, broken;
|}.

End Demo.


(** * More of the script *)

(** [shutil.rmtree(p)]: the directory at [p] goes with all it holds; a
    path that is missing or is not a directory is an error and nothing
    goes.  The root of the tree cannot be removed itself: it is emptied and
    the removal of the root is the error. *)
Definition shutil_rmtree (p : path) : IO unit := λ fs,
  match Fs.resolve p fs with
  | Raise e => (Raise e, fs)
  | Ok (File _) => (Raise NotADirectoryError, fs)
  | Ok (Dir _) =>
      match Fs.split p with
      | None => (Raise OSError, Dir [])
      | Some (dir, name) =>
          modify (Fs.with_dir dir (λ es, Ok (Fs.del_entry name es))) fs
      end
  end.

Section MoreScript.

Context {C : Collaborators}.

(** ** [export], one view *)

(** The body of the loop of [export], lines 70-78, for one view. *)
Definition export_view (hif_path save_path : path) (iv : nat * matlum) : IO unit :=
  let (view_idx, matlum) := iv in
  rgb ← lift (matlum_rgb matlum);
  let path := save_path ++ [view_name hif_path view_idx] in
  let rgb := if decide (view_idx = 0%nat) then center_crop rgb 590 440 else rgb in
  cv2_imwrite path rgb;; mret tt.

(** ** [export_sd3_hif_form_dir] *)

(** The loop of lines 107-109, with its counter. *)
Fixpoint export_each (files : list path) (img_export_path : path) (counter : nat) : IO nat :=
  match files with
  | [] => mret counter
  | path :: files' =>
      exported ← export path img_export_path;
      export_each files' img_export_path (counter + exported)%nat
  end.

(** Lines 96-110.  The result is the pair of numbers of the closing
    message: images exported, HIF files found. *)
Definition export_sd3_hif_form_dir (hif_path img_export_path : path)
    (remove_before_export : bool) : IO (nat * nat) :=
  (if remove_before_export then shutil_rmtree img_export_path else mret tt);;
  try_pass (os_mkdir img_export_path);;
  files ← crawl hif_path ".hif";
  counter ← export_each files img_export_path 0%nat;
  mret (counter, length files).

(** ** [copy_sd3_dataset] *)

Definition copy_sd3_dataset (sd3_path anomaly_dataset_path : path) : IO unit :=
  let sd3 := sd3_path in
  let anomaly := anomaly_dataset_path in
  let dest_train := anomaly ++ ["train"; "0.normal"] in
  let dest_test := anomaly ++ ["test"; "0.normal"] in
  let src_train := sd3 ++ ["train"] in
  let src_test := sd3 ++ ["test"] in
  listing ← os_listdir src_train;
  copy_files src_train listing dest_train false false;;
  listing ← os_listdir src_test;
  copy_files src_test listing dest_test false false.

End MoreScript.

(** ** [clean_before_copy] *)

(** [shutil.rmtree(dataset_path, ignore_errors=True)] *)
Definition clean_before_copy (anomaly_dataset_path : path) : IO unit :=
  try_pass (shutil_rmtree anomaly_dataset_path).

(** * Well-formed file systems

    No directory lists a name twice. *)
Fixpoint wf (n : node) : Prop :=
  match n with
  | File _ => True
  | Dir es =>
      NoDup es.*1 ∧
      (fix all (es : entries) : Prop :=
         match es with
         | [] => True
         | kn :: es' => wf kn.2 ∧ all es'
         end) es
  end.

(** The paths that [crawl] makes of what [os.walk] yields. *)
Definition yielded (file_type : string) (triples : list (path * list string * list string))
    : list path :=
  flat_map (λ t : path * list string * list string,
    let '(path, subdirs, files) := t in
    (λ name, path ++ [name]) <$> List.filter (λ name, Py.endswith name file_type) files)
  triples.


(** * Properties

    The predicates in which the theorems below are stated. *)

(** All rows of [img] have [w] entries. *)
Definition rows_of_width {A} (w : nat) (img : image A) : Prop :=
  Forall (λ row, length row = w) img.

(** [crop] is the window of [h] rows and [w] columns of [img] whose top-left
    corner sits at row [top], column [left]. *)
Definition window_at {A} (img : image A) (top left : Z) (h w : nat) (crop : image A) : Prop :=
  length crop = h ∧ rows_of_width w crop ∧
  ∀ i j : nat, (i < h)%nat → (j < w)%nat →
    (crop !! i) ≫= (.!! j) =
    (img !! Z.to_nat (top + Z.of_nat i)) ≫= (.!! Z.to_nat (left + Z.of_nat j)).


(** Something, a file or a directory, is at [p]. *)
Definition present (p : path) (fs : node) : Prop :=
  ∃ n, Fs.resolve p fs = Ok n.

(** Nothing is at [p]. *)
Definition missing (p : path) (fs : node) : Prop :=
  ∃ e, Fs.resolve p fs = Raise e.

(** The first view of [hif_path] has been exported to [save_path] already:
    its image is there or in the [train] or [test] directory below. *)
Definition exported_before (hif_path save_path : path) (fs : node) : Prop :=
  present (save_path ++ [view_name hif_path 0]) fs ∨
  present (save_path ++ ["train"; view_name hif_path 0]) fs ∨
  present (save_path ++ ["test"; view_name hif_path 0]) fs.

(** Every image that [save_path] holds for a view of [hif_path] has the
    same bytes after [export] as before. *)
Definition exports_kept {C : Collaborators} (hif_path save_path : path) (fs : node) : Prop :=
  ∀ view_idx bytes,
    Fs.file_at (save_path ++ [view_name hif_path view_idx]) fs = Some bytes →
    Fs.file_at (save_path ++ [view_name hif_path view_idx])
      (export hif_path save_path fs).2 = Some bytes.

(** The split is refused for its [discard] alone, whatever the file system
    holds, and leaves the file system alone. *)
Definition rejected_before_io {C : Collaborators} (src : path) (portion discard : float) : Prop :=
  ∀ fs, split_exported_sd3_hif src portion discard fs = (Raise AssertionError, fs).

(** The text of the annotation of [file], when there is one to read. *)
Definition annotation_text (xml_dir file : path) (fs : node) : option string :=
  Fs.file_at (xml_of xml_dir file) fs.

(** An anomaly class name occurs somewhere in the text of the annotation
    of [file]. *)
Definition text_flagged (xml_dir : path) (anomaly_classes : list string) (fs : node)
    (file : path) : Prop :=
  ∃ s, annotation_text xml_dir file fs = Some s ∧ mentions anomaly_classes s = true.

(** The class names of the objects in the annotation of [file], each once,
    when the annotation parses. *)
Definition annotated_classes (xml_dir file : path) (fs : node) : option (list (option string)) :=
  match (parse_voc_xml (xml_of xml_dir file) fs).1 with
  | Ok info => Some (unique (obj_name <$> objects info))
  | Raise _ => None
  end.

(** One of the classes is an anomaly class. *)
Definition flagged (anomaly_classes : list string) (classes : list (option string)) : Prop :=
  Exists (λ x, Some x ∈ classes) anomaly_classes.

(** [file] belongs in the abnormal bucket of [cls]: [cls] is a class of
    its annotation and an anomaly class. *)
Definition files_abnormal (xml_dir : path) (anomaly_classes : list string) (fs : node)
    (cls : option string) (file : path) : Prop :=
  ∃ classes, annotated_classes xml_dir file fs = Some classes ∧
    cls ∈ classes ∧ cls ∈ Some <$> anomaly_classes.

(** [file] belongs in the normal bucket of [cls]: [cls] is a class of its
    annotation, none of whose classes is an anomaly class. *)
Definition files_normal (xml_dir : path) (anomaly_classes : list string) (fs : node)
    (cls : option string) (file : path) : Prop :=
  ∃ classes, annotated_classes xml_dir file fs = Some classes ∧
    cls ∈ classes ∧ ¬ flagged anomaly_classes classes.

#[global] Instance text_flagged_dec xml_dir anomaly_classes fs file :
  Decision (text_flagged xml_dir anomaly_classes fs file).
Proof.
  unfold text_flagged. destruct (annotation_text xml_dir file fs) as [s|].
  - destruct (mentions anomaly_classes s) eqn:Hs.
    + left. by exists s.
    + right. intros (s' & ? & ?). simplify_eq. congruence.
  - right. by intros (s' & ? & ?).
Defined.

#[global] Instance files_abnormal_dec xml_dir anomaly_classes fs cls file :
  Decision (files_abnormal xml_dir anomaly_classes fs cls file).
Proof.
  unfold files_abnormal. destruct (annotated_classes xml_dir file fs) as [classes|].
  - destruct (decide (cls ∈ classes ∧ cls ∈ Some <$> anomaly_classes)) as [Hyes|Hno].
    + left. by exists classes.
    + right. intros (classes' & ? & ?). by simplify_eq.
  - right. by intros (classes' & ? & ?).
Defined.

#[global] Instance files_normal_dec xml_dir anomaly_classes fs cls file :
  Decision (files_normal xml_dir anomaly_classes fs cls file).
Proof.
  unfold files_normal, flagged. destruct (annotated_classes xml_dir file fs) as [classes|].
  - destruct (decide (cls ∈ classes ∧
                      ¬ Exists (λ x, Some x ∈ classes) anomaly_classes)) as [Hyes|Hno].
    + left. by exists classes.
    + right. intros (classes' & ? & ?). by simplify_eq.
  - right. by intros (classes' & ? & ?).
Defined.





(** * Inputs of the examples *)

Module Ex.

(** A destination that holds the image of view 1 of [a.hif] but not that
    of view 0. *)
Definition half_exported : node :=
  Dir [("in", Dir [("a.hif", File "xy")]);
       ("out", Dir [("a.hif-1.jpg", File "old")])].

(** Annotation files in the Pascal-VOC layout. *)
Definition object_xml (name : string) : string :=
  "<object><name>" +:+ name +:+ "</name><bndbox><xmin>10</xmin><ymin>10</ymin>" +:+
  "<xmax>50</xmax><ymax>50</ymax></bndbox></object>".

Definition annotation_xml (filename : string) (names : list string) : string :=
  "<annotation><filename>" +:+ filename +:+ "</filename>" +:+
  "<size><width>100</width><height>100</height><depth>3</depth></size>" +:+
  foldr (λ name rest, object_xml name +:+ rest) "" names +:+ "</annotation>".

(** A corpus of four images: a gun and a knife, a knife alone, no object at
    all, and a knife in an image whose file name has [gun] in it. *)
Definition sixray : node :=
  Dir [("Annotations",
        Dir [("P1.xml", File (annotation_xml "P1.jpg" ["gun"; "knife"]));
             ("P2.xml", File (annotation_xml "P2.jpg" ["knife"]));
             ("P3.xml", File (annotation_xml "P3.jpg" []));
             ("gun_4.xml", File (annotation_xml "gun_4.jpg" ["knife"]))]);
       ("JPEGImages",
        Dir [("P1.jpg", File "1"); ("P2.jpg", File "2"); ("P3.jpg", File "3");
             ("gun_4.jpg", File "4")])].

Definition images : list path :=
  [["JPEGImages"; "P1.jpg"]; ["JPEGImages"; "P2.jpg"]; ["JPEGImages"; "P3.jpg"];
   ["JPEGImages"; "gun_4.jpg"]].

End Ex.


(** * More properties *)

(** Every key of the dictionary holds at least one file and satisfies [Q]. *)
Definition keys_are (Q : option string → Prop) (d : buckets) : Prop :=
  ∀ cls l, d !! cls = Some l → l ≠ [] ∧ Q cls.

(** * More inputs of the examples *)

Module Sample.

(** Exported images, split already, next to an empty dataset directory. *)
Definition sd3 : node :=
  Dir [("exported",
        Dir [("train", Dir [("a.jpg", File "A")]);
             ("test", Dir [("b.jpg", File "B")])]);
       ("dataset", Dir [])].

(** Four exported images, not split yet. *)
Definition exported : node :=
  Dir [("exported",
        Dir [("a.jpg", File "A"); ("b.jpg", File "B"); ("c.jpg", File "C");
             ("d.jpg", File "D")])].

(** A SIXray corpus with its two parts, next to an empty dataset
    directory: a gun and a knife to train on, a gun to test on. *)
Definition sixray : node :=
  Dir [("sixray",
        Dir [("train",
              Dir [("JPEGImages", Dir [("P1.jpg", File "1"); ("P2.jpg", File "2")]);
                   ("Annotations",
                    Dir [("P1.xml", File (Ex.annotation_xml "P1.jpg" ["gun"]));
                         ("P2.xml", File (Ex.annotation_xml "P2.jpg" ["knife"]))])]);
             ("test",
              Dir [("JPEGImages", Dir [("P5.jpg", File "5")]);
                   ("Annotations",
                    Dir [("P5.xml", File (Ex.annotation_xml "P5.jpg" ["gun"]))])])]);
       ("dataset", Dir [])].

(** The same layout with a test image that has no annotation. *)
Definition sixray_unannotated : node :=
  Dir [("sixray",
        Dir [("train",
              Dir [("JPEGImages", Dir [("P1.jpg", File "1")]);
                   ("Annotations",
                    Dir [("P1.xml", File (Ex.annotation_xml "P1.jpg" ["gun"]))])]);
             ("test",
              Dir [("JPEGImages", Dir [("P5.jpg", File "5")]);
                   ("Annotations", Dir [])])]);
       ("dataset", Dir [])].

(** A container of two views and an empty export directory. *)
Definition to_export : node :=
  Dir [("in", Dir [("a.hif", File "xy")]); ("out2", Dir [])].

(** A container whose first view was exported and moved to [train] by an
    earlier run. *)
Definition split_before : node :=
  Dir [("bags",
        Dir [("a.hif", File "xy");
             ("exported", Dir [("train", Dir [("a.hif-0.jpg", File "old")])])])].

End Sample.

(** * Slices *)

Section Slices.

Context {A : Type}.
Implicit Types (l : list A) (a n : nat).

Lemma slice_index_inside a len :
  (a ≤ len)%nat → Py.slice_index (Z.of_nat a) len = a.
Proof. intros Ha. unfold Py.slice_index. case_match; lia. Qed.

Lemma upto_take l a :
  (a ≤ length l)%nat → Py.upto (Z.of_nat a) l = take a l.
Proof. intros Ha. unfold Py.upto. by rewrite slice_index_inside. Qed.

Lemma from_drop l a :
  (a ≤ length l)%nat → Py.from (Z.of_nat a) l = drop a l.
Proof. intros Ha. unfold Py.from. by rewrite slice_index_inside. Qed.

(** [l[k:]] and [l[:k]] cut [l] in two at the same place, whatever [k]. *)
Lemma upto_from l (k : Z) : Py.upto k l ++ Py.from k l = l.
Proof. apply take_drop. Qed.

(** A window that fits: [l[a : a + n]] is the [n] elements from [a] on. *)
Lemma slice_window l a n :
  (a + n ≤ length l)%nat →
  Py.slice (Z.of_nat a) (Z.of_nat a + Z.of_nat n) l = take n (drop a l).
Proof.
  intros Hfit. unfold Py.slice.
  rewrite slice_index_inside by lia.
  replace (Z.of_nat a + Z.of_nat n) with (Z.of_nat (a + n)) by lia.
  rewrite slice_index_inside by lia.
  by rewrite take_drop_commute.
Qed.

End Slices.

(** * [center_crop] *)

Lemma shape_rows {A} (img : image A) (w : nat) :
  img ≠ [] → rows_of_width w img → shape img = (Z.of_nat (length img), Z.of_nat w).
Proof.
  intros Hne Hrows. destruct img as [|row img]; [done|].
  apply Forall_cons in Hrows as [Hrow _]. unfold shape. simpl. by rewrite Hrow.
Qed.

(** C7, as stated, is false: a 100 x 100 frame comes back whole. *)
Lemma center_crop_small_frame :
  let img := replicate 100 (replicate 100 0) in
  ¬ window_at img (100 `div` 2 - 295) (100 `div` 2 - 220) 590 440 (center_crop img 590 440).
Proof. intros img [Hlen _]. vm_compute in Hlen. discriminate. Qed.

(** C7 (amended): for a frame of [H >= 590] rows and [W >= 440] columns,
    [center_crop] to 590 x 440 returns the window of exactly 590 rows and 440
    columns whose top-left corner is at row [H // 2 - 295] and column
    [W // 2 - 220] of the frame. *)
Theorem center_crop_window {A} (img : image A) (H W : nat) :
  length img = H → rows_of_width W img → (590 ≤ H)%nat → (440 ≤ W)%nat →
  window_at img (Z.of_nat H `div` 2 - 295) (Z.of_nat W `div` 2 - 220) 590 440
    (center_crop img 590 440).
Proof.
  intros HH HW Hh Hw.
  assert (img ≠ []) as Hne by (intros ->; simpl in HH; lia).
  unfold center_crop. rewrite (shape_rows img W Hne HW), HH. cbn [fst snd].
  change (590 `div` 2) with 295. change (440 `div` 2) with 220.
  set (top := (H / 2 - 295)%nat). set (left := (W / 2 - 220)%nat).
  assert (Z.of_nat H `div` 2 - 295 = Z.of_nat top) as ->.
  { subst top. rewrite Nat2Z.inj_sub, (Nat2Z.inj_div H 2); [done|].
    apply (Nat.div_le_lower_bound H 2 295); lia. }
  assert (Z.of_nat W `div` 2 - 220 = Z.of_nat left) as ->.
  { subst left. rewrite Nat2Z.inj_sub, (Nat2Z.inj_div W 2); [done|].
    apply (Nat.div_le_lower_bound W 2 220); lia. }
  assert (top + 590 ≤ H)%nat as Htop.
  { subst top. pose proof (Nat.div_mod_eq H 2). pose proof (Nat.mod_upper_bound H 2). lia. }
  assert (left + 440 ≤ W)%nat as Hleft.
  { subst left. pose proof (Nat.div_mod_eq W 2). pose proof (Nat.mod_upper_bound W 2). lia. }
  change 590 with (Z.of_nat 590). change 440 with (Z.of_nat 440).
  rewrite (slice_window img top 590) by lia.
  assert (∀ row, row ∈ take 590 (drop top img) → length row = W) as Hrows.
  { intros row Hin. apply (proj1 (Forall_forall _ _) HW).
    by apply (subseteq_drop top img), (subseteq_take 590 (drop top img)). }
  split; [|split].
  - rewrite length_fmap, length_take, length_drop. lia.
  - apply Forall_fmap, Forall_forall. intros row Hin. simpl.
    rewrite (slice_window row left 440) by (rewrite (Hrows row Hin); lia).
    rewrite length_take, length_drop, (Hrows row Hin). lia.
  - intros i j Hi Hj.
    rewrite list_lookup_fmap, lookup_take_lt by lia. rewrite lookup_drop.
    replace (Z.to_nat (Z.of_nat top + Z.of_nat i)) with (top + i)%nat by lia.
    replace (Z.to_nat (Z.of_nat left + Z.of_nat j)) with (left + j)%nat by lia.
    destruct (img !! (top + i)%nat) as [row|] eqn:Hrow; [|done]. simpl.
    assert (length row = W) as Hlen.
    { apply (proj1 (Forall_forall _ _) HW). by eapply list_elem_of_lookup_2. }
    rewrite (slice_window row left 440) by lia.
    rewrite lookup_take_lt by lia. by rewrite lookup_drop.
Qed.

(** A frame of 590 x 440, the smallest one, is its own crop. *)
Lemma center_crop_window_witness :
  window_at (replicate 590 (replicate 440 0)) 0 0 590 440
    (center_crop (replicate 590 (replicate 440 0)) 590 440).
Proof.
  apply (center_crop_window (replicate 590 (replicate 440 0)) 590 440).
  - apply length_replicate.
  - apply Forall_replicate, length_replicate.
  - lia.
  - lia.
Defined.

(** * The file system: what a change leaves alone *)

Section FileSystem.

Implicit Types (es : entries) (n fs : node) (p q dir : path) (name k : string).

Lemma lookup_set_entry name new es k :
  Fs.lookup_entry k (Fs.set_entry name new es) =
  if decide (k = name) then Some new else Fs.lookup_entry k es.
Proof.
  induction es as [|[k' n'] es IH]; simpl.
  - repeat case_decide; congruence.
  - destruct (decide (k' = name)) as [->|Hne]; simpl.
    + repeat case_decide; congruence.
    + rewrite IH. repeat case_decide; congruence.
Qed.

Lemma lookup_del_entry name es k :
  Fs.lookup_entry k (Fs.del_entry name es) =
  if decide (k = name) then None else Fs.lookup_entry k es.
Proof.
  unfold Fs.del_entry. induction es as [|[k' n'] es IH]; simpl.
  - by case_decide.
  - rewrite filter_cons. simpl. destruct (decide (k' ≠ name)) as [Hne|Heq]; simpl.
    + rewrite IH. repeat case_decide; congruence.
    + apply dec_stable in Heq as ->. rewrite IH. repeat case_decide; congruence.
Qed.

Lemma split_Some p dir name : Fs.split p = Some (dir, name) → p = dir ++ [name].
Proof.
  unfold Fs.split. destruct (reverse p) as [|name' rev_dir] eqn:Hrev; intros ?; simplify_eq.
  by rewrite <- (reverse_involutive p), Hrev, reverse_cons.
Qed.

Lemma file_at_nil n : Fs.file_at [] n = match n with File c => Some c | Dir _ => None end.
Proof. done. Qed.

Lemma file_at_cons k q es :
  Fs.file_at (k :: q) (Dir es) = Fs.lookup_entry k es ≫= Fs.file_at q.
Proof. unfold Fs.file_at. simpl. by destruct (Fs.lookup_entry k es). Qed.

Lemma file_at_below_file k q c : Fs.file_at (k :: q) (File c) = None.
Proof. done. Qed.

(** Only what lies in or below the rewritten directory can change. *)
Lemma file_at_with_dir dir f n n' q :
  Fs.with_dir dir f n = Ok n' →
  (∀ es es' q', q = dir ++ q' → f es = Ok es' →
     Fs.file_at q' (Dir es') = Fs.file_at q' (Dir es)) →
  Fs.file_at q n' = Fs.file_at q n.
Proof.
  revert n n' q. induction dir as [|c dir IH]; intros n n' q Hwith Hin.
  - destruct n as [|es]; [done|]. simpl in Hwith.
    destruct (f es) as [es'|] eqn:Hf; simplify_eq/=. by apply Hin.
  - destruct n as [|es]; [done|]. simpl in Hwith.
    destruct (Fs.lookup_entry c es) as [child|] eqn:Hc; [|done].
    destruct (Fs.with_dir dir f child) as [child'|] eqn:Hrec; simplify_eq/=.
    destruct q as [|k q]; [done|].
    rewrite !file_at_cons, lookup_set_entry. case_decide as Hk; [|done].
    subst k. rewrite Hc. simpl. apply (IH child child' q Hrec).
    intros es0 es0' q' -> Hf. by apply Hin.
Qed.

(** Inside the rewritten directory the new entries are found. *)
Lemma file_at_with_dir_in dir f n n' q :
  Fs.with_dir dir f n = Ok n' →
  ∃ es es', f es = Ok es' ∧ Fs.file_at (dir ++ q) n' = Fs.file_at q (Dir es').
Proof.
  revert n n'. induction dir as [|c dir IH]; intros n n' Hwith.
  - destruct n as [|es]; [done|]. simpl in Hwith.
    destruct (f es) as [es'|] eqn:Hf; simplify_eq/=. by exists es, es'.
  - destruct n as [|es]; [done|]. simpl in Hwith.
    destruct (Fs.lookup_entry c es) as [child|] eqn:Hc; [|done].
    destruct (Fs.with_dir dir f child) as [child'|] eqn:Hrec; simplify_eq/=.
    destruct (IH child child' Hrec) as (es0 & es0' & Hf & Hat).
    exists es0, es0'. split; [done|].
    rewrite file_at_cons, lookup_set_entry. by rewrite decide_True.
Qed.

Lemma file_at_write_ne p c fs fs' q :
  Fs.write p c fs = Ok fs' → q ≠ p → Fs.file_at q fs' = Fs.file_at q fs.
Proof.
  unfold Fs.write. intros Hwrite Hne.
  destruct (Fs.split p) as [[dir name]|] eqn:Hsplit; [|done].
  apply split_Some in Hsplit as ->.
  apply (file_at_with_dir _ _ _ _ _ Hwrite).
  intros es es' q' -> Hf.
  destruct q' as [|k q']; [done|]. rewrite !file_at_cons.
  assert (es' = Fs.set_entry name (File c) es ∧
          ∀ es0, Fs.lookup_entry name es ≠ Some (Dir es0)) as [-> Hfile].
  { destruct (Fs.lookup_entry name es) as [[|]|]; by simplify_eq. }
  rewrite lookup_set_entry. case_decide as Hk; [|done]. subst k.
  destruct q' as [|k q']; [done|]. simpl.
  destruct (Fs.lookup_entry name es) as [[|es0]|]; [done| |done].
  by destruct (Hfile es0).
Qed.

Lemma file_at_write_eq p c fs fs' :
  Fs.write p c fs = Ok fs' → Fs.file_at p fs' = Some c.
Proof.
  unfold Fs.write. intros Hwrite.
  destruct (Fs.split p) as [[dir name]|] eqn:Hsplit; [|done].
  apply split_Some in Hsplit as ->.
  destruct (file_at_with_dir_in _ _ _ _ [name] Hwrite) as (es & es' & Hf & ->).
  assert (es' = Fs.set_entry name (File c) es) as ->.
  { destruct (Fs.lookup_entry name es) as [[|]|]; by simplify_eq. }
  rewrite file_at_cons, lookup_set_entry. by rewrite decide_True.
Qed.

Lemma file_at_remove_ne p fs fs' q :
  Fs.remove p fs = Ok fs' → q ≠ p → Fs.file_at q fs' = Fs.file_at q fs.
Proof.
  unfold Fs.remove. intros Hremove Hne.
  destruct (Fs.split p) as [[dir name]|] eqn:Hsplit; [|done].
  apply split_Some in Hsplit as ->.
  apply (file_at_with_dir _ _ _ _ _ Hremove).
  intros es es' q' -> Hf.
  destruct q' as [|k q']; [done|]. rewrite !file_at_cons.
  destruct (Fs.lookup_entry name es) as [[c|]|] eqn:Hname; simplify_eq/=.
  rewrite lookup_del_entry. case_decide as Hk; [|done]. subst k.
  rewrite Hname. destruct q' as [|k q']; [done|]. done.
Qed.

End FileSystem.

(** * The I/O monad: loops *)

Lemma for_each_raise {A} (body : A → IO unit) l fs e fs' :
  for_each l body fs = (Raise e, fs') →
  ∃ l1 a l2 fs1, l = l1 ++ a :: l2 ∧
    for_each l1 body fs = (Ok tt, fs1) ∧ body a fs1 = (Raise e, fs').
Proof.
  revert fs. induction l as [|a l IH]; intros fs Hrun; [done|].
  simpl in Hrun. unfold mbind, io_bind in Hrun.
  destruct (body a fs) as [[[]|e0] fs0] eqn:Hbody.
  - destruct (IH fs0 Hrun) as (l1 & b & l2 & fs1 & -> & Hl1 & Hb).
    exists (a :: l1), b, l2, fs1. split_and!; [done| |done].
    simpl. unfold mbind, io_bind. by rewrite Hbody.
  - simplify_eq. by exists [], a, l, fs.
Qed.

(** * [crawl] *)

(** C4, as stated, is false: crawling a root that does not exist raises
    nothing and yields the empty sequence. *)
Lemma crawl_missing_root_no_error :
  missing ["data"; "bags"] (Dir []) ∧
  ¬ ∃ e, (crawl ["data"; "bags"] ".hif" (Dir [])).1 = Raise e.
Proof. split; [by exists FileNotFoundError|]. by intros [e ?]. Qed.

(** C4 (amended): for every root path that does not exist, the crawler
    raises no error and returns the empty sequence of paths, leaving the
    file system as it was. *)
Theorem crawl_missing_root root file_type fs :
  missing root fs → crawl root file_type fs = (Ok [], fs).
Proof.
  intros [e Hroot]. unfold crawl, os_walk, mbind, io_bind, mret, io_ret.
  by rewrite Hroot.
Qed.

Lemma crawl_missing_root_witness :
  crawl ["data"; "bags"] ".hif" (Dir []) = (Ok [], Dir []).
Proof.
  apply (crawl_missing_root ["data"; "bags"] ".hif" (Dir [])).
  exists FileNotFoundError. reflexivity.
Defined.

(** * [export] *)

(** C5, as stated, is false: with [a.hif-0.jpg] absent, the image of view 1
    that the destination holds already is written again. *)
Lemma export_overwrites_later_view :
  ¬ exports_kept (C := Demo.collaborators None) ["in"; "a.hif"] ["out"] Ex.half_exported.
Proof.
  intros Hkept. specialize (Hkept 1%nat "old" eq_refl).
  vm_compute in Hkept. discriminate.
Qed.

(** C5 (amended): when the image of view 0 of the container is already in
    the destination or in its [train] or [test] sub-directory, the exporter
    writes nothing and returns 0, so every image the destination holds for
    a view of the container keeps its bytes. *)
Theorem export_skips_exported {C : Collaborators} hif_path save_path fs :
  exported_before hif_path save_path fs →
  export hif_path save_path fs = (Ok 0%nat, fs) ∧ exports_kept hif_path save_path fs.
Proof.
  intros Hbefore.
  assert (export hif_path save_path fs = (Ok 0%nat, fs)) as Hskip.
  { unfold export, os_path_exists, mbind, io_bind.
    destruct (Fs.resolve (save_path ++ [view_name hif_path 0]) fs) eqn:H1; [done|].
    destruct (Fs.resolve (save_path ++ ["train"; view_name hif_path 0]) fs) eqn:H2; [done|].
    destruct (Fs.resolve (save_path ++ ["test"; view_name hif_path 0]) fs) eqn:H3; [done|].
    destruct Hbefore as [[n Hn]|[[n Hn]|[n Hn]]]; congruence. }
  split; [done|]. intros view_idx bytes Hfile. by rewrite Hskip.
Qed.

Lemma export_skips_exported_witness :
  export (C := Demo.collaborators None) ["in"; "a.hif"] ["out"]
    (Dir [("in", Dir [("a.hif", File "xy")]);
          ("out", Dir [("train", Dir [("a.hif-0.jpg", File "old")])])])
  = (Ok 0%nat,
     Dir [("in", Dir [("a.hif", File "xy")]);
          ("out", Dir [("train", Dir [("a.hif-0.jpg", File "old")])])]).
Proof.
  apply (export_skips_exported (C := Demo.collaborators None)).
  right; left. eexists. reflexivity.
Defined.

(** * [copy_files] *)

Section Copy.

Context {C : Collaborators}.

(** Whatever becomes of a copy, its source is left as it was. *)
Lemma shutil_copyfile_source src dst fs r fs' :
  shutil_copyfile src dst fs = (r, fs') → Fs.file_at src fs' = Fs.file_at src fs.
Proof.
  unfold shutil_copyfile, modify. intros Hcopy.
  destruct (Fs.resolve src fs) as [[bytes|es]|]; [|repeat case_decide; by simplify_eq..].
  case_decide as Hsame; [by simplify_eq|].
  destruct (copy_fault src dst) as [written|].
  - destruct (Fs.write dst _ fs) as [fs1|] eqn:Hwrite; simplify_eq; [|done].
    by eapply file_at_write_ne.
  - destruct (Fs.write dst _ fs) as [fs1|] eqn:Hwrite; simplify_eq; [|done].
    by eapply file_at_write_ne.
Qed.

(** A copy that returns has put all the bytes of the source at the
    destination, which is another file. *)
Lemma shutil_copyfile_done src dst fs fs' bytes :
  shutil_copyfile src dst fs = (Ok tt, fs') → Fs.file_at src fs = Some bytes →
  src ≠ dst ∧ Fs.file_at dst fs' = Some bytes.
Proof.
  unfold shutil_copyfile, modify, Fs.file_at. intros Hcopy Hsrc.
  destruct (Fs.resolve src fs) as [[bytes'|es]|]; simplify_eq.
  case_decide as Hsame; [by simplify_eq|]. split; [done|].
  destruct (copy_fault src dst) as [written|].
  - by destruct (Fs.write dst _ fs).
  - destruct (Fs.write dst _ fs) as [fs1|] eqn:Hwrite; simplify_eq.
    by apply file_at_write_eq in Hwrite.
Qed.

Lemma os_remove_other p q fs r fs' :
  os_remove p fs = (r, fs') → q ≠ p → Fs.file_at q fs' = Fs.file_at q fs.
Proof.
  unfold os_remove, modify. intros Hremove Hne.
  destruct (Fs.remove p fs) as [fs1|] eqn:Hrm; simplify_eq; [|done].
  by eapply file_at_remove_ne.
Qed.

Lemma os_path_isfile_true p fs :
  os_path_isfile p fs = (Ok (bool_decide (is_Some (Fs.file_at p fs))), fs).
Proof. unfold os_path_isfile. by destruct (Fs.file_at p fs). Qed.

(** An exception of the loop body comes from the copy or from the
    removal, both of which are tried on a regular file only and leave it
    in place when they fail. *)
Lemma copy_file_raise src dest delete_at_source overwrite file fs e fs' :
  copy_file src dest delete_at_source overwrite file fs = (Raise e, fs') →
  is_Some (Fs.file_at (src ++ [file]) fs) ∧
  Fs.file_at (src ++ [file]) fs' = Fs.file_at (src ++ [file]) fs.
Proof.
  unfold copy_file, mbind, io_bind, mret, io_ret, os_path_exists. cbn beta iota.
  destruct (_ && _)%bool; [done|]. rewrite os_path_isfile_true. intros Hrun.
  case_bool_decide as Hfile; [|done]. split; [done|].
  destruct (shutil_copyfile _ _ fs) as [[[]|e1] fs1] eqn:Hcopy.
  - apply shutil_copyfile_source in Hcopy as <-.
    destruct delete_at_source; [|done].
    unfold os_remove, modify in Hrun. by destruct (Fs.remove _ fs1); simplify_eq.
  - simplify_eq. by apply shutil_copyfile_source in Hcopy.
Qed.

(** C9: for every file that [copy_files] processes,
    (1) if the destination file exists and [overwrite] is not set, the file
        is skipped: nothing changes, source and destination included;
    (2) if processing it raises (the copy broke, at the start or partway),
        the source file is still there afterwards, with its bytes;
    (3) if the source file is gone afterwards, which only move semantics
        does, then no exception was raised and the destination holds all the
        bytes the source had: the source is deleted only after the copy
        completed;
    (4) if [copy_files] as a whole raises, it stopped at one of its files,
        whose source still exists. *)
Theorem copy_files_careful src files dest delete_at_source overwrite :
  (∀ file fs,
     present (dest ++ [file]) fs → overwrite = false →
     copy_file src dest delete_at_source overwrite file fs = (Ok tt, fs)) ∧
  (∀ file fs e fs',
     copy_file src dest delete_at_source overwrite file fs = (Raise e, fs') →
     is_Some (Fs.file_at (src ++ [file]) fs') ∧
     Fs.file_at (src ++ [file]) fs' = Fs.file_at (src ++ [file]) fs) ∧
  (∀ file fs r fs' bytes,
     copy_file src dest delete_at_source overwrite file fs = (r, fs') →
     Fs.file_at (src ++ [file]) fs = Some bytes →
     Fs.file_at (src ++ [file]) fs' = None →
     delete_at_source = true ∧ r = Ok tt ∧ Fs.file_at (dest ++ [file]) fs' = Some bytes) ∧
  (∀ fs e fs',
     copy_files src files dest delete_at_source overwrite fs = (Raise e, fs') →
     ∃ file, file ∈ files ∧ is_Some (Fs.file_at (src ++ [file]) fs')).
Proof.
  split_and!.
  - intros file fs [n Hn] ->.
    unfold copy_file, os_path_exists, mbind, io_bind. by rewrite Hn.
  - intros file fs e fs' Hrun.
    destruct (copy_file_raise _ _ _ _ _ _ _ _ Hrun) as [Hfile Hsame].
    by rewrite Hsame.
  - intros file fs r fs' bytes Hrun Hsrc Hgone. revert Hrun.
    unfold copy_file, mbind, io_bind, mret, io_ret, os_path_exists. cbn beta iota.
    destruct (_ && _)%bool; [intros ?; simplify_eq; congruence|].
    rewrite os_path_isfile_true, Hsrc, bool_decide_eq_true_2 by done. intros Hrun.
    destruct (shutil_copyfile _ _ fs) as [[[]|e1] fs1] eqn:Hcopy.
    + destruct (shutil_copyfile_done _ _ _ _ _ Hcopy Hsrc) as [Hne Hdest].
      apply shutil_copyfile_source in Hcopy.
      destruct delete_at_source; [|simplify_eq; congruence].
      split; [done|].
      pose proof (os_remove_other _ (dest ++ [file]) _ _ _ Hrun) as Hkeep.
      rewrite Hkeep, Hdest by done.
      unfold os_remove, modify in Hrun.
      destruct (Fs.remove _ fs1); simplify_eq; [done|congruence].
    + apply shutil_copyfile_source in Hcopy. simplify_eq. congruence.
  - intros fs e fs' Hrun. unfold copy_files, mbind, io_bind, try_pass in Hrun.
    apply for_each_raise in Hrun as (l1 & file & l2 & fs1 & -> & _ & Hbody).
    exists file. split; [set_solver|].
    destruct (copy_file_raise _ _ _ _ _ _ _ _ Hbody) as [Hfile Hsame].
    by rewrite Hsame.
Qed.

End Copy.

(** The image that the destination holds already is skipped. *)
Lemma copy_files_careful_witness :
  copy_file (C := Demo.collaborators None) ["in"] ["out"] true false "a.hif-1.jpg"
    Ex.half_exported = (Ok tt, Ex.half_exported).
Proof.
  apply (proj1 (copy_files_careful (C := Demo.collaborators None)
                  ["in"] ["a.hif-1.jpg"] ["out"] true false)).
  - eexists. reflexivity.
  - reflexivity.
Defined.

(** * [split_exported_sd3_hif] *)

Lemma demo_shuffle_permutes broken : ShufflePermutes (Demo.collaborators broken).
Proof. intros seed l. apply reverse_Permutation. Qed.

Section Split.

Context {C : Collaborators}.

(** What the code makes of the shuffled listing: the two halves are cut
    from a prefix of it, and the files to delete are cut from the end of
    that same prefix. *)
Lemma split_lists_inv listing portion discard first_half second_half files2del :
  split_lists listing portion discard = Ok (first_half, second_half, files2del) →
  ∃ keep from : Z,
    first_half ++ second_half = Py.upto keep (shuffle 50 (shuffle 47 listing)) ∧
    files2del = Py.from from (first_half ++ second_half).
Proof.
  unfold split_lists, mbind, result_bind. intros Hsplit.
  destruct (assert _); [|done].
  destruct (discard <? 1)%float.
  - destruct (Py.int_of_float _) as [keep|]; [|done].
    destruct (Py.int_of_float _) as [from|]; [|done].
    destruct (Py.int_of_float _) as [half|]; [|done]. simplify_eq.
    exists keep, from. by rewrite upto_from.
  - destruct (Py.int_of_float _) as [keep|]; [|done].
    destruct (Py.int_of_float _) as [half|]; [|done]. simplify_eq.
    exists keep, keep. by rewrite upto_from.
Qed.

(** Hence every file that the code marks for deletion is one of the files
    it keeps, and none of the files it drops. *)
Lemma split_lists_files2del_kept listing portion discard first_half second_half files2del :
  split_lists listing portion discard = Ok (first_half, second_half, files2del) →
  files2del ⊆ first_half ++ second_half.
Proof.
  intros Hsplit. apply split_lists_inv in Hsplit as (keep & from & _ & ->).
  apply subseteq_drop.
Qed.

(** C1 at the failing input: four files, [portion = 0.5], [discard = 0.5].
    Whatever order [a; b; c; d] the two shuffles leave the files in, two
    are kept, [a] for training and [b] for testing, and the list of files to
    delete is [[b]], the test file, where the claim has [[c; d]]. *)
Theorem split_lists_deletes_kept `{!ShufflePermutes C} :
  ∃ a b c d,
    shuffle 50 (shuffle 47 ["a.jpg"; "b.jpg"; "c.jpg"; "d.jpg"]) = [a; b; c; d] ∧
    split_lists ["a.jpg"; "b.jpg"; "c.jpg"; "d.jpg"] 0.5 0.5 = Ok ([a], [b], [b]).
Proof.
  assert (length (shuffle 50 (shuffle 47 ["a.jpg"; "b.jpg"; "c.jpg"; "d.jpg"])) = 4%nat)
    as Hlen by by rewrite !shuffle_perm.
  unfold split_lists. cbv zeta.
  destruct (shuffle 50 _) as [|a [|b [|c [|d [|]]]]]; try done.
  exists a, b, c, d. split; [done|]. vm_compute. reflexivity.
Qed.

(** Without an exception, the three lists hold files of the listing only. *)
Lemma split_lists_from_listing `{!ShufflePermutes C}
    listing portion discard first_half second_half files2del :
  split_lists listing portion discard = Ok (first_half, second_half, files2del) →
  first_half ++ second_half ++ files2del ⊆ listing.
Proof.
  intros Hsplit.
  pose proof (split_lists_files2del_kept _ _ _ _ _ _ Hsplit) as Hdel.
  apply split_lists_inv in Hsplit as (keep & from & Hkept & _).
  assert (first_half ++ second_half ⊆ listing) as Hsub.
  { rewrite Hkept. intros file Hin. apply (subseteq_take _ _ _) in Hin.
    by rewrite !shuffle_perm in Hin. }
  intros file. rewrite !elem_of_app. intros [?|[?|?]]; apply Hsub; set_solver.
Qed.

(** [discard <= 0] makes the condition of the assertion, [discard > 0],
    false. *)
Lemma leb_zero_not_above (x : float) :
  (x <=? 0)%float = true → (0 <? x)%float = false.
Proof.
  rewrite FloatAxioms.leb_spec, FloatAxioms.ltb_spec. unfold SFleb, SFltb.
  change (Prim2SF 0) with (S754_zero false).
  destruct (Prim2SF x) as [[]|[]| |[] m e]; simpl; congruence.
Qed.

(** When the assertion does not hold (also for a NaN), the call has listed
    the directory and done nothing else. *)
Lemma split_fails_unless_positive src portion discard fs :
  (0 <? discard)%float = false →
  split_exported_sd3_hif src portion discard fs =
  (match Fs.resolve src fs with
   | Ok (Dir _) => Raise AssertionError
   | Ok (File _) => Raise NotADirectoryError
   | Raise e => Raise e
   end, fs).
Proof.
  intros Hdiscard. unfold split_exported_sd3_hif, os_listdir, mbind at 1, io_bind at 1.
  destruct (Fs.resolve src fs) as [[bytes|es]|e]; [done| |done].
  unfold mbind at 1, io_bind, lift, split_lists. by rewrite Hdiscard.
Qed.

(** C6 (amended): with [discard <= 0], 0 in particular, the call lists the
    source directory and then fails: with the error of the listing if the
    directory cannot be listed, with the assertion error otherwise.  Either
    way nothing has been created, moved or deleted: the file system is as it
    was. *)
Theorem split_rejects_discard src portion discard fs :
  (discard <=? 0)%float = true →
  split_exported_sd3_hif src portion discard fs =
  (match Fs.resolve src fs with
   | Ok (Dir _) => Raise AssertionError
   | Ok (File _) => Raise NotADirectoryError
   | Raise e => Raise e
   end, fs).
Proof.
  intros Hdiscard. apply split_fails_unless_positive.
  by apply leb_zero_not_above.
Qed.

(** [int] of a float above 0 is not negative. *)
Lemma int_of_float_above_zero (x : float) (k : Z) :
  (0 <? x)%float = true → Py.int_of_float x = Ok k → 0 ≤ k.
Proof.
  rewrite FloatAxioms.ltb_spec. unfold SFltb, Py.int_of_float.
  change (Prim2SF 0) with (S754_zero false).
  destruct (Prim2SF x) as [[]|[]| |[] m e]; simpl; try congruence.
  intros _ [= <-]. case_match.
  - apply Z.mul_nonneg_nonneg; [lia|]. apply Z.pow_nonneg. lia.
  - apply Z.div_pos; [lia|]. apply Z.pow_pos_nonneg; lia.
Qed.

(** With a [discard] of 1 or more, a count, nothing at all is marked for
    deletion: the list is cut from the kept files at their very end. *)
Lemma split_lists_count_deletes_nothing listing portion discard first_half second_half files2del :
  (discard <? 1)%float = false →
  split_lists listing portion discard = Ok (first_half, second_half, files2del) →
  files2del = [].
Proof.
  unfold split_lists, assert, mbind, result_bind. intros Hcount Hsplit.
  rewrite Hcount in Hsplit.
  destruct (0 <? discard)%float eqn:Habove; [|done].
  destruct (Py.int_of_float discard) as [keep|] eqn:Hkeep; [|done].
  pose proof (int_of_float_above_zero _ _ Habove Hkeep) as Hnonneg.
  destruct (Py.int_of_float (_ * portion)) as [half|]; simplify_eq.
  unfold Py.from, Py.upto. apply drop_ge. rewrite length_take.
  unfold Py.slice_index. repeat case_match; lia.
Qed.

End Split.

Lemma split_lists_deletes_kept_witness :
  ∃ a b c d,
    shuffle (Collaborators := Demo.collaborators None) 50
      (shuffle (Collaborators := Demo.collaborators None) 47
         ["a.jpg"; "b.jpg"; "c.jpg"; "d.jpg"]) = [a; b; c; d] ∧
    split_lists (C := Demo.collaborators None)
      ["a.jpg"; "b.jpg"; "c.jpg"; "d.jpg"] 0.5 0.5 = Ok ([a], [b], [b]).
Proof.
  apply (split_lists_deletes_kept (C := Demo.collaborators None)
           (ShufflePermutes0 := demo_shuffle_permutes None)).
Defined.

(** C6, as stated, is false: with [discard = 0] and no source directory,
    the call fails on listing the directory, before the precondition is
    looked at. *)
Lemma split_lists_the_directory_first :
  ¬ rejected_before_io (C := Demo.collaborators None) ["exported"] 0.5 0.
Proof. intros Hrejected. specialize (Hrejected (Dir [])). vm_compute in Hrejected. discriminate. Qed.

Lemma split_rejects_discard_witness :
  split_exported_sd3_hif (C := Demo.collaborators None) ["in"] 0.5 0 Ex.half_exported
  = (Raise AssertionError, Ex.half_exported).
Proof.
  apply (split_rejects_discard (C := Demo.collaborators None) ["in"] 0.5 0 Ex.half_exported).
  reflexivity.
Defined.

(** * [copy_sixray_easy]: the binary labels *)


Lemma open_read_file p fs s :
  Fs.file_at p fs = Some s → open_read p fs = (Ok s, fs).
Proof.
  unfold Fs.file_at, open_read. intros Hfile.
  destruct (Fs.resolve p fs) as [[s'|es]|]; by simplify_eq.
Qed.




(** * [classify_files]: the buckets per class *)

Section Buckets.

Implicit Types (d : buckets) (cls : option string) (file : path).

Lemma bucket_append_lookup cls file d cls' :
  bucket_append cls file d !!! cls' =
  d !!! cls' ++ (if decide (cls' = cls) then [file] else []).
Proof.
  unfold bucket_append. case_decide as Hcls.
  - subst. by rewrite lookup_total_insert_eq.
  - by rewrite lookup_total_insert_ne, app_nil_r.
Qed.

(** A pass over distinct class names appends the file, once, where the
    class is among them and is selected. *)
Lemma append_where_lookup (select : option string → bool) file l d cls :
  NoDup l →
  foldl (λ d c, if select c then bucket_append c file d else d) d l !!! cls =
  d !!! cls ++ (if decide (cls ∈ l ∧ select cls = true) then [file] else []).
Proof.
  intros Hnodup. revert d. induction Hnodup as [|c l Hc Hl IH]; intros d; cbn [foldl].
  - rewrite decide_False, app_nil_r; [done|]. intros [Hin _]. by apply elem_of_nil in Hin.
  - rewrite IH. destruct (decide (cls ∈ l ∧ select cls = true)) as [[Hin Hsel]|Hno].
    + assert (cls ≠ c) as Hne by (by intros ->).
      rewrite decide_True by (split; [by apply elem_of_cons; right|done]).
      destruct (select c); [|done].
      by rewrite bucket_append_lookup, decide_False, app_nil_r.
    + rewrite app_nil_r. destruct (decide (cls = c)) as [->|Hne].
      * destruct (select c) eqn:Hsel.
        -- rewrite bucket_append_lookup, !decide_True; [done| |done].
           split; [by apply elem_of_cons; left|done].
        -- rewrite decide_False, app_nil_r; [done|]. by intros [_ ?].
      * assert (¬ (cls ∈ c :: l ∧ select cls = true)) as Hno'.
        { intros [Hin Hsel]. apply elem_of_cons in Hin as [?|Hin]; [done|].
          by apply Hno. }
        rewrite (decide_False (P := cls ∈ c :: l ∧ _)), app_nil_r by done.
        destruct (select c); [|done].
        by rewrite bucket_append_lookup, decide_False, app_nil_r.
Qed.

Lemma flagged_existsb anomaly_classes (classes : list (option string)) :
  existsb (λ x, bool_decide (Some x ∈ classes)) anomaly_classes = true ↔
  flagged anomaly_classes classes.
Proof.
  unfold flagged. induction anomaly_classes as [|x l IH]; simpl.
  - split; [done|]. by intros ?%Exists_nil.
  - rewrite orb_true_iff, Exists_cons, IH, bool_decide_eq_true. done.
Qed.

Lemma anomaly_class_flags anomaly_classes (classes : list (option string)) cls :
  cls ∈ classes → cls ∈ Some <$> anomaly_classes → flagged anomaly_classes classes.
Proof.
  intros Hcls (x & -> & Hx)%list_elem_of_fmap.
  apply Exists_exists. by exists x.
Qed.

(** What one file adds to the buckets. *)
Lemma classify_file_lookup anomaly_classes file info normal abnormal cls :
  let classes := unique (obj_name <$> objects info) in
  let found := classify_file anomaly_classes file info (normal, abnormal) in
  found.1 !!! cls =
    normal !!! cls ++
    (if decide (cls ∈ classes ∧ ¬ flagged anomaly_classes classes) then [file] else []) ∧
  found.2 !!! cls =
    abnormal !!! cls ++
    (if decide (cls ∈ classes ∧ cls ∈ Some <$> anomaly_classes) then [file] else []).
Proof.
  intros classes. unfold classify_file. fold classes.
  assert (NoDup classes) as Hnodup by apply NoDup_remove_dups.
  destruct (existsb _ anomaly_classes) eqn:Hany; simpl.
  - apply flagged_existsb in Hany. split.
    + rewrite decide_False, app_nil_r; [done|]. by intros [_ ?].
    + rewrite (append_where_lookup (λ c, bool_decide (c ∈ Some <$> anomaly_classes)))
        by done.
      destruct (decide (cls ∈ classes ∧ cls ∈ Some <$> anomaly_classes)) as [[??]|Hno].
      * by rewrite decide_True by (by rewrite bool_decide_eq_true).
      * rewrite decide_False; [done|]. by rewrite bool_decide_eq_true.
  - assert (¬ flagged anomaly_classes classes) as Hnot.
    { intros Hflag%flagged_existsb. congruence. }
    split.
    + change (foldl _ normal classes) with
        (foldl (λ d c, if (λ _, true) c then bucket_append c file d else d) normal classes).
      rewrite append_where_lookup by done.
      destruct (decide (cls ∈ classes ∧ ¬ flagged anomaly_classes classes)) as [[??]|Hno].
      * by rewrite decide_True.
      * rewrite decide_False; [done|]. intros [??]. by apply Hno.
    + rewrite decide_False, app_nil_r; [done|].
      intros [??]. by eapply Hnot, anomaly_class_flags.
Qed.

Lemma parse_voc_xml_state xml_path fs :
  parse_voc_xml xml_path fs = ((parse_voc_xml xml_path fs).1, fs).
Proof.
  unfold parse_voc_xml, open_read, mbind, io_bind, lift.
  by destruct (Fs.resolve xml_path fs) as [[s|es]|].
Qed.

(** The loop: every bucket grows by the files that belong in it, in the
    order of the list, and the file system is only read. *)
Lemma classify_from_lookup xml_dir anomaly_classes files fs normal abnormal :
  (∀ file, file ∈ files → is_Some (annotated_classes xml_dir file fs)) →
  ∃ normal' abnormal',
    classify_from xml_dir anomaly_classes files (normal, abnormal) fs
      = (Ok (normal', abnormal'), fs) ∧
    ∀ cls,
      normal' !!! cls =
        normal !!! cls ++ filter (files_normal xml_dir anomaly_classes fs cls) files ∧
      abnormal' !!! cls =
        abnormal !!! cls ++ filter (files_abnormal xml_dir anomaly_classes fs cls) files.
Proof.
  revert normal abnormal.
  induction files as [|file files IH]; intros normal abnormal Hparse.
  - exists normal, abnormal. split; [done|]. intros cls. by rewrite !app_nil_r.
  - destruct (Hparse file) as [classes Hclasses]; [by apply elem_of_cons; left|].
    pose proof Hclasses as Hinfo. unfold annotated_classes in Hinfo.
    destruct (parse_voc_xml (xml_of xml_dir file) fs).1 as [info|] eqn:Hread; [|done].
    simplify_eq.
    destruct (classify_file anomaly_classes file info (normal, abnormal))
      as [normal1 abnormal1] eqn:Hstep.
    destruct (IH normal1 abnormal1) as (normal' & abnormal' & Hrun & Hlookup).
    { intros file' Hin. apply Hparse, elem_of_cons. by right. }
    exists normal', abnormal'. split.
    + cbn [classify_from]. unfold mbind, io_bind.
      by rewrite parse_voc_xml_state, Hread, Hstep.
    + intros cls. destruct (Hlookup cls) as [-> ->].
      pose proof (classify_file_lookup anomaly_classes file info normal abnormal cls)
        as [Hn Ha]. rewrite Hstep in Hn, Ha. simpl in Hn, Ha.
      rewrite Hn, Ha, !filter_cons. split.
      * destruct (decide (cls ∈ _ ∧ ¬ flagged _ _)) as [[??]|Hno].
        -- rewrite (decide_True (P := files_normal _ _ _ _ _)), <- app_assoc; [reflexivity|].
           by eexists.
        -- rewrite (decide_False (P := files_normal _ _ _ _ _)), app_nil_r; [reflexivity|].
           intros (classes' & ? & ? & ?). simplify_eq. by apply Hno.
      * destruct (decide (cls ∈ _ ∧ cls ∈ Some <$> anomaly_classes)) as [[??]|Hno].
        -- rewrite (decide_True (P := files_abnormal _ _ _ _ _)), <- app_assoc; [reflexivity|].
           by eexists.
        -- rewrite (decide_False (P := files_abnormal _ _ _ _ _)), app_nil_r; [reflexivity|].
           intros (classes' & ? & ? & ?). simplify_eq. by apply Hno.
Qed.

Lemma classify_files_lookup xml_dir anomaly_classes files fs :
  (∀ file, file ∈ files → is_Some (annotated_classes xml_dir file fs)) →
  ∃ normal abnormal,
    classify_files xml_dir files anomaly_classes fs = (Ok (normal, abnormal), fs) ∧
    ∀ cls,
      normal !!! cls = filter (files_normal xml_dir anomaly_classes fs cls) files ∧
      abnormal !!! cls = filter (files_abnormal xml_dir anomaly_classes fs cls) files.
Proof.
  intros Hparse.
  destruct (classify_from_lookup xml_dir anomaly_classes files fs ∅ ∅ Hparse)
    as (normal & abnormal & Hrun & Hlookup).
  exists normal, abnormal. split; [done|]. intros cls.
  destruct (Hlookup cls) as [-> ->]. by rewrite !lookup_total_empty.
Qed.

End Buckets.



Lemma images_parse file :
  file ∈ Ex.images → is_Some (annotated_classes ["Annotations"] file Ex.sixray).
Proof.
  intros Hin. unfold Ex.images in Hin.
  repeat (apply elem_of_cons in Hin as [->|Hin]; [eexists; vm_compute; reflexivity|]).
  by apply elem_of_nil in Hin.
Qed.

(** The image with a gun and a knife, under the anomaly class [gun], is in
    the abnormal bucket [gun] and nowhere else; the image without objects is
    nowhere.  The four lists are the abnormal buckets [gun] and [knife] and
    the normal buckets [gun] and [knife]. *)
Example classify_gun_knife :
  (found ← (classify_files ["Annotations"] Ex.images ["gun"] Ex.sixray).1;
   Ok (found.2 !!! Some "gun", found.2 !!! Some "knife",
       found.1 !!! Some "gun", found.1 !!! Some "knife"))
  = Ok ([["JPEGImages"; "P1.jpg"]], [],
        [], [["JPEGImages"; "P2.jpg"]; ["JPEGImages"; "gun_4.jpg"]]).
Proof. vm_compute. reflexivity. Qed.



(** * [generate_mask_from_bbox] *)












(** * More on the file system *)

Section FileSystemMore.

Implicit Types (es : entries) (n fs : node) (p q dir : path) (name k : string).

Lemma split_snoc dir name : Fs.split (dir ++ [name]) = Some (dir, name).
Proof. unfold Fs.split. by rewrite reverse_snoc, reverse_involutive. Qed.

Lemma snoc_ne dir dir' name name' : name ≠ name' → dir ++ [name] ≠ dir' ++ [name'].
Proof. intros Hne Heq. by apply app_inj_tail in Heq as [_ ?]. Qed.

(** A new directory is empty: no file appears or disappears. *)
Lemma file_at_mkdir p fs fs' q :
  Fs.mkdir p fs = Ok fs' → Fs.file_at q fs' = Fs.file_at q fs.
Proof.
  unfold Fs.mkdir. intros Hmkdir.
  destruct (Fs.split p) as [[dir name]|] eqn:Hsplit; [|done].
  apply (file_at_with_dir _ _ _ _ _ Hmkdir).
  intros es es' q' -> Hf.
  destruct (Fs.lookup_entry name es) as [|] eqn:Hname; simplify_eq.
  destruct q' as [|k q']; [done|]. rewrite !file_at_cons, lookup_set_entry.
  case_decide as Hk; [|done]. subst k. rewrite Hname. simpl.
  by destruct q'.
Qed.

Lemma file_at_remove_eq p fs fs' :
  Fs.remove p fs = Ok fs' → Fs.file_at p fs' = None.
Proof.
  unfold Fs.remove. intros Hremove.
  destruct (Fs.split p) as [[dir name]|] eqn:Hsplit; [|done].
  apply split_Some in Hsplit as ->.
  destruct (file_at_with_dir_in _ _ _ _ [name] Hremove) as (es & es' & Hf & ->).
  destruct (Fs.lookup_entry name es) as [[c|]|]; simplify_eq.
  rewrite file_at_cons, lookup_del_entry. by rewrite decide_True.
Qed.

(** A directory that is there can have its entries rewritten. *)
Lemma with_dir_resolve dir f fs es es' :
  Fs.resolve dir fs = Ok (Dir es) → f es = Ok es' →
  ∃ fs', Fs.with_dir dir f fs = Ok fs'.
Proof.
  revert fs. induction dir as [|c dir IH]; intros fs Hdir Hf; simpl in *.
  - simplify_eq. rewrite Hf. by eexists.
  - destruct fs as [|es0]; [done|].
    destruct (Fs.lookup_entry c es0) as [child|]; [|done].
    destruct (IH child Hdir Hf) as [child' ->]. by eexists.
Qed.

Lemma resolve_snoc dir name fs :
  Fs.resolve (dir ++ [name]) fs =
  match Fs.resolve dir fs with
  | Ok (Dir es) =>
      match Fs.lookup_entry name es with
      | Some n => Ok n
      | None => Raise FileNotFoundError
      end
  | Ok (File _) => Raise NotADirectoryError
  | Raise e => Raise e
  end.
Proof.
  revert fs. induction dir as [|c dir IH]; intros fs; simpl.
  - destruct fs as [|es]; [done|]. by destruct (Fs.lookup_entry name es).
  - destruct fs as [|es]; [done|]. destruct (Fs.lookup_entry c es); [|done]. apply IH.
Qed.

(** Writing into a directory that is there, at a name that is free,
    succeeds. *)
Lemma write_free dir name bytes fs es :
  Fs.resolve dir fs = Ok (Dir es) → Fs.lookup_entry name es = None →
  ∃ fs', Fs.write (dir ++ [name]) bytes fs = Ok fs'.
Proof.
  intros Hdir Hfree. unfold Fs.write. rewrite split_snoc.
  eapply with_dir_resolve; [done|]. by rewrite Hfree.
Qed.

(** A write removes nothing: every file is still a file afterwards. *)
Lemma write_keeps_files p bytes fs fs' q :
  Fs.write p bytes fs = Ok fs' → is_Some (Fs.file_at q fs) → is_Some (Fs.file_at q fs').
Proof.
  intros Hwrite Hq. destruct (decide (q = p)) as [->|Hne].
  - rewrite (file_at_write_eq _ _ _ _ Hwrite). by eexists.
  - by rewrite (file_at_write_ne _ _ _ _ _ Hwrite Hne).
Qed.

Lemma file_at_present p fs : is_Some (Fs.file_at p fs) → present p fs.
Proof.
  unfold Fs.file_at, present. intros [c Hc].
  destruct (Fs.resolve p fs) as [n|]; [by exists n|done].
Qed.

End FileSystemMore.

(** * More on loops *)

(** What every round of a loop keeps, the loop keeps, however it ends. *)
Lemma for_each_keeps {A} (R : node → node → Prop) (body : A → IO unit) l :
  (∀ fs, R fs fs) → (∀ fs1 fs2 fs3, R fs1 fs2 → R fs2 fs3 → R fs1 fs3) →
  (∀ a fs r fs', a ∈ l → body a fs = (r, fs') → R fs fs') →
  ∀ fs r fs', for_each l body fs = (r, fs') → R fs fs'.
Proof.
  intros Hrefl Htrans. induction l as [|a l IH]; intros Hbody fs r fs' Hrun.
  - simpl in Hrun. unfold mret, io_ret in Hrun. by simplify_eq.
  - simpl in Hrun. unfold mbind, io_bind in Hrun.
    destruct (body a fs) as [[[]|e] fs1] eqn:Ha.
    + apply (Htrans fs fs1 fs').
      * eapply Hbody; [by apply elem_of_cons; left|done].
      * eapply IH; [|done]. intros a' ?????. eapply Hbody; [|done].
        by apply elem_of_cons; right.
    + simplify_eq. eapply Hbody; [by apply elem_of_cons; left|done].
Qed.

Lemma makedirs_from_file_at head rest fs q :
  Fs.file_at q (makedirs_from head rest fs).2 = Fs.file_at q fs.
Proof.
  assert (∀ p fs, Fs.file_at q (os_mkdir p fs).2 = Fs.file_at q fs) as Hmkdir.
  { intros p fs0. unfold os_mkdir, modify.
    destruct (Fs.mkdir p fs0) as [fs1|] eqn:Hp; [|done]. simpl.
    by eapply file_at_mkdir. }
  revert head fs. induction rest as [|name rest IH]; intros head fs; [apply Hmkdir|].
  destruct rest as [|name' rest]; [apply Hmkdir|].
  cbn [makedirs_from]. unfold mbind, io_bind, os_path_exists. cbn beta iota.
  destruct (Fs.resolve (head ++ [name]) fs) eqn:Hthere; cbn beta iota.
  - apply IH.
  - specialize (Hmkdir (head ++ [name]) fs).
    destruct (os_mkdir (head ++ [name]) fs) as [[[]|e1] fs1]; simpl in *.
    + by rewrite IH.
    + done.
Qed.

Lemma try_makedirs_file_at dest fs q :
  Fs.file_at q (try_pass (os_makedirs dest) fs).2 = Fs.file_at q fs.
Proof. unfold try_pass, os_makedirs. simpl. apply makedirs_from_file_at. Qed.

(** * What is present after a change *)

Section Presence.

Implicit Types (es : entries) (n fs : node) (p q dir : path) (name k : string).

Lemma present_nil n : present [] n.
Proof. by exists n. Qed.

Lemma present_cons k q es :
  present (k :: q) (Dir es) ↔ ∃ child, Fs.lookup_entry k es = Some child ∧ present q child.
Proof.
  unfold present. simpl. destruct (Fs.lookup_entry k es) as [child|].
  - split.
    + intros [n Hn]. exists child. split; [done|]. by exists n.
    + intros (child' & Hchild & [n Hn]). simplify_eq. by exists n.
  - split.
    + by intros [n ?].
    + by intros (child' & ? & ?).
Qed.

Lemma present_below_file k q c : ¬ present (k :: q) (File c).
Proof. by intros [n ?]. Qed.

(** Only what lies in or below the rewritten directory can come or go. *)
Lemma present_with_dir dir f n n' q :
  Fs.with_dir dir f n = Ok n' →
  (∀ es es' q', q = dir ++ q' → f es = Ok es' →
     present q' (Dir es') ↔ present q' (Dir es)) →
  present q n' ↔ present q n.
Proof.
  revert n n' q. induction dir as [|c dir IH]; intros n n' q Hwith Hin.
  - destruct n as [|es]; [done|]. simpl in Hwith.
    destruct (f es) as [es'|] eqn:Hf; simplify_eq/=. by apply Hin.
  - destruct n as [|es]; [done|]. simpl in Hwith.
    destruct (Fs.lookup_entry c es) as [child|] eqn:Hc; [|done].
    destruct (Fs.with_dir dir f child) as [child'|] eqn:Hrec; simplify_eq/=.
    destruct q as [|k q]; [split; intros _; apply present_nil|].
    rewrite !present_cons. setoid_rewrite lookup_set_entry.
    destruct (decide (k = c)) as [->|Hk]; [|done].
    rewrite Hc. split.
    + intros (? & [= <-] & Hq). exists child. split; [done|].
      apply (IH child child' q Hrec); [|done]. intros es0 es0' q' -> Hf. by apply Hin.
    + intros (? & [= <-] & Hq). exists child'. split; [done|].
      apply (IH child child' q Hrec); [|done]. intros es0 es0' q' -> Hf. by apply Hin.
Qed.

Lemma present_write_ne p c fs fs' q :
  Fs.write p c fs = Ok fs' → q ≠ p → present q fs' ↔ present q fs.
Proof.
  unfold Fs.write. intros Hwrite Hne.
  destruct (Fs.split p) as [[dir name]|] eqn:Hsplit; [|done].
  apply split_Some in Hsplit as ->.
  apply (present_with_dir _ _ _ _ _ Hwrite).
  intros es es' q' -> Hf.
  destruct q' as [|k q']; [split; intros _; apply present_nil|].
  assert (es' = Fs.set_entry name (File c) es ∧
          ∀ es0, Fs.lookup_entry name es ≠ Some (Dir es0)) as [-> Hfile].
  { destruct (Fs.lookup_entry name es) as [[|]|]; by simplify_eq. }
  rewrite !present_cons. setoid_rewrite lookup_set_entry.
  destruct (decide (k = name)) as [->|Hk]; [|done].
  destruct q' as [|k' q']; [done|]. split.
  - intros (? & [= <-] & Hq). by apply present_below_file in Hq.
  - intros (child & Hchild & Hq). destruct child as [c0|es0].
    + by apply present_below_file in Hq.
    + by destruct (Hfile es0).
Qed.

Lemma present_remove_ne p fs fs' q :
  Fs.remove p fs = Ok fs' → q ≠ p → present q fs' ↔ present q fs.
Proof.
  unfold Fs.remove. intros Hremove Hne.
  destruct (Fs.split p) as [[dir name]|] eqn:Hsplit; [|done].
  apply split_Some in Hsplit as ->.
  apply (present_with_dir _ _ _ _ _ Hremove).
  intros es es' q' -> Hf.
  destruct q' as [|k q']; [split; intros _; apply present_nil|].
  destruct (Fs.lookup_entry name es) as [[c|]|] eqn:Hname; simplify_eq/=.
  rewrite !present_cons. setoid_rewrite lookup_del_entry.
  destruct (decide (k = name)) as [->|Hk]; [|done].
  destruct q' as [|k' q']; [done|]. rewrite Hname. split.
  - by intros (? & ? & ?).
  - intros (? & [= <-] & Hq). by apply present_below_file in Hq.
Qed.

Lemma present_mkdir_ne p fs fs' q :
  Fs.mkdir p fs = Ok fs' → q ≠ p → present q fs' ↔ present q fs.
Proof.
  unfold Fs.mkdir. intros Hmkdir Hne.
  destruct (Fs.split p) as [[dir name]|] eqn:Hsplit; [|done].
  apply split_Some in Hsplit as ->.
  apply (present_with_dir _ _ _ _ _ Hmkdir).
  intros es es' q' -> Hf.
  destruct q' as [|k q']; [split; intros _; apply present_nil|].
  destruct (Fs.lookup_entry name es) as [|] eqn:Hname; simplify_eq/=.
  rewrite !present_cons. setoid_rewrite lookup_set_entry.
  destruct (decide (k = name)) as [->|Hk]; [|done].
  destruct q' as [|k' q']; [done|]. rewrite Hname. split.
  - intros (? & [= <-] & Hq). apply present_cons in Hq as (? & ? & _). done.
  - by intros (? & ? & ?).
Qed.

(** [os.makedirs] makes, at most, the directory and its ancestors. *)
Lemma makedirs_from_present head rest fs q :
  (∀ rest1 rest2, rest = rest1 ++ rest2 → q ≠ head ++ rest1) →
  present q (makedirs_from head rest fs).2 ↔ present q fs.
Proof.
  assert (∀ p fs, q ≠ p → present q (os_mkdir p fs).2 ↔ present q fs) as Hmkdir.
  { intros p fs0 Hne. unfold os_mkdir, modify.
    destruct (Fs.mkdir p fs0) as [fs1|] eqn:Hp; [|done]. simpl.
    by eapply present_mkdir_ne. }
  revert head fs. induction rest as [|name rest IH]; intros head fs Hne.
  { apply Hmkdir. specialize (Hne [] [] eq_refl). by rewrite app_nil_r in Hne. }
  assert (q ≠ head ++ [name]) as Hhere by apply (Hne [name] rest eq_refl).
  destruct rest as [|name' rest]; [by apply Hmkdir|].
  assert (∀ fs1, present q (makedirs_from (head ++ [name]) (name' :: rest) fs1).2
                 ↔ present q fs1) as Hrest.
  { intros fs1. apply IH. intros rest1 rest2 Hrest.
    rewrite <- app_assoc. apply (Hne (name :: rest1) rest2). simpl. by rewrite Hrest. }
  cbn [makedirs_from]. unfold mbind, io_bind, os_path_exists. cbn beta iota.
  destruct (Fs.resolve (head ++ [name]) fs) eqn:Hthere; cbn beta iota.
  - apply Hrest.
  - specialize (Hmkdir (head ++ [name]) fs Hhere).
    destruct (os_mkdir (head ++ [name]) fs) as [[[]|e1] fs1]; simpl in *.
    + by rewrite Hrest.
    + done.
Qed.

Lemma try_makedirs_present dest fs name :
  present (dest ++ [name]) (try_pass (os_makedirs dest) fs).2 ↔ present (dest ++ [name]) fs.
Proof.
  unfold try_pass, os_makedirs. simpl. apply makedirs_from_present.
  intros rest1 rest2 -> Heq. simpl in Heq.
  apply (f_equal length) in Heq. rewrite !length_app in Heq. simpl in Heq. lia.
Qed.

End Presence.

(** * [copy_files], [move_files]: what is copied and what is left alone *)

Section CopyMore.

Context {C : Collaborators}.

Implicit Types (src dest q : path) (file : string) (fs : node).

(** A copy changes its destination only. *)
Lemma shutil_copyfile_other src dst fs r fs' q :
  shutil_copyfile src dst fs = (r, fs') → q ≠ dst →
  Fs.file_at q fs' = Fs.file_at q fs ∧ (present q fs' ↔ present q fs).
Proof.
  unfold shutil_copyfile, modify. intros Hcopy Hne.
  destruct (Fs.resolve src fs) as [[bytes|es]|]; [|repeat case_decide; by simplify_eq..].
  case_decide as Hsame; [by simplify_eq|].
  destruct (copy_fault src dst) as [written|].
  - destruct (Fs.write dst _ fs) as [fs1|] eqn:Hwrite; simplify_eq; [|done].
    split; [by eapply file_at_write_ne|by eapply present_write_ne].
  - destruct (Fs.write dst _ fs) as [fs1|] eqn:Hwrite; simplify_eq; [|done].
    split; [by eapply file_at_write_ne|by eapply present_write_ne].
Qed.

Lemma os_remove_present p q fs r fs' :
  os_remove p fs = (r, fs') → q ≠ p → present q fs' ↔ present q fs.
Proof.
  unfold os_remove, modify. intros Hremove Hne.
  destruct (Fs.remove p fs) as [fs1|] eqn:Hrm; simplify_eq; [|done].
  by eapply present_remove_ne.
Qed.

(** One round of the loop, seen from a path that is neither its source
    nor its destination. *)
Lemma copy_file_other src dest delete_at_source overwrite file fs r fs' q :
  copy_file src dest delete_at_source overwrite file fs = (r, fs') →
  q ≠ dest ++ [file] → (delete_at_source = true → q ≠ src ++ [file]) →
  Fs.file_at q fs' = Fs.file_at q fs ∧ (present q fs' ↔ present q fs).
Proof.
  unfold copy_file, mbind, io_bind, mret, io_ret, os_path_exists. cbn beta iota.
  intros Hrun Hdest Hsrc.
  destruct (_ && _)%bool; [by simplify_eq|].
  rewrite os_path_isfile_true in Hrun. case_bool_decide; [|by simplify_eq].
  destruct (shutil_copyfile _ _ fs) as [[[]|e1] fs1] eqn:Hcopy.
  - destruct (shutil_copyfile_other _ _ _ _ _ q Hcopy Hdest) as [Hfile Hpresent].
    destruct delete_at_source; [|by simplify_eq].
    rewrite <- Hfile, <- Hpresent. split.
    + by eapply os_remove_other; [|apply Hsrc].
    + by eapply os_remove_present; [|apply Hsrc].
  - simplify_eq. by eapply shutil_copyfile_other.
Qed.

Lemma copy_files_other src files dest delete_at_source overwrite fs r fs' q :
  copy_files src files dest delete_at_source overwrite fs = (r, fs') →
  (∀ file, file ∈ files →
     q ≠ dest ++ [file] ∧ (delete_at_source = true → q ≠ src ++ [file])) →
  Fs.file_at q fs' = Fs.file_at q fs.
Proof.
  unfold copy_files, mbind at 1, io_bind at 1. intros Hrun Hq.
  pose proof (try_makedirs_file_at dest fs q) as Hmade.
  destruct (try_pass (os_makedirs dest) fs) as [[[]|e] fs0] eqn:Htry; [|done].
  simpl in Hmade. rewrite <- Hmade.
  refine (for_each_keeps (λ fs1 fs2, Fs.file_at q fs2 = Fs.file_at q fs1)
            (copy_file src dest delete_at_source overwrite) files _ _ _ fs0 r fs' Hrun).
  - done.
  - intros fs1 fs2 fs3 H12 H23. by rewrite H23.
  - intros file fs1 r1 fs2 Hin Hstep. destruct (Hq file Hin) as [Hdest Hsrc].
    by destruct (copy_file_other _ _ _ _ _ _ _ _ q Hstep Hdest Hsrc).
Qed.

(** [copy_files] touches the files it is given, at the destination and,
    when it moves, at the source; every other file keeps its bytes,
    however the call ends. *)
Theorem copy_files_elsewhere src files dest delete_at_source overwrite fs r fs' q :
  copy_files src files dest delete_at_source overwrite fs = (r, fs') →
  (∀ file, file ∈ files →
     q ≠ dest ++ [file] ∧ (delete_at_source = true → q ≠ src ++ [file])) →
  Fs.file_at q fs' = Fs.file_at q fs.
Proof. exact (copy_files_other src files dest delete_at_source overwrite fs r fs' q). Qed.

(** Without [overwrite] and without deletion, a round changes no file
    that exists. *)
Lemma copy_file_keeps_existing src dest file fs r fs' q :
  copy_file src dest false false file fs = (r, fs') →
  is_Some (Fs.file_at q fs) → Fs.file_at q fs' = Fs.file_at q fs.
Proof.
  intros Hrun Hq. destruct (decide (q = dest ++ [file])) as [->|Hne].
  - apply file_at_present in Hq as [n Hn]. revert Hrun.
    unfold copy_file, mbind, io_bind, mret, io_ret, os_path_exists. cbn beta iota.
    rewrite Hn. simpl. by intros [= _ <-].
  - by destruct (copy_file_other _ _ _ _ _ _ _ _ q Hrun Hne).
Qed.

Lemma copy_files_existing src files dest fs r fs' q :
  copy_files src files dest false false fs = (r, fs') →
  is_Some (Fs.file_at q fs) → Fs.file_at q fs' = Fs.file_at q fs.
Proof.
  unfold copy_files, mbind at 1, io_bind at 1. intros Hrun Hq.
  pose proof (try_makedirs_file_at dest fs q) as Hmade.
  destruct (try_pass (os_makedirs dest) fs) as [[[]|e] fs0] eqn:Htry; [|done].
  simpl in Hmade. rewrite <- Hmade in *.
  refine (for_each_keeps
            (λ fs1 fs2, is_Some (Fs.file_at q fs1) → Fs.file_at q fs2 = Fs.file_at q fs1)
            (copy_file src dest false false) files _ _ _ fs0 r fs' Hrun Hq).
  - done.
  - intros fs1 fs2 fs3 H12 H23 H1. rewrite H23, H12; [done..|]. by rewrite H12.
  - intros file fs1 r1 fs2 _ Hstep. by eapply copy_file_keeps_existing.
Qed.

(** Copying without [overwrite] never changes or removes a file that
    exists, however the call ends. *)
Theorem copy_files_keeps_existing src files dest fs r fs' q :
  copy_files src files dest false false fs = (r, fs') →
  is_Some (Fs.file_at q fs) → Fs.file_at q fs' = Fs.file_at q fs.
Proof. exact (copy_files_existing src files dest fs r fs' q). Qed.

(** Copying, as opposed to moving, leaves every file of the source
    directory as it is, also when it overwrites. *)
Theorem copy_files_source_untouched src files dest overwrite fs r fs' name :
  copy_files src files dest false overwrite fs = (r, fs') →
  Fs.file_at (src ++ [name]) fs' = Fs.file_at (src ++ [name]) fs.
Proof.
  unfold copy_files, mbind at 1, io_bind at 1. intros Hrun.
  pose proof (try_makedirs_file_at dest fs (src ++ [name])) as Hmade.
  destruct (try_pass (os_makedirs dest) fs) as [[[]|e] fs0] eqn:Htry; [|done].
  simpl in Hmade. rewrite <- Hmade.
  refine (for_each_keeps
            (λ fs1 fs2, Fs.file_at (src ++ [name]) fs2 = Fs.file_at (src ++ [name]) fs1)
            (copy_file src dest false overwrite) files _ _ _ fs0 r fs' Hrun).
  - done.
  - intros fs1 fs2 fs3 H12 H23. by rewrite H23.
  - intros file fs1 r1 fs2 _ Hstep.
    destruct (decide (src ++ [name] = dest ++ [file])) as [Heq|Hne].
    + apply app_inj_tail in Heq as [-> ->]. revert Hstep.
      unfold copy_file, mbind, io_bind, mret, io_ret, os_path_exists. cbn beta iota.
      destruct (_ && _)%bool; [by intros [= _ <-]|].
      rewrite os_path_isfile_true. case_bool_decide; [|by intros [= _ <-]].
      unfold shutil_copyfile. destruct (Fs.resolve _ fs1); [|by intros [= _ <-]].
      rewrite decide_True by done. by intros [= _ <-].
    + by destruct (copy_file_other _ _ _ _ _ _ _ _ _ Hstep Hne).
Qed.

(** One round on a file that is at the source and has nothing at the
    destination: the bytes arrive, and the source goes if it is a move. *)
Lemma copy_file_delivers src dest delete_at_source file fs fs' bytes :
  copy_file src dest delete_at_source false file fs = (Ok tt, fs') →
  Fs.file_at (src ++ [file]) fs = Some bytes → ¬ present (dest ++ [file]) fs →
  Fs.file_at (dest ++ [file]) fs' = Some bytes ∧
  Fs.file_at (src ++ [file]) fs' = if delete_at_source then None else Some bytes.
Proof.
  unfold copy_file, mbind, io_bind, mret, io_ret, os_path_exists. cbn beta iota.
  intros Hrun Hsrc Hfree.
  destruct (Fs.resolve (dest ++ [file]) fs) as [n|] eqn:Hdest; [destruct Hfree; by exists n|].
  cbn [andb] in Hrun.
  rewrite os_path_isfile_true, Hsrc, bool_decide_eq_true_2 in Hrun by done.
  destruct (shutil_copyfile _ _ fs) as [[[]|e1] fs1] eqn:Hcopy; [|done].
  destruct (shutil_copyfile_done _ _ _ _ _ Hcopy Hsrc) as [Hne Harrived].
  apply shutil_copyfile_source in Hcopy.
  destruct delete_at_source; [|simplify_eq; by rewrite Hcopy].
  pose proof (os_remove_other _ (dest ++ [file]) _ _ _ Hrun) as Hkept.
  unfold os_remove, modify in Hrun.
  destruct (Fs.remove _ fs1) as [fs2|] eqn:Hremove; simplify_eq.
  split; [rewrite Hkept; done|]. by eapply file_at_remove_eq.
Qed.

(** Once the bytes are at the destination, later rounds leave them there
    and leave the source as it then is. *)
Lemma copy_file_settled src dest delete_at_source file a fs r fs' bytes :
  copy_file src dest delete_at_source false a fs = (r, fs') →
  Fs.file_at (dest ++ [file]) fs = Some bytes →
  Fs.file_at (dest ++ [file]) fs' = Some bytes ∧
  Fs.file_at (src ++ [file]) fs' = Fs.file_at (src ++ [file]) fs.
Proof.
  intros Hrun Harrived. destruct (decide (a = file)) as [->|Hne].
  - revert Hrun. unfold copy_file, mbind, io_bind, mret, io_ret, os_path_exists.
    cbn beta iota.
    destruct (file_at_present (dest ++ [file]) fs) as [n ->]; [by eexists|].
    simpl. by intros [= _ <-].
  - destruct (copy_file_other _ _ _ _ _ _ _ _ (dest ++ [file]) Hrun) as [-> _];
      [by apply snoc_ne| |].
    { intros _. intros Heq. by apply app_inj_tail in Heq as [_ ?]. }
    destruct (copy_file_other _ _ _ _ _ _ _ _ (src ++ [file]) Hrun) as [-> _];
      [by apply snoc_ne| |done].
    intros _. by apply snoc_ne.
Qed.

Lemma copy_files_delivered src files dest delete_at_source fs fs' file bytes :
  copy_files src files dest delete_at_source false fs = (Ok tt, fs') →
  file ∈ files →
  Fs.file_at (src ++ [file]) fs = Some bytes → ¬ present (dest ++ [file]) fs →
  Fs.file_at (dest ++ [file]) fs' = Some bytes ∧
  Fs.file_at (src ++ [file]) fs' = if delete_at_source then None else Some bytes.
Proof.
  unfold copy_files, mbind at 1, io_bind at 1. intros Hrun Hin Hsrc Hfree.
  pose proof (try_makedirs_file_at dest fs (src ++ [file])) as Hmade.
  pose proof (try_makedirs_present dest fs file) as Hmade'.
  destruct (try_pass (os_makedirs dest) fs) as [[[]|e] fs0] eqn:Htry; [|done].
  simpl in Hmade, Hmade'. rewrite <- Hmade in Hsrc. rewrite <- Hmade' in Hfree.
  clear Htry Hmade Hmade'. revert fs0 Hrun Hsrc Hfree.
  induction files as [|a files IH]; intros fs0 Hrun Hsrc Hfree.
  { by apply elem_of_nil in Hin. }
  cbn [for_each] in Hrun. unfold mbind, io_bind in Hrun.
  destruct (copy_file src dest delete_at_source false a fs0) as [[[]|e] fs1] eqn:Hstep;
    [|done].
  destruct (decide (a = file)) as [->|Hne].
  - destruct (copy_file_delivers _ _ _ _ _ _ _ Hstep Hsrc Hfree) as [Harrived Hgone].
    rewrite <- Hgone.
    refine (for_each_keeps
              (λ fs2 fs3, Fs.file_at (dest ++ [file]) fs2 = Some bytes →
                 Fs.file_at (dest ++ [file]) fs3 = Some bytes ∧
                 Fs.file_at (src ++ [file]) fs3 = Fs.file_at (src ++ [file]) fs2)
              (copy_file src dest delete_at_source false) files _ _ _ fs1 _ fs' Hrun
              Harrived).
    + done.
    + intros fs2 fs3 fs4 H23 H34 H2. destruct (H23 H2) as [H3 <-]. by apply H34.
    + intros a fs2 r2 fs3 _ Hround Hthere. by eapply copy_file_settled.
  - apply elem_of_cons in Hin as [?|Hin]; [done|].
    apply (IH Hin fs1 Hrun).
    + destruct (copy_file_other _ _ _ _ _ _ _ _ (src ++ [file]) Hstep) as [-> _];
        [by apply snoc_ne| |done].
      intros _. by apply snoc_ne.
    + destruct (copy_file_other _ _ _ _ _ _ _ _ (dest ++ [file]) Hstep) as [_ ->];
        [by apply snoc_ne| |done].
      intros _ Heq. by apply app_inj_tail in Heq as [_ ?].
Qed.

(** [copy_files] without [overwrite], when it returns: every listed file
    that was a regular file at the source and had nothing at the destination
    is at the destination with all its bytes; at the source it is gone when
    the call moves and unchanged when it copies. *)
Theorem copy_files_delivers src files dest delete_at_source fs fs' file bytes :
  copy_files src files dest delete_at_source false fs = (Ok tt, fs') →
  file ∈ files →
  Fs.file_at (src ++ [file]) fs = Some bytes → ¬ present (dest ++ [file]) fs →
  Fs.file_at (dest ++ [file]) fs' = Some bytes ∧
  Fs.file_at (src ++ [file]) fs' = if delete_at_source then None else Some bytes.
Proof. exact (copy_files_delivered src files dest delete_at_source fs fs' file bytes). Qed.

End CopyMore.

Lemma copy_files_elsewhere_witness :
  Fs.file_at ["out"; "a.hif-1.jpg"]
    (copy_files (C := Demo.collaborators None) ["in"] ["a.hif"] ["out"] true true
       Ex.half_exported).2 =
  Fs.file_at ["out"; "a.hif-1.jpg"] Ex.half_exported.
Proof.
  eapply (copy_files_elsewhere (C := Demo.collaborators None) ["in"] ["a.hif"] ["out"] true true
            Ex.half_exported).
  - apply surjective_pairing.
  - intros file ->%list_elem_of_singleton. done.
Defined.

Lemma copy_files_keeps_existing_witness :
  Fs.file_at ["out"; "a.hif-1.jpg"]
    (copy_files (C := Demo.collaborators None) ["out"] ["a.hif-1.jpg"] ["in"] false false
       Ex.half_exported).2 =
  Fs.file_at ["out"; "a.hif-1.jpg"] Ex.half_exported.
Proof.
  eapply (copy_files_keeps_existing (C := Demo.collaborators None) ["out"] ["a.hif-1.jpg"] ["in"]
            Ex.half_exported).
  - apply surjective_pairing.
  - by eexists.
Defined.

Lemma copy_files_source_untouched_witness :
  Fs.file_at (["in"] ++ ["a.hif"])
    (copy_files (C := Demo.collaborators None) ["in"] ["a.hif"] ["out"] false true
       Ex.half_exported).2 =
  Fs.file_at (["in"] ++ ["a.hif"]) Ex.half_exported.
Proof.
  eapply (copy_files_source_untouched (C := Demo.collaborators None) ["in"] ["a.hif"] ["out"] true
            Ex.half_exported).
  apply surjective_pairing.
Defined.

Lemma copy_files_delivers_witness :
  let fs' := (copy_files (C := Demo.collaborators None) ["in"] ["a.hif"] ["out"] true false
                Ex.half_exported).2 in
  Fs.file_at (["out"] ++ ["a.hif"]) fs' = Some "xy" ∧
  Fs.file_at (["in"] ++ ["a.hif"]) fs' = None.
Proof.
  apply (copy_files_delivers (C := Demo.collaborators None) ["in"] ["a.hif"] ["out"] true
           Ex.half_exported _ "a.hif" "xy").
  - reflexivity.
  - by apply list_elem_of_singleton.
  - reflexivity.
  - intros [n Hn]. discriminate Hn.
Defined.

(** * [copy_sd3_dataset] *)

Section CopySd3.

Context {C : Collaborators}.

Lemma lookup_entry_fst name es n : Fs.lookup_entry name es = Some n → name ∈ es.*1.
Proof.
  induction es as [|[k n'] es IH]; [done|]. simpl. case_decide as Hk.
  - intros _. subst. by apply elem_of_cons; left.
  - intros Hn. apply elem_of_cons. right. by apply IH.
Qed.

(** A file of a directory is in its listing. *)
Lemma os_listdir_file dir name fs bytes :
  Fs.file_at (dir ++ [name]) fs = Some bytes →
  ∃ listing, os_listdir dir fs = (Ok listing, fs) ∧ name ∈ listing.
Proof.
  unfold Fs.file_at, os_listdir. rewrite resolve_snoc.
  destruct (Fs.resolve dir fs) as [[c|es]|]; [done| |done].
  destruct (Fs.lookup_entry name es) as [n|] eqn:Hname; [|done]. intros _.
  eexists. split; [done|]. by eapply lookup_entry_fst.
Qed.

(** [copy_files], seen from a path that it neither makes as a directory
    nor copies to nor deletes: what is there stays, what is not does not
    come. *)
Lemma copy_files_elsewhere_present src files dest delete_at_source overwrite fs r fs' q :
  copy_files src files dest delete_at_source overwrite fs = (r, fs') →
  (∀ rest1 rest2, dest = rest1 ++ rest2 → q ≠ rest1) →
  (∀ file, file ∈ files →
     q ≠ dest ++ [file] ∧ (delete_at_source = true → q ≠ src ++ [file])) →
  present q fs' ↔ present q fs.
Proof.
  unfold copy_files, mbind at 1, io_bind at 1. intros Hrun Hprefix Hq.
  assert (present q (try_pass (os_makedirs dest) fs).2 ↔ present q fs) as Hmade.
  { unfold try_pass, os_makedirs. simpl. apply makedirs_from_present.
    intros rest1 rest2 Hdest. simpl. exact (Hprefix rest1 rest2 Hdest). }
  destruct (try_pass (os_makedirs dest) fs) as [[[]|e] fs0] eqn:Htry; [|done].
  simpl in Hmade. rewrite <- Hmade.
  refine (for_each_keeps (λ fs1 fs2, present q fs2 ↔ present q fs1)
            (copy_file src dest delete_at_source overwrite) files _ _ _ fs0 r fs' Hrun).
  - done.
  - intros fs1 fs2 fs3 H12 H23. by rewrite H23.
  - intros file fs1 r1 fs2 Hin Hstep. destruct (Hq file Hin) as [Hdest Hsrc].
    by destruct (copy_file_other _ _ _ _ _ _ _ _ q Hstep Hdest Hsrc).
Qed.

(** [copy_sd3_dataset], when it returns: every regular file of
    [sd3/train] and of [sd3/test] whose name is free in the matching
    [0.normal] directory of the dataset is there with all its bytes. *)
Theorem copy_sd3_dataset_delivers sd3 anomaly fs fs' part name bytes :
  copy_sd3_dataset sd3 anomaly fs = (Ok tt, fs') →
  part ∈ ["train"; "test"] →
  Fs.file_at ((sd3 ++ [part]) ++ [name]) fs = Some bytes →
  ¬ present ((anomaly ++ [part; "0.normal"]) ++ [name]) fs →
  Fs.file_at ((anomaly ++ [part; "0.normal"]) ++ [name]) fs' = Some bytes.
Proof.
  unfold copy_sd3_dataset. cbv zeta. unfold mbind at 1, io_bind at 1.
  intros Hrun Hpart Hsrc Hfree.
  destruct (os_listdir (sd3 ++ ["train"]) fs) as [[listing1|e] fs0] eqn:Hlist1; [|done].
  assert (fs0 = fs) as ->.
  { unfold os_listdir in Hlist1. by repeat case_match; simplify_eq. }
  unfold mbind at 1, io_bind at 1 in Hrun.
  destruct (copy_files (sd3 ++ ["train"]) listing1 _ false false fs)
    as [[[]|e] fs1] eqn:Hcopy1; [|done].
  unfold mbind at 1, io_bind at 1 in Hrun.
  destruct (os_listdir (sd3 ++ ["test"]) fs1) as [[listing2|e] fs2] eqn:Hlist2; [|done].
  assert (fs2 = fs1) as ->.
  { unfold os_listdir in Hlist2. by repeat case_match; simplify_eq. }
  apply elem_of_cons in Hpart as [->|Hpart%list_elem_of_singleton].
  - destruct (os_listdir_file _ _ _ _ Hsrc) as (listing & Hlisting & Hin).
    rewrite Hlist1 in Hlisting. simplify_eq.
    destruct (copy_files_delivered _ _ _ _ _ _ _ _ Hcopy1 Hin Hsrc Hfree) as [Harrived _].
    rewrite <- Harrived. eapply copy_files_existing; [done|].
    rewrite Harrived. by eexists.
  - subst part.
    assert (Fs.file_at ((sd3 ++ ["test"]) ++ [name]) fs1 = Some bytes) as Hsrc1.
    { rewrite <- Hsrc. eapply copy_files_existing; [done|]. rewrite Hsrc. by eexists. }
    assert (¬ present ((anomaly ++ ["test"; "0.normal"]) ++ [name]) fs1) as Hfree1.
    { intros Hthere. apply Hfree.
      apply (copy_files_elsewhere_present _ _ _ _ _ _ _ _ _ Hcopy1); [| |done].
      - intros rest1 rest2 Hdest Heq. apply (f_equal length) in Hdest, Heq.
        rewrite !length_app in *. simpl in *. lia.
      - intros file _. split; [|done]. intros Heq.
        apply app_inj_tail in Heq as [Heq _].
        by apply app_inj_2 in Heq as [_ ?]. }
    destruct (os_listdir_file _ _ _ _ Hsrc1) as (listing & Hlisting & Hin).
    rewrite Hlist2 in Hlisting. simplify_eq.
    by destruct (copy_files_delivered _ _ _ _ _ _ _ _ Hrun Hin Hsrc1 Hfree1).
Qed.

End CopySd3.

Lemma copy_sd3_dataset_delivers_witness :
  Fs.file_at ((["dataset"] ++ ["train"; "0.normal"]) ++ ["a.jpg"])
    (copy_sd3_dataset (C := Demo.collaborators None) ["exported"] ["dataset"] Sample.sd3).2 =
  Some "A".
Proof.
  apply (copy_sd3_dataset_delivers (C := Demo.collaborators None) ["exported"] ["dataset"]
           Sample.sd3 _ "train" "a.jpg" "A").
  - reflexivity.
  - apply elem_of_cons. by left.
  - reflexivity.
  - intros [n Hn]. discriminate Hn.
Defined.

(** * [export]: what it writes, and running it again *)

Section ExportMore.

Context {C : Collaborators}.

Implicit Types (hif_path save_path q : path) (fs : node).

Lemma classic_exported hif_path save_path fs :
  exported_before hif_path save_path fs ∨ ¬ exported_before hif_path save_path fs.
Proof.
  unfold exported_before, present.
  destruct (Fs.resolve (save_path ++ [view_name hif_path 0]) fs) eqn:H1; [by eauto|].
  destruct (Fs.resolve (save_path ++ ["train"; view_name hif_path 0]) fs) eqn:H2;
    [by eauto|].
  destruct (Fs.resolve (save_path ++ ["test"; view_name hif_path 0]) fs) eqn:H3;
    [by eauto|].
  right. by intros [[? ?]|[[? ?]|[? ?]]].
Qed.

Lemma cv2_imwrite_other p img fs r fs' q :
  cv2_imwrite p img fs = (r, fs') → q ≠ p → Fs.file_at q fs' = Fs.file_at q fs.
Proof.
  unfold cv2_imwrite. intros Hwrite Hne. destruct (_ || _); [by simplify_eq|].
  destruct (Fs.write p _ fs) as [fs1|] eqn:Hp; simplify_eq; [|done].
  by eapply file_at_write_ne.
Qed.

Lemma cv2_imwrite_keeps_files p img fs r fs' q :
  cv2_imwrite p img fs = (r, fs') → is_Some (Fs.file_at q fs) → is_Some (Fs.file_at q fs').
Proof.
  unfold cv2_imwrite. intros Hwrite Hq. destruct (_ || _); [by simplify_eq|].
  destruct (Fs.write p _ fs) as [fs1|] eqn:Hp; simplify_eq; [|done].
  by eapply write_keeps_files.
Qed.

(** With the image of view 0 in place, [export] returns at once. *)
Lemma export_first_view_there hif_path save_path fs :
  present (save_path ++ [view_name hif_path 0]) fs →
  export hif_path save_path fs = (Ok 0%nat, fs).
Proof.
  intros [n Hn]. unfold export, os_path_exists, mbind at 1, io_bind at 1.
  by rewrite Hn.
Qed.

(** With nothing exported before, [export] is the loop over the views. *)
Lemma export_fresh hif_path save_path fs :
  ¬ exported_before hif_path save_path fs →
  export hif_path save_path fs =
  match open_read hif_path fs with
  | (Raise e, fs0) => (Raise e, fs0)
  | (Ok bytes, fs0) =>
      match hif_sections bytes with
      | Raise e => (Raise e, fs0)
      | Ok views_matlum =>
          match for_each (zip (seq 0 (length views_matlum)) views_matlum)
                  (export_view hif_path save_path) fs0 with
          | (Raise e, fs1) => (Raise e, fs1)
          | (Ok _, fs1) => (Ok (length views_matlum), fs1)
          end
      end
  end.
Proof.
  intros Hbefore. unfold exported_before, present in Hbefore.
  unfold export, os_path_exists, mbind at 1, io_bind at 1.
  destruct (Fs.resolve (save_path ++ [view_name hif_path 0]) fs) as [n1|e1] eqn:H1;
    [destruct Hbefore; eauto|].
  unfold mbind at 1, io_bind at 1.
  destruct (Fs.resolve (save_path ++ ["train"; view_name hif_path 0]) fs) as [n2|e2] eqn:H2;
    [destruct Hbefore; eauto|].
  unfold mbind at 1, io_bind at 1.
  destruct (Fs.resolve (save_path ++ ["test"; view_name hif_path 0]) fs) as [n3|e3] eqn:H3;
    [destruct Hbefore; eauto|].
  unfold mbind at 1, io_bind at 1.
  destruct (open_read hif_path fs) as [[bytes|e4] fs0]; [|done].
  unfold mbind at 1, io_bind at 1, lift.
  destruct (hif_sections bytes) as [views_matlum|e5]; [|done].
  unfold mbind at 1, io_bind at 1.
  change (λ iv : nat * matlum, _) with (export_view hif_path save_path).
  by destruct (for_each _ _ fs0) as [[[]|e6] fs1].
Qed.

Lemma open_read_state p fs : (open_read p fs).2 = fs.
Proof. unfold open_read. by repeat case_match. Qed.

Lemma export_view_other hif_path save_path iv fs r fs' q :
  export_view hif_path save_path iv fs = (r, fs') →
  q ≠ save_path ++ [view_name hif_path iv.1] →
  Fs.file_at q fs' = Fs.file_at q fs.
Proof.
  destruct iv as [view_idx m]. unfold export_view, mbind, io_bind, lift. simpl.
  destruct (matlum_rgb m) as [rgb|]; [|by intros [= _ <-]].
  intros Hrun Hne.
  destruct (cv2_imwrite _ _ fs) as [[written|e] fs1] eqn:Hwrite;
    unfold mret, io_ret in Hrun; simplify_eq; by eapply cv2_imwrite_other.
Qed.

Lemma export_view_keeps_files hif_path save_path iv fs r fs' q :
  export_view hif_path save_path iv fs = (r, fs') →
  is_Some (Fs.file_at q fs) → is_Some (Fs.file_at q fs').
Proof.
  destruct iv as [view_idx m]. unfold export_view, mbind, io_bind, lift. simpl.
  destruct (matlum_rgb m) as [rgb|]; [|by intros [= _ <-]].
  intros Hrun Hq.
  destruct (cv2_imwrite _ _ fs) as [[written|e] fs1] eqn:Hwrite;
    unfold mret, io_ret in Hrun; simplify_eq; by eapply cv2_imwrite_keeps_files.
Qed.

Lemma export_other hif_path save_path fs r fs' q :
  export hif_path save_path fs = (r, fs') →
  (∀ view_idx, q ≠ save_path ++ [view_name hif_path view_idx]) →
  Fs.file_at q fs' = Fs.file_at q fs.
Proof.
  intros Hrun Hq.
  destruct (classic_exported hif_path save_path fs) as [Hbefore|Hfresh].
  - destruct Hbefore as [Hthere|Hbefore].
    + rewrite (export_first_view_there _ _ _ Hthere) in Hrun. by simplify_eq.
    + revert Hrun. unfold export, os_path_exists, mbind, io_bind. cbn beta iota.
      destruct (Fs.resolve (save_path ++ [view_name hif_path 0]) fs);
        [by intros [= _ <-]|].
      destruct Hbefore as [[n ->]|[n Hn]]; [by intros [= _ <-]|].
      destruct (Fs.resolve (save_path ++ ["train"; view_name hif_path 0]) fs);
        [by intros [= _ <-]|].
      rewrite Hn. by intros [= _ <-].
  - rewrite (export_fresh _ _ _ Hfresh) in Hrun.
    pose proof (open_read_state hif_path fs) as Hread.
    destruct (open_read hif_path fs) as [[bytes|e] fs0]; simpl in Hread; subst fs0;
      [|by simplify_eq].
    destruct (hif_sections bytes) as [views_matlum|e]; [|by simplify_eq].
    destruct (for_each _ _ fs) as [r1 fs1] eqn:Hloop.
    assert (Fs.file_at q fs1 = Fs.file_at q fs) as Hsame.
    { refine (for_each_keeps (λ fs2 fs3, Fs.file_at q fs3 = Fs.file_at q fs2)
                (export_view hif_path save_path) _ _ _ _ fs r1 fs1 Hloop).
      - done.
      - intros fs2 fs3 fs4 H23 H34. by rewrite H34.
      - intros iv fs2 r2 fs3 _ Hview. by eapply export_view_other. }
    destruct r1 as [[]|e]; by simplify_eq.
Qed.

(** [export] writes the images of the views of its container into the
    destination and changes no other file, however it ends. *)
Theorem export_elsewhere hif_path save_path fs r fs' q :
  export hif_path save_path fs = (r, fs') →
  (∀ view_idx, q ≠ save_path ++ [view_name hif_path view_idx]) →
  Fs.file_at q fs' = Fs.file_at q fs.
Proof. exact (export_other hif_path save_path fs r fs' q). Qed.

(** With something exported before, [export] returns at once. *)
Lemma export_returns_at_once hif_path save_path fs :
  exported_before hif_path save_path fs → export hif_path save_path fs = (Ok 0%nat, fs).
Proof.
  intros Hbefore. unfold export, os_path_exists, mbind, io_bind. cbn beta iota.
  destruct (Fs.resolve (save_path ++ [view_name hif_path 0]) fs) as [n1|e1] eqn:H1; [done|].
  destruct (Fs.resolve (save_path ++ ["train"; view_name hif_path 0]) fs)
    as [n2|e2] eqn:H2; [done|].
  destruct (Fs.resolve (save_path ++ ["test"; view_name hif_path 0]) fs)
    as [n3|e3] eqn:H3; [done|].
  destruct Hbefore as [[n Hn]|[[n Hn]|[n Hn]]]; congruence.
Qed.

(** Export idempotency: when the destination is a directory and [export]
    has returned, a second [export] of the same container finds the work
    done: it returns 0 and changes nothing. *)
Theorem export_again hif_path save_path fs es n fs' :
  Fs.resolve save_path fs = Ok (Dir es) →
  export hif_path save_path fs = (Ok n, fs') →
  export hif_path save_path fs' = (Ok 0%nat, fs').
Proof.
  intros Hdir Hrun.
  destruct (classic_exported hif_path save_path fs) as [Hbefore|Hfresh].
  { rewrite (export_returns_at_once _ _ _ Hbefore) in Hrun. simplify_eq.
    by apply export_returns_at_once. }
  pose proof Hrun as Hfirst. rewrite (export_fresh _ _ _ Hfresh) in Hrun.
  pose proof (open_read_state hif_path fs) as Hread.
  destruct (open_read hif_path fs) as [[bytes|e] fs0]; simpl in Hread; subst fs0; [|done].
  destruct (hif_sections bytes) as [[|m views]|e]; [| |done].
  { simpl in Hrun. unfold mret, io_ret in Hrun. by simplify_eq. }
  cbn [length seq zip zip_with for_each] in Hrun. unfold mbind at 1, io_bind at 1 in Hrun.
  destruct (export_view hif_path save_path (0%nat, m) fs) as [[[]|e] fs1] eqn:Hview; [|done].
  destruct (for_each _ _ fs1) as [[[]|e] fs2] eqn:Hloop; [|done]. simplify_eq.
  apply export_first_view_there, file_at_present.
  assert (is_Some (Fs.file_at (save_path ++ [view_name hif_path 0]) fs1)) as Hthere.
  { revert Hview. unfold export_view, mbind, io_bind, lift, cv2_imwrite.
    destruct (matlum_rgb m) as [rgb|]; [|done]. cbn beta iota.
    destruct (_ || _); [done|].
    destruct (write_free save_path (view_name hif_path 0)
                (imencode (center_crop rgb 590 440)) fs es Hdir) as [fs1' Hwrite].
    - pose proof (resolve_snoc save_path (view_name hif_path 0) fs) as Hname.
      rewrite Hdir in Hname.
      destruct (Fs.lookup_entry (view_name hif_path 0) es) as [n|]; [|done].
      destruct Hfresh. left. by exists n.
    - rewrite decide_True by done. rewrite Hwrite. intros [= <-].
      rewrite (file_at_write_eq _ _ _ _ Hwrite). by eexists. }
  refine (for_each_keeps
            (λ fs3 fs4, is_Some (Fs.file_at (save_path ++ [view_name hif_path 0]) fs3) →
               is_Some (Fs.file_at (save_path ++ [view_name hif_path 0]) fs4))
            (export_view hif_path save_path) _ _ _ _ fs1 _ fs' Hloop Hthere).
  - done.
  - intros fs3 fs4 fs5 H34 H45 H3. by apply H45, H34.
  - intros iv fs3 r3 fs4 _ Hround. by eapply export_view_keeps_files.
Qed.

End ExportMore.

Lemma export_elsewhere_witness :
  Fs.file_at ["in"; "a.hif"]
    (export (C := Demo.collaborators None) ["in"; "a.hif"] ["out"] Ex.half_exported).2 =
  Fs.file_at ["in"; "a.hif"] Ex.half_exported.
Proof.
  eapply (export_elsewhere (C := Demo.collaborators None) ["in"; "a.hif"] ["out"]
            Ex.half_exported).
  - apply surjective_pairing.
  - intros view_idx Heq. discriminate Heq.
Defined.

Lemma export_again_witness :
  let fs' := (export (C := Demo.collaborators None) ["in"; "a.hif"] ["out"]
                Ex.half_exported).2 in
  export (C := Demo.collaborators None) ["in"; "a.hif"] ["out"] fs' = (Ok 0%nat, fs').
Proof.
  eapply (export_again (C := Demo.collaborators None) ["in"; "a.hif"] ["out"]
            Ex.half_exported _ 2%nat).
  - reflexivity.
  - reflexivity.
Defined.

(** * [export_sd3_hif_form_dir] *)

Section ExportDir.

Context {C : Collaborators}.

(** With [remove_before_export] set, as the script sets it, an export
    directory that is not there yet (or is a regular file) stops the call
    before anything is made or exported: [shutil.rmtree] raises. *)
Theorem export_dir_needs_directory hif_path img_export_path fs :
  (∀ es, Fs.resolve img_export_path fs ≠ Ok (Dir es)) →
  export_sd3_hif_form_dir hif_path img_export_path true fs =
  (Raise match Fs.resolve img_export_path fs with
         | Raise e => e
         | Ok _ => NotADirectoryError
         end, fs).
Proof.
  intros Hnodir. unfold export_sd3_hif_form_dir, shutil_rmtree, mbind at 1, io_bind at 1.
  destruct (Fs.resolve img_export_path fs) as [[c|es]|e]; [done| |done].
  by destruct (Hnodir es).
Qed.

Lemma crawl_state root file_type fs : (crawl root file_type fs).2 = fs.
Proof. done. Qed.

Lemma export_each_elsewhere files img_export_path counter fs r fs' q :
  export_each files img_export_path counter fs = (r, fs') →
  (∀ name, q ≠ img_export_path ++ [name]) →
  Fs.file_at q fs' = Fs.file_at q fs.
Proof.
  intros Hrun Hq. revert counter fs Hrun.
  induction files as [|path files IH]; intros counter fs Hrun.
  - simpl in Hrun. unfold mret, io_ret in Hrun. by simplify_eq.
  - cbn [export_each] in Hrun. unfold mbind, io_bind in Hrun.
    destruct (export path img_export_path fs) as [[exported|e] fs1] eqn:Hexport.
    + rewrite (IH _ _ Hrun). by eapply export_other.
    + simplify_eq. by eapply export_other.
Qed.

(** Without [remove_before_export], the call changes files directly in
    the export directory only, however it ends. *)
Theorem export_dir_elsewhere hif_path img_export_path fs r fs' q :
  export_sd3_hif_form_dir hif_path img_export_path false fs = (r, fs') →
  (∀ name, q ≠ img_export_path ++ [name]) →
  Fs.file_at q fs' = Fs.file_at q fs.
Proof.
  unfold export_sd3_hif_form_dir. intros Hrun Hq.
  unfold mbind at 1, io_bind at 1, mret at 1, io_ret at 1 in Hrun.
  unfold mbind at 1, io_bind at 1, try_pass at 1 in Hrun.
  assert (Fs.file_at q (os_mkdir img_export_path fs).2 = Fs.file_at q fs) as Hmade.
  { unfold os_mkdir, modify.
    destruct (Fs.mkdir img_export_path fs) as [fs1|] eqn:Hp; [|done].
    by eapply file_at_mkdir. }
  destruct (os_mkdir img_export_path fs) as [r0 fs0]. simpl in Hmade, Hrun.
  rewrite <- Hmade. unfold mbind at 1, io_bind at 1 in Hrun.
  pose proof (crawl_state hif_path ".hif" fs0) as Hcrawl.
  destruct (crawl hif_path ".hif" fs0) as [[files|e] fs1]; simpl in Hcrawl; subst fs1;
    [|by simplify_eq].
  unfold mbind at 1, io_bind at 1 in Hrun.
  destruct (export_each files img_export_path 0 fs0) as [[counter|e] fs2] eqn:Heach;
    unfold mret, io_ret in Hrun; simplify_eq; by eapply export_each_elsewhere.
Qed.

End ExportDir.

Lemma export_dir_needs_directory_witness :
  export_sd3_hif_form_dir (C := Demo.collaborators None) ["in"] ["exported"] true
    Ex.half_exported = (Raise FileNotFoundError, Ex.half_exported).
Proof.
  apply (export_dir_needs_directory (C := Demo.collaborators None) ["in"] ["exported"]
           Ex.half_exported).
  intros es Hes. discriminate Hes.
Defined.

Lemma export_dir_elsewhere_witness :
  Fs.file_at ["in"; "a.hif"]
    (export_sd3_hif_form_dir (C := Demo.collaborators None) ["in"] ["out"] false
       Ex.half_exported).2 =
  Fs.file_at ["in"; "a.hif"] Ex.half_exported.
Proof.
  eapply (export_dir_elsewhere (C := Demo.collaborators None) ["in"] ["out"]
            Ex.half_exported).
  - apply surjective_pairing.
  - intros name Heq. discriminate Heq.
Defined.

(** * [crawl]: the files it yields *)

Section Crawl.

Implicit Types (es : entries) (n fs : node) (top rel q : path) (name k : string).

Lemma node_ind_nested (P : node → Prop) :
  (∀ c, P (File c)) → (∀ es, Forall (λ kn, P kn.2) es → P (Dir es)) → ∀ n, P n.
Proof.
  intros HFile HDir.
  refine (fix IH n : P n :=
            match n with
            | File c => HFile c
            | Dir es =>
                HDir es ((fix all es : Forall (λ kn, P kn.2) es :=
                            match es with
                            | [] => Forall_nil_2 _
                            | kn :: es' => Forall_cons_2 _ _ _ (IH kn.2) (all es')
                            end) es)
            end).
Qed.

Lemma wf_dir es : wf (Dir es) ↔ NoDup es.*1 ∧ Forall (λ kn, wf kn.2) es.
Proof.
  simpl. apply and_iff_compat_l. induction es as [|kn es IH]; simpl.
  - split; [constructor|done].
  - rewrite Forall_cons, IH. done.
Qed.

Lemma lookup_entry_elem es name n :
  NoDup es.*1 → Fs.lookup_entry name es = Some n ↔ (name, n) ∈ es.
Proof.
  induction es as [|[k n'] es IH]; intros Hnodup; simpl.
  - split; [done|]. by intros ?%elem_of_nil.
  - apply NoDup_cons in Hnodup as [Hk Hnodup]. rewrite elem_of_cons.
    case_decide as Heq.
    + subst k. split; [intros [= ->]; by left|].
      intros [[= ->]|Hin]; [done|]. destruct Hk.
      apply list_elem_of_fmap. by exists (name, n).
    + rewrite (IH Hnodup). split; [by right|]. intros [[= ? ?]|?]; [done|done].
Qed.

Lemma elem_of_flat_map {A B} (f : A → list B) (l : list A) (y : B) :
  y ∈ flat_map f l ↔ ∃ x, x ∈ l ∧ y ∈ f x.
Proof.
  rewrite list_elem_of_In, in_flat_map. split.
  - intros (x & Hx & Hy). exists x. by rewrite !list_elem_of_In.
  - intros (x & Hx & Hy). exists x. by rewrite <- !list_elem_of_In.
Qed.

Lemma elem_of_nondirs name es : name ∈ Fs.nondirs es ↔ ∃ c, (name, File c) ∈ es.
Proof.
  unfold Fs.nondirs. rewrite list_elem_of_omap. split.
  - intros ([k [c|es']] & Hin & Heq); simplify_eq/=. by exists c.
  - intros [c Hin]. by exists (name, File c).
Qed.

Lemma elem_of_yielded file_type triples q :
  q ∈ yielded file_type triples ↔
  ∃ path subdirs files name,
    (path, subdirs, files) ∈ triples ∧ name ∈ files ∧
    Py.endswith name file_type = true ∧ q = path ++ [name].
Proof.
  unfold yielded. rewrite elem_of_flat_map. split.
  - intros ([[path subdirs] files] & Hin & Hq).
    apply list_elem_of_fmap in Hq as (name & -> & Hname).
    apply list_elem_of_In, filter_In in Hname as [Hname%list_elem_of_In Hends].
    by exists path, subdirs, files, name.
  - intros (path & subdirs & files & name & Hin & Hname & Hends & ->).
    exists (path, subdirs, files). split; [done|].
    apply list_elem_of_fmap. exists name. split; [done|].
    apply list_elem_of_In, filter_In. split; [by apply list_elem_of_In|done].
Qed.

(** The triples of a walk: one for every directory at or below the top,
    with the names of its regular files. *)
Lemma elem_of_walk_node n top path subdirs files :
  wf n →
  (path, subdirs, files) ∈ Fs.walk_node top n ↔
  ∃ rel es, path = top ++ rel ∧ Fs.resolve rel n = Ok (Dir es) ∧
    subdirs = Fs.subdirs es ∧ files = Fs.nondirs es.
Proof.
  revert top. induction n as [c|es IH] using node_ind_nested; intros top Hwf.
  - simpl. split; [by intros ?%elem_of_nil|].
    intros (rel & es & _ & Hrel & _). by destruct rel.
  - apply wf_dir in Hwf as [Hnodup Hwfs]. cbn [Fs.walk_node].
    rewrite elem_of_cons, elem_of_flat_map. split.
    + intros [[= -> -> ->]|([k child] & Hin & Hwalk)].
      * exists [], es. by rewrite app_nil_r.
      * rewrite Forall_forall in IH, Hwfs.
        apply (IH _ Hin) in Hwalk as (rel & es' & -> & Hrel & -> & ->);
          [|by apply (Hwfs _ Hin)].
        exists (k :: rel), es'. rewrite <- app_assoc. split; [done|].
        simpl. by rewrite (proj2 (lookup_entry_elem es k child Hnodup) Hin).
    + intros (rel & es' & -> & Hrel & -> & ->). destruct rel as [|k rel].
      * left. simpl in Hrel. simplify_eq. by rewrite app_nil_r.
      * right. simpl in Hrel.
        destruct (Fs.lookup_entry k es) as [child|] eqn:Hk; [|done].
        apply (lookup_entry_elem es k child Hnodup) in Hk.
        exists (k, child). split; [done|].
        rewrite Forall_forall in IH, Hwfs.
        apply (IH _ Hk); [by apply (Hwfs _ Hk)|].
        exists rel, es'. by rewrite <- app_assoc.
Qed.

Lemma file_at_snoc dir name fs :
  is_Some (Fs.file_at (dir ++ [name]) fs) ↔
  ∃ es c, Fs.resolve dir fs = Ok (Dir es) ∧ Fs.lookup_entry name es = Some (File c).
Proof.
  unfold Fs.file_at. rewrite resolve_snoc. split.
  - intros [c Hc]. destruct (Fs.resolve dir fs) as [[c'|es]|]; [done| |done].
    destruct (Fs.lookup_entry name es) as [[c'|es']|] eqn:Hname; [|done..].
    by exists es, c'.
  - intros (es & c & -> & ->). by eexists.
Qed.

Lemma resolve_app p1 p2 fs n :
  Fs.resolve p1 fs = Ok n → Fs.resolve (p1 ++ p2) fs = Fs.resolve p2 n.
Proof.
  revert fs. induction p1 as [|c p1 IH]; intros fs; simpl.
  - by intros [= ->].
  - destruct fs as [|es]; [done|]. destruct (Fs.lookup_entry c es); [|done]. apply IH.
Qed.

Lemma resolve_app_raise p1 p2 fs e :
  Fs.resolve p1 fs = Raise e → ∃ e', Fs.resolve (p1 ++ p2) fs = Raise e'.
Proof.
  revert fs. induction p1 as [|c p1 IH]; intros fs; simpl; [done|].
  destruct fs as [|es]; [by eexists|]. destruct (Fs.lookup_entry c es); [|by eexists].
  apply IH.
Qed.

Lemma lookup_entry_in es name n : Fs.lookup_entry name es = Some n → (name, n) ∈ es.
Proof.
  induction es as [|[k n'] es IH]; [done|]. simpl. case_decide as Hk.
  - intros [= ->]. subst. by apply elem_of_cons; left.
  - intros Hn. apply elem_of_cons. right. by apply IH.
Qed.

Lemma wf_resolve p fs n : wf fs → Fs.resolve p fs = Ok n → wf n.
Proof.
  revert fs. induction p as [|c p IH]; intros fs Hwf; simpl.
  - by intros [= <-].
  - destruct fs as [|es]; [done|].
    destruct (Fs.lookup_entry c es) as [child|] eqn:Hc; [|done].
    apply wf_dir in Hwf as [_ Hwfs]. rewrite Forall_forall in Hwfs.
    apply IH. by apply (Hwfs _ (lookup_entry_in _ _ _ Hc)).
Qed.

Lemma crawl_yields root file_type fs :
  wf fs →
  ∃ paths, crawl root file_type fs = (Ok paths, fs) ∧
    ∀ q, q ∈ paths ↔
      ∃ rel name, q = root ++ rel ++ [name] ∧ is_Some (Fs.file_at q fs) ∧
        Py.endswith name file_type = true.
Proof.
  intros Hwf. unfold crawl, os_walk, mbind, io_bind, mret, io_ret. cbn beta iota.
  change (flat_map _ ?triples) with (yielded file_type triples).
  destruct (Fs.resolve root fs) as [n|e] eqn:Hroot; cbn beta iota.
  - eexists. split; [reflexivity|]. intros q.
    pose proof (wf_resolve _ _ _ Hwf Hroot) as Hwfn.
    rewrite elem_of_yielded. split.
    + intros (path & subdirs & files & name & Hin & Hname & Hends & ->).
      apply (elem_of_walk_node _ _ _ _ _ Hwfn) in Hin as (rel & es & -> & Hrel & -> & ->).
      exists rel, name. rewrite <- app_assoc. split; [done|]. split; [|done].
      rewrite app_assoc. apply file_at_snoc.
      apply elem_of_nondirs in Hname as [c Hc].
      exists es, c. rewrite (resolve_app _ _ _ _ Hroot). split; [done|].
      apply lookup_entry_elem; [|done].
      by apply (wf_resolve _ _ _ Hwfn) in Hrel as [? _]%wf_dir.
    + intros (rel & name & -> & Hfile & Hends).
      rewrite app_assoc in Hfile. apply file_at_snoc in Hfile as (es & c & Hdir & Hc).
      rewrite (resolve_app _ _ _ _ Hroot) in Hdir.
      exists (root ++ rel), (Fs.subdirs es), (Fs.nondirs es), name.
      split; [|split; [|split]]; [| |done|by rewrite app_assoc].
      * apply (elem_of_walk_node _ _ _ _ _ Hwfn). by exists rel, es.
      * apply elem_of_nondirs. exists c. by apply lookup_entry_in.
  - eexists. split; [reflexivity|]. intros q.
    split; [by intros ?%elem_of_nil|].
    intros (rel & name & -> & [c Hfile] & _). unfold Fs.file_at in Hfile.
    destruct (resolve_app_raise _ (rel ++ [name]) _ _ Hroot) as [e' He'].
    by rewrite He' in Hfile.
Qed.

(** Crawler completeness: in a file system that lists no name twice in
    a directory, [crawl] raises nothing, changes nothing and yields
    exactly the regular files at any depth below the root whose names
    end with the suffix. *)
Theorem crawl_exact root file_type fs :
  wf fs →
  ∃ paths, crawl root file_type fs = (Ok paths, fs) ∧
    ∀ q, q ∈ paths ↔
      ∃ rel name, q = root ++ rel ++ [name] ∧ is_Some (Fs.file_at q fs) ∧
        Py.endswith name file_type = true.
Proof. exact (crawl_yields root file_type fs). Qed.

End Crawl.

Lemma crawl_exact_witness :
  ∃ paths, crawl ["JPEGImages"] ".jpg" Ex.sixray = (Ok paths, Ex.sixray) ∧
    ∀ q, q ∈ paths ↔
      ∃ rel name, q = ["JPEGImages"] ++ rel ++ [name] ∧
        is_Some (Fs.file_at q Ex.sixray) ∧ Py.endswith name ".jpg" = true.
Proof.
  apply (crawl_exact ["JPEGImages"] ".jpg" Ex.sixray).
  repeat split; apply (bool_decide_unpack _); vm_compute; exact I.
Defined.


(** * [split_exported_sd3_hif]: where the files end up *)

Section SplitMore.

Context {C : Collaborators}.

Implicit Types (src dest q : path) (file name : string) (fs : node).

(** The rounds of [copy_files] without [overwrite], seen from one file that
    is at the source with nothing at the destination: whatever happens, its
    bytes are still at the source, or they are at the destination and the
    source is gone. *)
Lemma copy_rounds_never_lose src dest delete_at_source files name bytes :
  ∀ fs r fs',
    for_each files (copy_file src dest delete_at_source false) fs = (r, fs') →
    Fs.file_at (src ++ [name]) fs = Some bytes → ¬ present (dest ++ [name]) fs →
    Fs.file_at (src ++ [name]) fs' = Some bytes ∨
    (Fs.file_at (dest ++ [name]) fs' = Some bytes ∧ Fs.file_at (src ++ [name]) fs' = None).
Proof.
  induction files as [|a files IH]; intros fs r fs' Hrun Hsrc Hfree.
  { left. cbn in Hrun. unfold mret, io_ret in Hrun. by simplify_eq. }
  cbn [for_each] in Hrun. unfold mbind, io_bind in Hrun.
  destruct (copy_file src dest delete_at_source false a fs) as [[[]|e] fs1] eqn:Hstep.
  - destruct (decide (a = name)) as [->|Hne].
    + destruct (copy_file_delivers _ _ _ _ _ _ _ Hstep Hsrc Hfree) as [Harrived Hgone].
      assert (Fs.file_at (dest ++ [name]) fs' = Some bytes ∧
              Fs.file_at (src ++ [name]) fs' = Fs.file_at (src ++ [name]) fs1) as [Hdest Hsame].
      { refine (for_each_keeps
                  (λ fs2 fs3, Fs.file_at (dest ++ [name]) fs2 = Some bytes →
                     Fs.file_at (dest ++ [name]) fs3 = Some bytes ∧
                     Fs.file_at (src ++ [name]) fs3 = Fs.file_at (src ++ [name]) fs2)
                  (copy_file src dest delete_at_source false) files _ _ _ fs1 _ fs' Hrun
                  Harrived).
        - done.
        - intros fs2 fs3 fs4 H23 H34 H2. destruct (H23 H2) as [H3 <-]. by apply H34.
        - intros b fs2 r2 fs3 _ Hround Hthere. by eapply copy_file_settled. }
      rewrite Hsame, Hgone. destruct delete_at_source; [by right|by left].
    + apply (IH _ _ _ Hrun).
      * destruct (copy_file_other _ _ _ _ _ _ _ _ (src ++ [name]) Hstep) as [-> _];
          [by apply snoc_ne| |done].
        intros _. by apply snoc_ne.
      * destruct (copy_file_other _ _ _ _ _ _ _ _ (dest ++ [name]) Hstep) as [_ ->];
          [by apply snoc_ne| |done].
        intros _ Heq. by apply app_inj_tail in Heq as [_ ?].
  - simplify_eq. left. destruct (decide (a = name)) as [->|Hne].
    + apply copy_file_raise in Hstep as [_ ->]. done.
    + destruct (copy_file_other _ _ _ _ _ _ _ _ (src ++ [name]) Hstep) as [-> _];
        [by apply snoc_ne| |done].
      intros _. by apply snoc_ne.
Qed.

Lemma copy_files_never_lose src files dest delete_at_source fs r fs' name bytes :
  copy_files src files dest delete_at_source false fs = (r, fs') →
  Fs.file_at (src ++ [name]) fs = Some bytes → ¬ present (dest ++ [name]) fs →
  Fs.file_at (src ++ [name]) fs' = Some bytes ∨
  (Fs.file_at (dest ++ [name]) fs' = Some bytes ∧ Fs.file_at (src ++ [name]) fs' = None).
Proof.
  unfold copy_files, mbind at 1, io_bind at 1. intros Hrun Hsrc Hfree.
  pose proof (try_makedirs_file_at dest fs (src ++ [name])) as Hmade.
  pose proof (try_makedirs_present dest fs name) as Hmade'.
  destruct (try_pass (os_makedirs dest) fs) as [[[]|e] fs0] eqn:Htry; [|done].
  simpl in Hmade, Hmade'. rewrite <- Hmade in Hsrc. rewrite <- Hmade' in Hfree.
  by eapply copy_rounds_never_lose.
Qed.

(** A file that is not at [q] does not come to be there by a move to
    another place. *)
Lemma copy_file_none src dest delete_at_source overwrite file fs r fs' q :
  copy_file src dest delete_at_source overwrite file fs = (r, fs') →
  q ≠ dest ++ [file] → Fs.file_at q fs = None → Fs.file_at q fs' = None.
Proof.
  intros Hrun Hdest Hnone. destruct (decide (q = src ++ [file])) as [->|Hsrc].
  - revert Hrun. unfold copy_file, mbind, io_bind, mret, io_ret, os_path_exists.
    cbn beta iota. destruct (_ && _)%bool; [by intros [= _ <-]|].
    rewrite os_path_isfile_true. rewrite bool_decide_eq_false_2.
    + by intros [= _ <-].
    + rewrite Hnone. by intros [? ?].
  - destruct (copy_file_other _ _ _ _ _ _ _ _ q Hrun Hdest) as [-> _]; done.
Qed.

Lemma copy_files_none src files dest delete_at_source overwrite fs r fs' q :
  copy_files src files dest delete_at_source overwrite fs = (r, fs') →
  (∀ file, file ∈ files → q ≠ dest ++ [file]) →
  Fs.file_at q fs = None → Fs.file_at q fs' = None.
Proof.
  unfold copy_files, mbind at 1, io_bind at 1. intros Hrun Hq.
  pose proof (try_makedirs_file_at dest fs q) as Hmade.
  destruct (try_pass (os_makedirs dest) fs) as [[[]|e] fs0] eqn:Htry; [|done].
  simpl in Hmade. rewrite <- Hmade.
  refine (for_each_keeps (λ fs1 fs2, Fs.file_at q fs1 = None → Fs.file_at q fs2 = None)
            (copy_file src dest delete_at_source overwrite) files _ _ _ fs0 r fs' Hrun).
  - done.
  - intros fs1 fs2 fs3 H12 H23 H1. by apply H23, H12.
  - intros file fs1 r1 fs2 Hin Hstep. by eapply copy_file_none; [|apply Hq].
Qed.

(** ** The closing loop, lines 172-173 *)

(** A round of the loop removes the file it is given and changes nothing
    else. *)
Lemma delete_round_other src file fs r fs' q :
  (regular ← os_path_isfile (src ++ [file]);
   if regular : bool then os_remove (src ++ [file]) else mret tt) fs = (r, fs') →
  (q ≠ src ++ [file] ∨ Fs.file_at q fs = None) → Fs.file_at q fs' = Fs.file_at q fs.
Proof.
  unfold mbind, io_bind. rewrite os_path_isfile_true. intros Hrun Hq.
  case_bool_decide as Hfile.
  - destruct Hq as [Hne|Hnone].
    + by eapply os_remove_other.
    + destruct (decide (q = src ++ [file])) as [->|Hne]; [|by eapply os_remove_other].
      rewrite Hnone in Hfile. by destruct Hfile.
  - unfold mret, io_ret in Hrun. by simplify_eq.
Qed.

Lemma delete_rounds_other src files fs r fs' q :
  for_each files (λ file,
    regular ← os_path_isfile (src ++ [file]);
    if regular : bool then os_remove (src ++ [file]) else mret tt) fs = (r, fs') →
  ((∀ file, file ∈ files → q ≠ src ++ [file]) ∨ Fs.file_at q fs = None) →
  Fs.file_at q fs' = Fs.file_at q fs.
Proof.
  intros Hrun Hq.
  refine (for_each_keeps
            (λ fs1 fs2, (Fs.file_at q fs = None → Fs.file_at q fs1 = None) →
               Fs.file_at q fs2 = Fs.file_at q fs1)
            _ files _ _ _ fs r fs' Hrun _); [done| | |done].
  - intros fs1 fs2 fs3 H12 H23 H1. rewrite H23, H12; [done..|].
    intros Hnone. rewrite H12; by auto.
  - intros file fs1 r1 fs2 Hin Hstep H1. eapply delete_round_other; [done|].
    destruct Hq as [Hne|Hnone]; [left; by apply Hne|right; by apply H1].
Qed.

Lemma os_listdir_state p fs r fs' : os_listdir p fs = (r, fs') → fs' = fs.
Proof. unfold os_listdir. by destruct (Fs.resolve p fs) as [[]|]; intros [= _ <-]. Qed.

(** Paths of different lengths, or with different last components, differ. *)
Ltac path_ne :=
  let Heq := fresh "Heq" in
  intros Heq;
  first
    [ apply (f_equal length) in Heq; rewrite ?length_app in Heq; simpl in Heq; lia
    | apply app_inj_tail in Heq as [Heq ?];
      first [ done
            | apply (f_equal length) in Heq; rewrite ?length_app in Heq; simpl in Heq; lia
            | apply app_inj_tail in Heq as [_ ?]; done ] ].

(** The split loses no file: a regular file of the directory whose name
    is free in [train] and in [test] is, with all its bytes, in the directory
    itself or in [train] or in [test] afterwards, however the call ends and
    whatever [discard] is. *)
Theorem split_keeps_bytes src portion discard fs r fs' name bytes :
  split_exported_sd3_hif src portion discard fs = (r, fs') →
  Fs.file_at (src ++ [name]) fs = Some bytes →
  ¬ present ((src ++ ["train"]) ++ [name]) fs →
  ¬ present ((src ++ ["test"]) ++ [name]) fs →
  Fs.file_at (src ++ [name]) fs' = Some bytes ∨
  Fs.file_at ((src ++ ["train"]) ++ [name]) fs' = Some bytes ∨
  Fs.file_at ((src ++ ["test"]) ++ [name]) fs' = Some bytes.
Proof.
  unfold split_exported_sd3_hif, mbind at 1, io_bind at 1. intros Hrun Hsrc Htrain Htest.
  destruct (os_listdir src fs) as [r0 fs0] eqn:Hlist.
  apply os_listdir_state in Hlist as ->.
  destruct r0 as [listing|e]; [|left; by simplify_eq].
  unfold mbind at 1, io_bind at 1, lift at 1 in Hrun.
  destruct (split_lists listing portion discard) as [[[first_half second_half] files2del]|e]
    eqn:Hlists; [|left; by simplify_eq].
  pose proof (split_lists_files2del_kept _ _ _ _ _ _ Hlists) as Hkept.
  unfold move_files, mbind at 1, io_bind at 1 in Hrun.
  destruct (copy_files src first_half (src ++ ["train"]) true false fs) as [r1 fs1] eqn:Hmove1.
  assert (∀ fs2 r2 fs3 q, (∀ file, q ≠ src ++ [file]) →
            (copy_files src second_half (src ++ ["test"]) true false;;
             for_each files2del (λ file,
               regular ← os_path_isfile (src ++ [file]);
               if regular : bool then os_remove (src ++ [file]) else mret tt)) fs2 = (r2, fs3) →
            (∀ file, q ≠ (src ++ ["test"]) ++ [file]) →
            Fs.file_at q fs3 = Fs.file_at q fs2) as Hrest.
  { intros fs2 r2 fs3 q Hq. unfold mbind at 1, io_bind at 1. intros Hrun2 Hq'.
    destruct (copy_files src second_half (src ++ ["test"]) true false fs2)
      as [r3 fs4] eqn:Hmove2.
    rewrite <- (copy_files_other _ _ _ _ _ _ _ _ q Hmove2); [|by intros file _; split].
    destruct r3 as [[]|e3]; [|by simplify_eq].
    eapply delete_rounds_other; [done|]. left. by intros file _. }
  destruct (copy_files_never_lose _ _ _ _ _ _ _ _ _ Hmove1 Hsrc Htrain) as [Hstill|[Hmoved Hgone]].
  - destruct r1 as [[]|e1]; [|left; by simplify_eq].
    assert (¬ present ((src ++ ["test"]) ++ [name]) fs1) as Htest1.
    { rewrite (copy_files_elsewhere_present _ _ _ _ _ _ _ _ _ Hmove1); [done| |].
      - intros rest1 rest2 Hdest. apply (f_equal length) in Hdest.
        rewrite !length_app in Hdest. simpl in Hdest.
        intros Heq. apply (f_equal length) in Heq. rewrite !length_app in Heq.
        simpl in Heq. lia.
      - intros file _. split; [path_ne|intros _; path_ne]. }
    unfold mbind at 1, io_bind at 1 in Hrun.
    destruct (copy_files src second_half (src ++ ["test"]) true false fs1)
      as [r2 fs2] eqn:Hmove2.
    destruct (copy_files_never_lose _ _ _ _ _ _ _ _ _ Hmove2 Hstill Htest1)
      as [Hstill2|[Hmoved Hgone]].
    + destruct r2 as [[]|e2]; [|left; by simplify_eq].
      destruct (decide (name ∈ first_half ++ second_half)) as [Hin|Hout].
      * exfalso. apply elem_of_app in Hin as [Hin|Hin].
        -- destruct (copy_files_delivered _ _ _ _ _ _ _ _ Hmove1 Hin Hsrc Htrain) as [_ Hnone].
           congruence.
        -- destruct (copy_files_delivered _ _ _ _ _ _ _ _ Hmove2 Hin Hstill Htest1)
             as [_ Hnone].
           congruence.
      * left. rewrite <- Hstill2. eapply delete_rounds_other; [done|]. left.
        intros file Hfile Heq. apply app_inj_tail in Heq as [_ ->]. by apply Hout, Hkept.
    + right. right. destruct r2 as [[]|e2]; [|by simplify_eq].
      rewrite <- Hmoved. eapply delete_rounds_other; [done|]. left. intros file _. path_ne.
  - right. left. destruct r1 as [[]|e1]; [|by simplify_eq].
    rewrite <- Hmoved. eapply Hrest; [|done|]; intros file; path_ne.
Qed.

Lemma NoDup_upto {A} (k : Z) (l : list A) : NoDup l → NoDup (Py.upto k l).
Proof. intros Hl. eapply sublist_NoDup; [done|]. apply sublist_take. Qed.

(** The split, when it returns, on a directory that lists no name twice:
    a regular file that the lists put in the training part is in [train]
    with all its bytes and gone from the directory, and likewise for the test
    part and [test], provided the name was free there. *)
Theorem split_moves `{!ShufflePermutes C} src portion discard fs fs'
    listing first_half second_half files2del name bytes part half :
  wf fs →
  os_listdir src fs = (Ok listing, fs) →
  split_lists listing portion discard = Ok (first_half, second_half, files2del) →
  split_exported_sd3_hif src portion discard fs = (Ok tt, fs') →
  (part, half) ∈ [("train", first_half); ("test", second_half)] →
  name ∈ half →
  Fs.file_at (src ++ [name]) fs = Some bytes →
  ¬ present ((src ++ [part]) ++ [name]) fs →
  Fs.file_at ((src ++ [part]) ++ [name]) fs' = Some bytes ∧
  Fs.file_at (src ++ [name]) fs' = None.
Proof.
  intros Hwf Hlist Hlists Hrun Hpart Hin Hsrc Hfree.
  assert (NoDup (first_half ++ second_half)) as Hnodup.
  { destruct (split_lists_inv _ _ _ _ _ _ Hlists) as (keep & from & -> & _).
    apply NoDup_upto. rewrite !shuffle_perm. revert Hlist. unfold os_listdir.
    destruct (Fs.resolve src fs) as [[c|es]|e] eqn:Hdir; [done| |done].
    intros [= <-]. by apply (wf_resolve _ _ _ Hwf), wf_dir in Hdir as [? _]. }
  pose proof (split_lists_files2del_kept _ _ _ _ _ _ Hlists) as Hkept.
  revert Hrun. unfold split_exported_sd3_hif, mbind at 1, io_bind at 1. rewrite Hlist.
  unfold mbind at 1, io_bind at 1, lift at 1. rewrite Hlists.
  unfold move_files, mbind at 1, io_bind at 1.
  destruct (copy_files src first_half (src ++ ["train"]) true false fs)
    as [[[]|e1] fs1] eqn:Hmove1; [|done].
  unfold mbind at 1, io_bind at 1.
  destruct (copy_files src second_half (src ++ ["test"]) true false fs1)
    as [[[]|e2] fs2] eqn:Hmove2; [|done].
  intros Hdel.
  assert (∀ q, (∀ file, q ≠ src ++ [file]) ∨ Fs.file_at q fs2 = None →
            Fs.file_at q fs' = Fs.file_at q fs2) as Hloop.
  { intros q Hq. eapply delete_rounds_other; [done|]. destruct Hq as [Hq|Hq]; [left|by right].
    intros file _. apply Hq. }
  apply elem_of_cons in Hpart as [[= -> ->]|Hpart].
  - destruct (copy_files_delivered _ _ _ _ _ _ _ _ Hmove1 Hin Hsrc Hfree) as [Harrived Hgone].
    assert (Fs.file_at (src ++ [name]) fs2 = None) as Hgone2.
    { eapply copy_files_none; [done| |done]. intros file _. path_ne. }
    rewrite !Hloop; [|by right|left; intros file; path_ne]. split; [|done].
    rewrite <- Harrived. eapply copy_files_other; [done|].
    intros file _. split; [path_ne|intros _; path_ne].
  - apply list_elem_of_singleton in Hpart as [= -> ->].
    assert (name ∉ first_half) as Hout.
    { intros Hfirst. apply NoDup_app in Hnodup as (_ & Hdisjoint & _).
      by apply (Hdisjoint name). }
    assert (Fs.file_at (src ++ [name]) fs1 = Some bytes) as Hsrc1.
    { rewrite <- Hsrc. eapply copy_files_other; [done|].
      intros file Hfile. split; [path_ne|].
      intros _ Heq. apply app_inj_tail in Heq as [_ ->]. done. }
    assert (¬ present ((src ++ ["test"]) ++ [name]) fs1) as Hfree1.
    { rewrite (copy_files_elsewhere_present _ _ _ _ _ _ _ _ _ Hmove1); [done| |].
      - intros rest1 rest2 Hdest. apply (f_equal length) in Hdest.
        rewrite !length_app in Hdest. simpl in Hdest.
        intros Heq. apply (f_equal length) in Heq. rewrite !length_app in Heq.
        simpl in Heq. lia.
      - intros file _. split; [path_ne|intros _; path_ne]. }
    destruct (copy_files_delivered _ _ _ _ _ _ _ _ Hmove2 Hin Hsrc1 Hfree1) as [Harrived Hgone].
    rewrite !Hloop; [done|by right|left; intros file; path_ne].
Qed.

End SplitMore.
Lemma split_keeps_bytes_witness :
  let fs' := (split_exported_sd3_hif (C := Demo.collaborators None) ["exported"] 0.5 0.5
                Sample.exported).2 in
  Fs.file_at (["exported"] ++ ["c.jpg"]) fs' = Some "C" ∨
  Fs.file_at ((["exported"] ++ ["train"]) ++ ["c.jpg"]) fs' = Some "C" ∨
  Fs.file_at ((["exported"] ++ ["test"]) ++ ["c.jpg"]) fs' = Some "C".
Proof.
  eapply (split_keeps_bytes (C := Demo.collaborators None) ["exported"] 0.5 0.5
            Sample.exported).
  - apply surjective_pairing.
  - reflexivity.
  - intros [n Hn]. discriminate Hn.
  - intros [n Hn]. discriminate Hn.
Defined.

Lemma split_moves_witness :
  let fs' := (split_exported_sd3_hif (C := Demo.collaborators None) ["exported"] 0.5 0.5
                Sample.exported).2 in
  Fs.file_at ((["exported"] ++ ["test"]) ++ ["b.jpg"]) fs' = Some "B" ∧
  Fs.file_at (["exported"] ++ ["b.jpg"]) fs' = None.
Proof.
  apply (split_moves (C := Demo.collaborators None) (ShufflePermutes0 := demo_shuffle_permutes None)
           ["exported"] 0.5 0.5 Sample.exported _
           ["a.jpg"; "b.jpg"; "c.jpg"; "d.jpg"] ["a.jpg"] ["b.jpg"] ["b.jpg"]
           "b.jpg" "B" "test" ["b.jpg"]).
  - repeat split; apply (bool_decide_unpack _); vm_compute; exact I.
  - reflexivity.
  - vm_compute. reflexivity.
  - vm_compute. reflexivity.
  - apply elem_of_cons. right. apply elem_of_cons. by left.
  - apply elem_of_cons. by left.
  - reflexivity.
  - intros [n Hn]. discriminate Hn.
Defined.


(** * [clean_before_copy] *)

Section Clean.

Implicit Types (es : entries) (n fs : node) (p q dir : path) (name k : string).

(** Inside the rewritten directory, paths lead into the new entries. *)
Lemma resolve_with_dir_in dir f n n' q :
  Fs.with_dir dir f n = Ok n' →
  ∃ es es', f es = Ok es' ∧ Fs.resolve (dir ++ q) n' = Fs.resolve q (Dir es').
Proof.
  revert n n'. induction dir as [|c dir IH]; intros n n' Hwith.
  - destruct n as [|es]; [done|]. simpl in Hwith.
    destruct (f es) as [es'|] eqn:Hf; simplify_eq/=. by exists es, es'.
  - destruct n as [|es]; [done|]. simpl in Hwith.
    destruct (Fs.lookup_entry c es) as [child|] eqn:Hc; [|done].
    destruct (Fs.with_dir dir f child) as [child'|] eqn:Hrec; simplify_eq/=.
    destruct (IH child child' Hrec) as (es0 & es0' & Hf & Hat).
    exists es0, es0'. split; [done|].
    by rewrite lookup_set_entry, decide_True.
Qed.

(** What is left at [p] and below it once [shutil.rmtree(p)] is over,
    however it ends. *)
Lemma shutil_rmtree_below p fs r fs' q :
  shutil_rmtree p fs = (r, fs') →
  match q with [] => p ≠ [] | _ => True end →
  ∀ es, Fs.resolve (p ++ q) fs' ≠ Ok (Dir es) ∧ (q ≠ [] → ¬ present (p ++ q) fs').
Proof.
  unfold shutil_rmtree. intros Hrun Hq es'.
  destruct (Fs.resolve p fs) as [[c|es]|e] eqn:Hp.
  - simplify_eq. rewrite (resolve_app _ _ _ _ Hp).
    destruct q as [|k q]; [done|]. split; [done|]. intros _ [n Hn].
    by rewrite (resolve_app _ _ _ _ Hp) in Hn.
  - destruct (Fs.split p) as [[dir name]|] eqn:Hsplit.
    + apply split_Some in Hsplit as ->. rewrite resolve_snoc in Hp.
      destruct (Fs.resolve dir fs) as [[c0|es0]|e0] eqn:Hdir; [done| |done].
      destruct (with_dir_resolve dir (λ es, Ok (Fs.del_entry name es)) fs es0 _ Hdir eq_refl)
        as [fs1 Hwith].
      unfold modify in Hrun. rewrite Hwith in Hrun. simplify_eq.
      destruct (resolve_with_dir_in _ _ _ _ ([name] ++ q) Hwith) as (es1 & es1' & [= <-] & Hat).
      rewrite <- app_assoc, Hat. simpl. rewrite lookup_del_entry, decide_True by done.
      split; [done|]. intros _ [n Hn].
      change (dir ++ name :: q) with (dir ++ [name] ++ q) in Hn. rewrite Hat in Hn.
      simpl in Hn. by rewrite lookup_del_entry, decide_True in Hn.
    + simplify_eq. unfold Fs.split in Hsplit.
      destruct (reverse p) as [|name rev] eqn:Hrev; [|done].
      apply (f_equal reverse) in Hrev. rewrite reverse_involutive in Hrev. subst p.
      destruct q as [|k q]; [done|]. simpl. split; [done|]. by intros _ [n Hn].
  - simplify_eq. destruct (resolve_app_raise _ q _ _ Hp) as [e' He']. rewrite He'.
    split; [done|]. intros _ [n Hn]. by rewrite He' in Hn.
Qed.

(** [shutil.rmtree(p)] changes nothing outside of [p]. *)
Lemma shutil_rmtree_elsewhere p fs r fs' q :
  shutil_rmtree p fs = (r, fs') → ¬ p `prefix_of` q → Fs.file_at q fs' = Fs.file_at q fs.
Proof.
  unfold shutil_rmtree. intros Hrun Hq.
  destruct (Fs.resolve p fs) as [[c|es]|e] eqn:Hp; [by simplify_eq| |by simplify_eq].
  destruct (Fs.split p) as [[dir name]|] eqn:Hsplit.
  - apply split_Some in Hsplit as ->. unfold modify in Hrun.
    destruct (Fs.with_dir dir _ fs) as [fs1|e1] eqn:Hwith; simplify_eq; [|done].
    apply (file_at_with_dir _ _ _ _ _ Hwith).
    intros es0 es0' q' -> [= <-]. destruct q' as [|k q']; [done|].
    rewrite !file_at_cons, lookup_del_entry. case_decide as Hk; [|done]. subst k.
    destruct Hq. exists q'. by rewrite <- app_assoc.
  - unfold Fs.split in Hsplit. destruct (reverse p) as [|name rev] eqn:Hrev; [|done].
    apply (f_equal reverse) in Hrev. rewrite reverse_involutive in Hrev. subst p.
    destruct Hq. by exists q.
Qed.

(** Cleaning never raises; afterwards no directory is at the dataset path
    and nothing is below it, and every file outside of it is as it was. *)
Theorem clean_before_copy_clears p fs :
  p ≠ [] →
  (clean_before_copy p fs).1 = Ok tt ∧
  (∀ es, Fs.resolve p (clean_before_copy p fs).2 ≠ Ok (Dir es)) ∧
  (∀ q, q ≠ [] → ¬ present (p ++ q) (clean_before_copy p fs).2) ∧
  (∀ q, ¬ p `prefix_of` q →
     Fs.file_at q (clean_before_copy p fs).2 = Fs.file_at q fs).
Proof.
  intros Hp. unfold clean_before_copy, try_pass. cbn [fst snd].
  destruct (shutil_rmtree p fs) as [r fs'] eqn:Hrun. cbn [snd].
  split; [done|]. split; [|split].
  - intros es. destruct (shutil_rmtree_below _ _ _ _ [] Hrun Hp es) as [Hno _].
    by rewrite app_nil_r in Hno.
  - intros q Hq. destruct q as [|k q]; [done|].
    by destruct (shutil_rmtree_below _ _ _ _ (k :: q) Hrun I []) as [_ Hno]; apply Hno.
  - intros q Hq. by eapply shutil_rmtree_elsewhere.
Qed.

End Clean.

Lemma clean_before_copy_clears_witness :
  (clean_before_copy ["exported"] Sample.sd3).1 = Ok tt ∧
  (∀ es, Fs.resolve ["exported"] (clean_before_copy ["exported"] Sample.sd3).2 ≠ Ok (Dir es)) ∧
  (∀ q, q ≠ [] → ¬ present (["exported"] ++ q) (clean_before_copy ["exported"] Sample.sd3).2) ∧
  (∀ q, ¬ ["exported"] `prefix_of` q →
     Fs.file_at q (clean_before_copy ["exported"] Sample.sd3).2 = Fs.file_at q Sample.sd3).
Proof. apply (clean_before_copy_clears ["exported"] Sample.sd3). discriminate. Defined.


(** * [center_crop] on frames of any size *)

Section CropMore.

Context {A : Type}.
Implicit Types (l : list A) (img : image A).

Lemma slice_length {B} (l : list B) (a n : Z) :
  0 ≤ n → (length (Py.slice a (a + n) l) ≤ Z.to_nat n)%nat.
Proof.
  intros Hn. unfold Py.slice, Py.slice_index. rewrite length_drop, length_take.
  destruct (Z.ltb_spec a 0), (Z.ltb_spec (a + n) 0); lia.
Qed.

Lemma slice_sublist {B} (l : list B) (a b : Z) : Py.slice a b l `sublist_of` l.
Proof.
  unfold Py.slice. etrans; [apply sublist_drop|apply sublist_take].
Qed.

(** Whatever the size of the frame, the crop has at most [h] rows of at
    most [w] pixels, and every row of the crop is cut out of a row of the
    frame. *)
Theorem center_crop_within img (h w : Z) :
  0 ≤ h → 0 ≤ w →
  (length (center_crop img h w) ≤ Z.to_nat h)%nat ∧
  Forall (λ row, (length row ≤ Z.to_nat w)%nat ∧ ∃ row0, row0 ∈ img ∧ row `sublist_of` row0)
    (center_crop img h w).
Proof.
  intros Hh Hw. unfold center_crop. cbn zeta. split.
  - rewrite length_fmap. by apply slice_length.
  - apply Forall_fmap, Forall_forall. intros row0 Hin. simpl. split.
    + by apply slice_length.
    + exists row0. split; [|apply slice_sublist].
      eapply sublist_subseteq; [apply slice_sublist|done].
Qed.

(** The contract of the docstring: a crop that is no larger than the
    frame is the window of [h] rows and [w] columns around the centre. *)
Theorem center_crop_centered img (H W h w : nat) :
  length img = H → rows_of_width W img → (h ≤ H)%nat → (w ≤ W)%nat → (0 < h)%nat →
  window_at img (Z.of_nat H `div` 2 - Z.of_nat h `div` 2)
    (Z.of_nat W `div` 2 - Z.of_nat w `div` 2) h w
    (center_crop img (Z.of_nat h) (Z.of_nat w)).
Proof.
  intros HH HW Hh Hw Hpos.
  assert (img ≠ []) as Hne by (intros ->; simpl in HH; lia).
  unfold center_crop. rewrite (shape_rows img W Hne HW), HH. cbn [fst snd].
  set (top := (H / 2 - h / 2)%nat). set (left := (W / 2 - w / 2)%nat).
  assert (Z.of_nat H `div` 2 - Z.of_nat h `div` 2 = Z.of_nat top) as ->.
  { subst top. rewrite <- !(Nat2Z.inj_div _ 2), Nat2Z.inj_sub; [done|].
    by apply Nat.Div0.div_le_mono. }
  assert (Z.of_nat W `div` 2 - Z.of_nat w `div` 2 = Z.of_nat left) as ->.
  { subst left. rewrite <- !(Nat2Z.inj_div _ 2), Nat2Z.inj_sub; [done|].
    by apply Nat.Div0.div_le_mono. }
  assert (top + h ≤ H)%nat as Htop.
  { subst top. pose proof (Nat.div_mod_eq H 2). pose proof (Nat.mod_upper_bound H 2).
    pose proof (Nat.div_mod_eq h 2). pose proof (Nat.mod_upper_bound h 2). lia. }
  assert (left + w ≤ W)%nat as Hleft.
  { subst left. pose proof (Nat.div_mod_eq W 2). pose proof (Nat.mod_upper_bound W 2).
    pose proof (Nat.div_mod_eq w 2). pose proof (Nat.mod_upper_bound w 2). lia. }
  rewrite (slice_window img top h) by lia.
  assert (∀ row, row ∈ take h (drop top img) → length row = W) as Hrows.
  { intros row Hin. apply (proj1 (Forall_forall _ _) HW).
    by apply (subseteq_drop top img), (subseteq_take h (drop top img)). }
  split; [|split].
  - rewrite length_fmap, length_take, length_drop. lia.
  - apply Forall_fmap, Forall_forall. intros row Hin. simpl.
    rewrite (slice_window row left w) by (rewrite (Hrows row Hin); lia).
    rewrite length_take, length_drop, (Hrows row Hin). lia.
  - intros i j Hi Hj.
    rewrite list_lookup_fmap, lookup_take_lt by lia. rewrite lookup_drop.
    replace (Z.to_nat (Z.of_nat top + Z.of_nat i)) with (top + i)%nat by lia.
    replace (Z.to_nat (Z.of_nat left + Z.of_nat j)) with (left + j)%nat by lia.
    destruct (img !! (top + i)%nat) as [row|] eqn:Hrow; [|done]. simpl.
    assert (length row = W) as Hlen.
    { apply (proj1 (Forall_forall _ _) HW). by eapply list_elem_of_lookup_2. }
    rewrite (slice_window row left w) by lia.
    rewrite lookup_take_lt by lia. by rewrite lookup_drop.
Qed.

End CropMore.

Lemma center_crop_within_witness :
  (length (center_crop (replicate 100 (replicate 100 0)) 590 440) ≤ Z.to_nat 590)%nat ∧
  Forall (λ row, (length row ≤ Z.to_nat 440)%nat ∧
            ∃ row0, row0 ∈ replicate 100 (replicate 100 0) ∧ row `sublist_of` row0)
    (center_crop (replicate 100 (replicate 100 0)) 590 440).
Proof. apply (center_crop_within (replicate 100 (replicate 100 0)) 590 440); lia. Defined.

Lemma center_crop_centered_witness :
  window_at (replicate 6 (replicate 5 0)) (Z.of_nat 6 `div` 2 - Z.of_nat 2 `div` 2)
    (Z.of_nat 5 `div` 2 - Z.of_nat 3 `div` 2) 2 3
    (center_crop (replicate 6 (replicate 5 0)) (Z.of_nat 2) (Z.of_nat 3)).
Proof.
  apply (center_crop_centered (replicate 6 (replicate 5 0)) 6 5 2 3).
  - reflexivity.
  - apply Forall_replicate, length_replicate.
  - lia.
  - lia.
  - lia.
Defined.


(** * [copy_sixray_easy]: what the binary mode copies *)

Section SixrayEasy.

Context {C : Collaborators}.

Implicit Types (fs : node) (q : path) (name : string).

Lemma open_read_run p fs r fs' : open_read p fs = (r, fs') → fs' = fs.
Proof. intros Hrun. by rewrite <- (open_read_state p fs), Hrun. Qed.

Lemma crawl_ok root file_type fs : ∃ paths, crawl root file_type fs = (Ok paths, fs).
Proof. by eexists. Qed.

(** Sorting the images reads and changes nothing. *)
Lemma segregate_state xml_dir anomaly_classes files normal abnormal fs r fs' :
  segregate xml_dir anomaly_classes files normal abnormal fs = (r, fs') → fs' = fs.
Proof.
  revert normal abnormal. induction files as [|file files IH]; intros normal abnormal.
  - by intros [= _ <-].
  - cbn [segregate]. unfold mbind, io_bind.
    destruct (open_read (xml_of xml_dir file) fs) as [[s|e] fs0] eqn:Hread;
      apply open_read_run in Hread as ->; [|by intros [= _ <-]].
    destruct (mentions anomaly_classes s); apply IH.
Qed.

(** One annotation that cannot be read stops the sorting. *)
Lemma segregate_raises xml_dir anomaly_classes files normal abnormal fs file :
  file ∈ files → annotation_text xml_dir file fs = None →
  ∃ e, segregate xml_dir anomaly_classes files normal abnormal fs = (Raise e, fs).
Proof.
  intros Hin Hnone. revert normal abnormal.
  induction files as [|a files IH]; intros normal abnormal; [by apply elem_of_nil in Hin|].
  cbn [segregate]. unfold mbind, io_bind.
  destruct (open_read (xml_of xml_dir a) fs) as [[s|e] fs0] eqn:Hread.
  - pose proof (open_read_run _ _ _ _ Hread) as ->.
    apply elem_of_cons in Hin as [->|Hin].
    + revert Hread Hnone. unfold open_read, annotation_text, Fs.file_at.
      by destruct (Fs.resolve (xml_of xml_dir a) fs) as [[]|].
    + destruct (mentions anomaly_classes s); by apply IH.
  - apply open_read_run in Hread as ->. by exists e.
Qed.

(** In binary mode no file that exists is overwritten or removed, however
    the call ends. *)
Theorem copy_sixray_easy_keeps_existing sixray_path anomaly_dataset_path anomaly_classes
    fs r fs' q :
  copy_sixray_easy sixray_path anomaly_dataset_path (Some anomaly_classes) fs = (r, fs') →
  is_Some (Fs.file_at q fs) → Fs.file_at q fs' = Fs.file_at q fs.
Proof.
  unfold copy_sixray_easy. cbn zeta.
  destruct (crawl_ok (sixray_path ++ ["train"; "JPEGImages"]) ".jpg" fs) as [train Htrain].
  destruct (crawl_ok (sixray_path ++ ["test"; "JPEGImages"]) ".jpg" fs) as [test Htest].
  unfold mbind at 1, io_bind at 1. rewrite Htrain.
  unfold mbind at 1, io_bind at 1. rewrite Htest.
  unfold mbind at 1, io_bind at 1.
  destruct (segregate _ _ train [] [] fs) as [r1 fs1] eqn:Hseg1.
  apply segregate_state in Hseg1 as ->.
  destruct r1 as [[normal_train abnormal_train]|e1]; [|by intros [= _ <-]].
  unfold mbind at 1, io_bind at 1.
  destruct (segregate _ _ test [] [] fs) as [r2 fs2] eqn:Hseg2.
  apply segregate_state in Hseg2 as ->.
  destruct r2 as [[normal_test abnormal_test]|e2]; [|by intros [= _ <-]].
  intros Hrun Hq.
  assert (∀ src files dest fs1 r1 fs2,
            copy_files src files dest false false fs1 = (r1, fs2) →
            Fs.file_at q fs1 = Fs.file_at q fs → Fs.file_at q fs2 = Fs.file_at q fs) as Hstep.
  { intros src files dest fs1 r1 fs2 Hcopy Hsame. rewrite <- Hsame.
    eapply copy_files_existing; [done|]. by rewrite Hsame. }
  revert Hrun. unfold mbind, io_bind.
  destruct (copy_files _ _ _ false false fs) as [[[]|e1] fs1] eqn:Hcopy1;
    [|intros [= _ <-]; by eapply Hstep].
  pose proof (Hstep _ _ _ _ _ _ Hcopy1 eq_refl) as H1.
  destruct (copy_files _ _ _ false false fs1) as [[[]|e2] fs2] eqn:Hcopy2;
    [|intros [= _ <-]; by eapply Hstep].
  pose proof (Hstep _ _ _ _ _ _ Hcopy2 H1) as H2.
  destruct (copy_files _ _ _ false false fs2) as [[[]|e3] fs3] eqn:Hcopy3;
    [|intros [= _ <-]; by eapply Hstep].
  pose proof (Hstep _ _ _ _ _ _ Hcopy3 H2) as H3.
  intros Hcopy4. by eapply Hstep.
Qed.

Lemma basename_app root rel name : basename (root ++ rel ++ [name]) = name.
Proof. unfold basename. by rewrite app_assoc, last_snoc. Qed.

(** In binary mode every image needs its annotation file: one image
    below [JPEGImages], of the training or of the test part, whose annotation
    cannot be read makes the call fail before anything is copied. *)
Theorem copy_sixray_easy_needs_annotations sixray_path anomaly_dataset_path anomaly_classes
    fs part rel name :
  wf fs → part ∈ ["train"; "test"] →
  is_Some (Fs.file_at ((sixray_path ++ [part; "JPEGImages"]) ++ rel ++ [name]) fs) →
  Py.endswith name ".jpg" = true →
  Fs.file_at ((sixray_path ++ [part; "Annotations"]) ++ [Py.replace ".jpg" ".xml" name]) fs
    = None →
  ∃ e, copy_sixray_easy sixray_path anomaly_dataset_path (Some anomaly_classes) fs =
       (Raise e, fs).
Proof.
  intros Hwf Hpart Himage Hjpg Hxml. unfold copy_sixray_easy. cbn zeta.
  destruct (crawl_yields (sixray_path ++ ["train"; "JPEGImages"]) ".jpg" fs Hwf)
    as (train & Htrain & Hintrain).
  destruct (crawl_yields (sixray_path ++ ["test"; "JPEGImages"]) ".jpg" fs Hwf)
    as (test & Htest & Hintest).
  unfold mbind at 1, io_bind at 1. rewrite Htrain.
  unfold mbind at 1, io_bind at 1. rewrite Htest.
  unfold mbind at 1, io_bind at 1.
  assert (∀ root, annotation_text (sixray_path ++ [part; "Annotations"])
                    (root ++ rel ++ [name]) fs = None) as Hnone.
  { intros root. unfold annotation_text, xml_of. by rewrite basename_app. }
  apply elem_of_cons in Hpart as [->|Hpart].
  - destruct (segregate_raises (sixray_path ++ ["train"; "Annotations"]) anomaly_classes
                train [] [] fs _ (proj2 (Hintrain _) (ex_intro _ rel (ex_intro _ name
                  (conj eq_refl (conj Himage Hjpg))))) (Hnone _)) as [e ->].
    by exists e.
  - apply list_elem_of_singleton in Hpart as ->.
    destruct (segregate _ _ train [] [] fs) as [r1 fs1] eqn:Hseg1.
    apply segregate_state in Hseg1 as ->.
    destruct r1 as [[normal_train abnormal_train]|e1]; [|by exists e1].
    unfold mbind at 1, io_bind at 1.
    destruct (segregate_raises (sixray_path ++ ["test"; "Annotations"]) anomaly_classes
                test [] [] fs _ (proj2 (Hintest _) (ex_intro _ rel (ex_intro _ name
                  (conj eq_refl (conj Himage Hjpg))))) (Hnone _)) as [e ->].
    by exists e.
Qed.

(** Where the sorting puts an image whose annotation it could read. *)
Lemma segregate_sorted xml_dir anomaly_classes files :
  ∀ normal abnormal fs n a fs',
    segregate xml_dir anomaly_classes files normal abnormal fs = (Ok (n, a), fs') →
    normal ⊆ n ∧ abnormal ⊆ a ∧
    ∀ file s, file ∈ files → annotation_text xml_dir file fs = Some s →
      file ∈ (if mentions anomaly_classes s then a else n).
Proof.
  induction files as [|file0 files IH]; intros normal abnormal fs n a fs'.
  - intros [= <- <- _]. split; [done|]. split; [done|]. by intros file s ?%elem_of_nil.
  - cbn [segregate]. unfold mbind, io_bind.
    destruct (open_read (xml_of xml_dir file0) fs) as [[s0|e] fs0] eqn:Hread; [|done].
    pose proof (open_read_run _ _ _ _ Hread) as ->.
    assert (annotation_text xml_dir file0 fs = Some s0) as Hs0.
    { revert Hread. unfold open_read, annotation_text, Fs.file_at.
      destruct (Fs.resolve (xml_of xml_dir file0) fs) as [[]|]; by intros [= ->]. }
    destruct (mentions anomaly_classes s0) eqn:Hm; intros Hrun;
      destruct (IH _ _ _ _ _ _ Hrun) as (Hn & Ha & Hfiles).
    + split; [done|]. split; [by intros f Hf; apply Ha, elem_of_app; left|].
      intros file s [->|Hin]%elem_of_cons Hs; [|by apply Hfiles].
      rewrite Hs0 in Hs. injection Hs as <-. rewrite Hm.
      apply Ha, elem_of_app. right. by apply list_elem_of_singleton.
    + split; [by intros f Hf; apply Hn, elem_of_app; left|]. split; [done|].
      intros file s [->|Hin]%elem_of_cons Hs; [|by apply Hfiles].
      rewrite Hs0 in Hs. injection Hs as <-. rewrite Hm.
      apply Hn, elem_of_app. right. by apply list_elem_of_singleton.
Qed.

(** A name that is no regular file at the source leaves its place at the
    destination free. *)
Lemma copy_file_absent src dest overwrite file fs r fs' name :
  copy_file src dest false overwrite file fs = (r, fs') →
  Fs.file_at (src ++ [name]) fs = None ∧ ¬ present (dest ++ [name]) fs →
  Fs.file_at (src ++ [name]) fs' = None ∧ ¬ present (dest ++ [name]) fs'.
Proof.
  intros Hrun [Hnone Hfree]. destruct (decide (file = name)) as [->|Hne].
  - revert Hrun. unfold copy_file, mbind, io_bind, mret, io_ret, os_path_exists.
    cbn beta iota.
    destruct (Fs.resolve (dest ++ [name]) fs) as [n|e] eqn:Hdest; [destruct Hfree; by exists n|].
    cbn [andb]. rewrite os_path_isfile_true. rewrite bool_decide_eq_false_2.
    + intros [= _ <-]. split; [done|]. intros [n Hn]. congruence.
    + rewrite Hnone. by intros [? ?].
  - destruct (copy_file_other _ _ _ _ _ _ _ _ (dest ++ [name]) Hrun) as [_ ->];
      [by apply not_symmetry, snoc_ne|done|].
    split; [|done]. eapply copy_file_none; [done| |done]. by apply not_symmetry, snoc_ne.
Qed.

Lemma copy_files_absent src files dest overwrite fs r fs' name :
  copy_files src files dest false overwrite fs = (r, fs') →
  Fs.file_at (src ++ [name]) fs = None → ¬ present (dest ++ [name]) fs →
  ¬ present (dest ++ [name]) fs'.
Proof.
  unfold copy_files, mbind at 1, io_bind at 1. intros Hrun Hnone Hfree.
  pose proof (try_makedirs_file_at dest fs (src ++ [name])) as Hmade.
  pose proof (try_makedirs_present dest fs name) as Hmade'.
  destruct (try_pass (os_makedirs dest) fs) as [[[]|e] fs0] eqn:Htry; [|done].
  simpl in Hmade, Hmade'. rewrite <- Hmade in Hnone. rewrite <- Hmade' in Hfree.
  refine (proj2 (for_each_keeps
            (λ fs1 fs2,
               Fs.file_at (src ++ [name]) fs1 = None ∧ ¬ present (dest ++ [name]) fs1 →
               Fs.file_at (src ++ [name]) fs2 = None ∧ ¬ present (dest ++ [name]) fs2)
            (copy_file src dest false overwrite) files _ _ _ fs0 r fs' Hrun (conj Hnone Hfree))).
  - done.
  - intros fs1 fs2 fs3 H12 H23 H1. by apply H23, H12.
  - intros file fs1 r1 fs2 _ Hstep. by eapply copy_file_absent.
Qed.

Lemma app_two {B} (l : list B) (a b : B) : l ++ [a; b] = (l ++ [a]) ++ [b].
Proof. by rewrite <- app_assoc. Qed.

(** Paths that differ in one of their last three components. *)
Ltac tail_ne :=
  let Heq := fresh "Heq" in
  intros Heq; rewrite ?app_two in Heq;
  repeat (apply app_inj_tail in Heq as [Heq ?]; try done).

(** No place in a directory is one of the directories above it. *)
Ltac above_ne :=
  let Hdest := fresh "Hdest" in
  let Heq := fresh "Heq" in
  intros ? ? Hdest Heq; apply (f_equal length) in Hdest; apply (f_equal length) in Heq;
  rewrite !length_app in Hdest; rewrite !length_app in Heq; simpl in Hdest, Heq; lia.

(** Binary mode, when the call returns: an image that lies directly in
    [JPEGImages] of the training or of the test part, with an annotation that
    can be read, is copied with all its bytes to [test/1.abnormal] when the
    text of its annotation mentions an anomaly class, and to [0.normal] of
    its part otherwise, provided its name was free there and, for a test
    image, is not the name of a training image. *)
Theorem copy_sixray_easy_routes sixray_path anomaly_dataset_path anomaly_classes
    fs fs' part name bytes s :
  wf fs →
  copy_sixray_easy sixray_path anomaly_dataset_path (Some anomaly_classes) fs = (Ok tt, fs') →
  part ∈ ["train"; "test"] →
  Fs.file_at ((sixray_path ++ [part; "JPEGImages"]) ++ [name]) fs = Some bytes →
  Py.endswith name ".jpg" = true →
  Fs.file_at ((sixray_path ++ [part; "Annotations"]) ++ [Py.replace ".jpg" ".xml" name]) fs
    = Some s →
  (part = "test" →
   Fs.file_at ((sixray_path ++ ["train"; "JPEGImages"]) ++ [name]) fs = None) →
  ¬ present ((anomaly_dataset_path ++
                if mentions anomaly_classes s then ["test"; "1.abnormal"]
                else [part; "0.normal"]) ++ [name]) fs →
  Fs.file_at ((anomaly_dataset_path ++
                 if mentions anomaly_classes s then ["test"; "1.abnormal"]
                 else [part; "0.normal"]) ++ [name]) fs' = Some bytes.
Proof.
  intros Hwf Hrun Hpart Himage Hjpg Hxml Hclash Hfree. revert Hrun.
  unfold copy_sixray_easy. cbn zeta.
  destruct (crawl_yields (sixray_path ++ ["train"; "JPEGImages"]) ".jpg" fs Hwf)
    as (train & Htrain & Hintrain).
  destruct (crawl_yields (sixray_path ++ ["test"; "JPEGImages"]) ".jpg" fs Hwf)
    as (test & Htest & Hintest).
  unfold mbind at 1, io_bind at 1. rewrite Htrain.
  unfold mbind at 1, io_bind at 1. rewrite Htest.
  unfold mbind at 1, io_bind at 1.
  destruct (segregate _ _ train [] [] fs) as [r1 fs0] eqn:Hseg1.
  pose proof (segregate_state _ _ _ _ _ _ _ _ Hseg1) as ->.
  destruct r1 as [[normal_train abnormal_train]|e1]; [|done].
  unfold mbind at 1, io_bind at 1.
  destruct (segregate _ _ test [] [] fs) as [r2 fs0] eqn:Hseg2.
  pose proof (segregate_state _ _ _ _ _ _ _ _ Hseg2) as ->.
  destruct r2 as [[normal_test abnormal_test]|e2]; [|done].
  apply segregate_sorted in Hseg1 as (_ & _ & Hsorted1).
  apply segregate_sorted in Hseg2 as (_ & _ & Hsorted2).
  unfold mbind, io_bind.
  destruct (copy_files _ _ _ false false fs) as [[[]|e1] fs1] eqn:Hcopy1; [|done].
  destruct (copy_files _ _ _ false false fs1) as [[[]|e2] fs2] eqn:Hcopy2; [|done].
  destruct (copy_files _ _ _ false false fs2) as [[[]|e3] fs3] eqn:Hcopy3; [|done].
  intros Hcopy4.
  assert (∀ src files dest fsa r fsb q c,
            copy_files src files dest false false fsa = (r, fsb) →
            Fs.file_at q fsa = Some c → Fs.file_at q fsb = Some c) as Hkeep.
  { intros src files dest fsa r fsb q c Hcopy Hq. rewrite <- Hq.
    eapply copy_files_existing; [done|]. by rewrite Hq. }
  assert (∀ root, basename (root ++ [name]) = name) as Hbase.
  { intros root. exact (basename_app root [] name). }
  assert (∀ root, annotation_text (sixray_path ++ [part; "Annotations"]) (root ++ [name]) fs
                  = Some s) as Htext.
  { intros root. unfold annotation_text, xml_of. by rewrite Hbase. }
  assert (∀ (root : path) (l : list path), root ++ [name] ∈ l → name ∈ basename <$> l) as Hname.
  { intros root l Hin. apply list_elem_of_fmap. exists (root ++ [name]). by rewrite Hbase. }
  apply elem_of_cons in Hpart as [->|Hpart].
  - assert ((sixray_path ++ ["train"; "JPEGImages"]) ++ [name] ∈ train) as Hin.
    { apply Hintrain. exists [], name. split; [done|]. split; [by eexists|done]. }
    pose proof (Hsorted1 _ _ Hin (Htext _)) as Hlist.
    destruct (mentions anomaly_classes s).
    + assert (¬ present ((anomaly_dataset_path ++ ["test"; "1.abnormal"]) ++ [name]) fs1)
        as Hfree1.
      { rewrite (copy_files_elsewhere_present _ _ _ _ _ _ _ _ _ Hcopy1); [done|above_ne|].
        intros file _. split; [tail_ne|done]. }
      destruct (copy_files_delivered _ _ _ _ _ _ _ _ Hcopy2 (Hname _ _ Hlist)
                  (Hkeep _ _ _ _ _ _ _ _ Hcopy1 Himage) Hfree1) as [Harrived _].
      by eapply Hkeep, Hkeep.
    + destruct (copy_files_delivered _ _ _ _ _ _ _ _ Hcopy1 (Hname _ _ Hlist) Himage Hfree)
        as [Harrived _].
      by eapply Hkeep, Hkeep, Hkeep.
  - apply list_elem_of_singleton in Hpart as ->.
    assert ((sixray_path ++ ["test"; "JPEGImages"]) ++ [name] ∈ test) as Hin.
    { apply Hintest. exists [], name. split; [done|]. split; [by eexists|done]. }
    pose proof (Hsorted2 _ _ Hin (Htext _)) as Hlist.
    specialize (Hclash eq_refl).
    pose proof (Hkeep _ _ _ _ _ _ _ _ Hcopy2 (Hkeep _ _ _ _ _ _ _ _ Hcopy1 Himage)) as Himage2.
    destruct (mentions anomaly_classes s).
    + assert (¬ present ((anomaly_dataset_path ++ ["test"; "1.abnormal"]) ++ [name]) fs1)
        as Hfree1.
      { rewrite (copy_files_elsewhere_present _ _ _ _ _ _ _ _ _ Hcopy1); [done|above_ne|].
        intros file _. split; [tail_ne|done]. }
      assert (Fs.file_at ((sixray_path ++ ["train"; "JPEGImages"]) ++ [name]) fs1 = None)
        as Hclash1.
      { eapply copy_files_none; [done| |done]. intros file _. tail_ne. }
      pose proof (copy_files_absent _ _ _ _ _ _ _ _ Hcopy2 Hclash1 Hfree1) as Hfree2.
      assert (¬ present ((anomaly_dataset_path ++ ["test"; "1.abnormal"]) ++ [name]) fs3)
        as Hfree3.
      { rewrite (copy_files_elsewhere_present _ _ _ _ _ _ _ _ _ Hcopy3); [done|above_ne|].
        intros file _. split; [tail_ne|done]. }
      by destruct (copy_files_delivered _ _ _ _ _ _ _ _ Hcopy4 (Hname _ _ Hlist)
                     (Hkeep _ _ _ _ _ _ _ _ Hcopy3 Himage2) Hfree3).
    + assert (¬ present ((anomaly_dataset_path ++ ["test"; "0.normal"]) ++ [name]) fs2)
        as Hfree2.
      { rewrite (copy_files_elsewhere_present _ _ _ _ _ _ _ _ _ Hcopy2); [|above_ne|].
        - rewrite (copy_files_elsewhere_present _ _ _ _ _ _ _ _ _ Hcopy1); [done|above_ne|].
          intros file _. split; [tail_ne|done].
        - intros file _. split; [tail_ne|done]. }
      destruct (copy_files_delivered _ _ _ _ _ _ _ _ Hcopy3 (Hname _ _ Hlist) Himage2 Hfree2)
        as [Harrived _].
      by eapply Hkeep.
Qed.

End SixrayEasy.
Lemma copy_sixray_easy_keeps_existing_witness :
  Fs.file_at ["sixray"; "train"; "JPEGImages"; "P1.jpg"]
    (copy_sixray_easy (C := Demo.collaborators None) ["sixray"] ["dataset"] (Some ["gun"])
       Sample.sixray).2 =
  Fs.file_at ["sixray"; "train"; "JPEGImages"; "P1.jpg"] Sample.sixray.
Proof.
  eapply (copy_sixray_easy_keeps_existing (C := Demo.collaborators None) ["sixray"] ["dataset"]
            ["gun"] Sample.sixray).
  - apply surjective_pairing.
  - by eexists.
Defined.

Lemma copy_sixray_easy_needs_annotations_witness :
  ∃ e, copy_sixray_easy (C := Demo.collaborators None) ["sixray"] ["dataset"] (Some ["gun"])
         Sample.sixray_unannotated = (Raise e, Sample.sixray_unannotated).
Proof.
  apply (copy_sixray_easy_needs_annotations (C := Demo.collaborators None) ["sixray"] ["dataset"]
           ["gun"] Sample.sixray_unannotated "test" [] "P5.jpg").
  - repeat split; apply (bool_decide_unpack _); vm_compute; exact I.
  - apply elem_of_cons. right. apply elem_of_cons. by left.
  - by eexists.
  - reflexivity.
  - reflexivity.
Defined.

Lemma copy_sixray_easy_routes_witness :
  Fs.file_at ((["dataset"] ++ ["test"; "1.abnormal"]) ++ ["P1.jpg"])
    (copy_sixray_easy (C := Demo.collaborators None) ["sixray"] ["dataset"] (Some ["gun"])
       Sample.sixray).2 = Some "1".
Proof.
  apply (copy_sixray_easy_routes (C := Demo.collaborators None) ["sixray"] ["dataset"] ["gun"]
           Sample.sixray _ "train" "P1.jpg" "1" (Ex.annotation_xml "P1.jpg" ["gun"])).
  - repeat split; apply (bool_decide_unpack _); vm_compute; exact I.
  - vm_compute. reflexivity.
  - apply elem_of_cons. by left.
  - reflexivity.
  - reflexivity.
  - reflexivity.
  - discriminate.
  - intros [n Hn]. vm_compute in Hn. discriminate Hn.
Defined.


(** * [classify_files]: the keys of the dictionaries, and failure *)

Section BucketsMore.

Implicit Types (d : buckets) (cls : option string) (file : path).

Lemma keys_are_empty Q : keys_are Q ∅.
Proof. intros cls l Hl. by rewrite lookup_empty in Hl. Qed.

Lemma keys_are_append Q cls file d : Q cls → keys_are Q d → keys_are Q (bucket_append cls file d).
Proof.
  intros Hcls Hd cls' l. unfold bucket_append.
  destruct (decide (cls' = cls)) as [->|Hne].
  - rewrite lookup_insert_eq. intros [= <-]. split; [|done]. by intros [_ ?]%app_eq_nil.
  - rewrite lookup_insert_ne by done. apply Hd.
Qed.

Lemma foldl_keeps {B : Type} (P : buckets → Prop) (g : buckets → B → buckets) (l : list B) d :
  (∀ d c, c ∈ l → P d → P (g d c)) → P d → P (foldl g d l).
Proof.
  revert d. induction l as [|c l IH]; intros d Hg Hd; [done|]. simpl. apply IH.
  - intros d' c' Hin. apply Hg, elem_of_cons. by right.
  - apply Hg; [|done]. apply elem_of_cons. by left.
Qed.

(** One file keeps the keys apart: normal keys are no anomaly classes,
    abnormal keys are. *)
Lemma classify_file_keys anomaly_classes file info normal abnormal :
  keys_are (λ cls, cls ∉ Some <$> anomaly_classes) normal →
  keys_are (λ cls, cls ∈ Some <$> anomaly_classes) abnormal →
  keys_are (λ cls, cls ∉ Some <$> anomaly_classes)
    (classify_file anomaly_classes file info (normal, abnormal)).1 ∧
  keys_are (λ cls, cls ∈ Some <$> anomaly_classes)
    (classify_file anomaly_classes file info (normal, abnormal)).2.
Proof.
  intros Hnormal Habnormal. unfold classify_file.
  destruct (existsb _ anomaly_classes) eqn:Hany; cbn [fst snd].
  - split; [done|]. apply foldl_keeps; [|done]. intros d c _ Hd.
    case_bool_decide as Hc; [|done]. by apply keys_are_append.
  - split; [|done]. apply foldl_keeps; [|done]. intros d c Hc Hd.
    apply keys_are_append; [|done]. intros Hanomaly.
    apply not_true_iff_false in Hany. apply Hany, flagged_existsb.
    by eapply anomaly_class_flags.
Qed.

Lemma classify_from_keys xml_dir anomaly_classes files :
  ∀ normal abnormal fs normal' abnormal' fs',
    classify_from xml_dir anomaly_classes files (normal, abnormal) fs
      = (Ok (normal', abnormal'), fs') →
    keys_are (λ cls, cls ∉ Some <$> anomaly_classes) normal →
    keys_are (λ cls, cls ∈ Some <$> anomaly_classes) abnormal →
    keys_are (λ cls, cls ∉ Some <$> anomaly_classes) normal' ∧
    keys_are (λ cls, cls ∈ Some <$> anomaly_classes) abnormal'.
Proof.
  induction files as [|file files IH]; intros normal abnormal fs normal' abnormal' fs'.
  - by intros [= <- <- _].
  - cbn [classify_from]. unfold mbind, io_bind. rewrite parse_voc_xml_state.
    destruct (parse_voc_xml (xml_of xml_dir file) fs).1 as [info|e]; [|done].
    intros Hrun Hnormal Habnormal.
    destruct (classify_file_keys anomaly_classes file info _ _ Hnormal Habnormal) as [Hn Ha].
    destruct (classify_file anomaly_classes file info (normal, abnormal))
      as [normal1 abnormal1].
    by eapply IH.
Qed.

(** The dictionaries that [classify_files] returns have no key without
    files; the keys of the abnormal one are anomaly classes and the keys of
    the normal one are not. *)
Theorem classify_files_keys xml_dir files anomaly_classes fs normal abnormal fs' :
  classify_files xml_dir files anomaly_classes fs = (Ok (normal, abnormal), fs') →
  keys_are (λ cls, cls ∉ Some <$> anomaly_classes) normal ∧
  keys_are (λ cls, cls ∈ Some <$> anomaly_classes) abnormal.
Proof.
  intros Hrun. eapply classify_from_keys; [done|apply keys_are_empty..].
Qed.


End BucketsMore.

Lemma classify_files_keys_witness :
  ∃ normal abnormal : buckets,
    classify_files ["Annotations"] Ex.images ["gun"] Ex.sixray
      = (Ok (normal, abnormal), Ex.sixray) ∧
    keys_are (λ cls, cls ∉ Some <$> ["gun"]) normal ∧
    keys_are (λ cls, cls ∈ Some <$> ["gun"]) abnormal.
Proof.
  destruct (classify_files_lookup ["Annotations"] ["gun"] Ex.images Ex.sixray images_parse)
    as (normal & abnormal & Hrun & _).
  exists normal, abnormal. split; [exact Hrun|].
  exact (classify_files_keys ["Annotations"] Ex.images ["gun"] Ex.sixray normal abnormal
           Ex.sixray Hrun).
Defined.


From Stdlib Require DecimalNat.

(** * [export]: the images of the views *)

Section ViewNames.

Lemma list_ascii_of_append (s t : string) :
  list_ascii_of_string (s +:+ t) = list_ascii_of_string s ++ list_ascii_of_string t.
Proof. induction s as [|c s IH]; [done|]. simpl. by rewrite IH. Qed.

Lemma append_inj_l (s1 s2 t : string) : s1 +:+ t = s2 +:+ t → s1 = s2.
Proof.
  intros Heq. apply (f_equal list_ascii_of_string) in Heq.
  rewrite !list_ascii_of_append in Heq. apply app_inv_tail in Heq.
  rewrite <- (string_of_list_ascii_of_string s1), <- (string_of_list_ascii_of_string s2).
  by rewrite Heq.
Qed.

Lemma str_of_nat_inj (i j : nat) : Py.str_of_nat i = Py.str_of_nat j → i = j.
Proof.
  unfold Py.str_of_nat. intros Heq. apply (f_equal NilEmpty.uint_of_string) in Heq.
  rewrite !NilEmpty.usu in Heq. injection Heq as Heq.
  apply (f_equal Nat.of_uint) in Heq. by rewrite !DecimalNat.Unsigned.of_to in Heq.
Qed.

(** Different views have different file names. *)
Lemma view_name_inj hif_path (i j : nat) :
  view_name hif_path i = view_name hif_path j → i = j.
Proof.
  unfold view_name. intros Heq. apply String.app_inj in Heq. apply String.app_inj in Heq.
  by apply append_inj_l, str_of_nat_inj in Heq.
Qed.

End ViewNames.

Section ExportViews.

Context {C : Collaborators}.

Implicit Types (hif_path save_path q : path) (fs : node).

Lemma cv2_imwrite_present p img fs r fs' q :
  cv2_imwrite p img fs = (r, fs') → q ≠ p → present q fs' ↔ present q fs.
Proof.
  unfold cv2_imwrite. intros Hwrite Hne. destruct (_ || _); [by simplify_eq|].
  destruct (Fs.write p _ fs) as [fs1|] eqn:Hp; simplify_eq; [|done].
  by eapply present_write_ne.
Qed.

(** Writing into a directory leaves it a directory. *)
Lemma cv2_imwrite_dir dir name img fs r fs' es :
  cv2_imwrite (dir ++ [name]) img fs = (r, fs') → Fs.resolve dir fs = Ok (Dir es) →
  ∃ es', Fs.resolve dir fs' = Ok (Dir es').
Proof.
  unfold cv2_imwrite. intros Hwrite Hdir. destruct (_ || _); [simplify_eq; by eexists|].
  destruct (Fs.write _ _ fs) as [fs1|] eqn:Hp; simplify_eq; [|by eexists].
  unfold Fs.write in Hp. rewrite split_snoc in Hp.
  destruct (resolve_with_dir_in _ _ _ _ [] Hp) as (es0 & es1 & _ & Hat).
  rewrite app_nil_r in Hat. by exists es1.
Qed.

(** The round of a view whose name is free in the destination directory
    writes the image of the view. *)
Lemma export_view_writes hif_path save_path view_idx m fs fs' es :
  export_view hif_path save_path (view_idx, m) fs = (Ok tt, fs') →
  Fs.resolve save_path fs = Ok (Dir es) →
  ¬ present (save_path ++ [view_name hif_path view_idx]) fs →
  ∃ rgb, matlum_rgb m = Ok rgb ∧
    Fs.file_at (save_path ++ [view_name hif_path view_idx]) fs' =
    Some (imencode (if decide (view_idx = 0%nat) then center_crop rgb 590 440 else rgb)).
Proof.
  unfold export_view, mbind, io_bind, lift, cv2_imwrite.
  destruct (matlum_rgb m) as [rgb|]; [|done]. cbn beta iota. intros Hrun Hdir Hfree.
  exists rgb. split; [done|]. revert Hrun. destruct (_ || _); [done|].
  destruct (write_free save_path (view_name hif_path view_idx)
              (imencode (if decide (view_idx = 0%nat) then center_crop rgb 590 440 else rgb))
              fs es Hdir) as [fs1 Hwrite].
  - pose proof (resolve_snoc save_path (view_name hif_path view_idx) fs) as Hname.
    rewrite Hdir in Hname.
    destruct (Fs.lookup_entry (view_name hif_path view_idx) es) as [n|]; [|done].
    destruct Hfree. by exists n.
  - rewrite Hwrite. intros [= <-]. by apply file_at_write_eq in Hwrite.
Qed.

Lemma export_view_dir hif_path save_path iv fs r fs' es :
  export_view hif_path save_path iv fs = (r, fs') → Fs.resolve save_path fs = Ok (Dir es) →
  ∃ es', Fs.resolve save_path fs' = Ok (Dir es').
Proof.
  destruct iv as [view_idx m]. unfold export_view, mbind, io_bind, lift.
  destruct (matlum_rgb m) as [rgb|]; [|intros [= _ <-] ?; by eexists]. cbn beta iota.
  intros Hrun Hdir.
  destruct (cv2_imwrite _ _ fs) as [[written|e] fs1] eqn:Hwrite;
    unfold mret, io_ret in Hrun; simplify_eq; by eapply cv2_imwrite_dir.
Qed.

Lemma export_view_present hif_path save_path iv fs r fs' q :
  export_view hif_path save_path iv fs = (r, fs') →
  q ≠ save_path ++ [view_name hif_path iv.1] → present q fs' ↔ present q fs.
Proof.
  destruct iv as [view_idx m]. unfold export_view, mbind, io_bind, lift. simpl.
  destruct (matlum_rgb m) as [rgb|]; [|by intros [= _ <-]].
  intros Hrun Hne.
  destruct (cv2_imwrite _ _ fs) as [[written|e] fs1] eqn:Hwrite;
    unfold mret, io_ret in Hrun; simplify_eq; by eapply cv2_imwrite_present.
Qed.

(** The loop over the views, from view [first] on. *)
Lemma export_views_write hif_path save_path views :
  ∀ first fs fs' es i m,
    for_each (zip (seq first (length views)) views) (export_view hif_path save_path) fs
      = (Ok tt, fs') →
    Fs.resolve save_path fs = Ok (Dir es) →
    views !! i = Some m →
    ¬ present (save_path ++ [view_name hif_path (first + i)]) fs →
    ∃ rgb, matlum_rgb m = Ok rgb ∧
      Fs.file_at (save_path ++ [view_name hif_path (first + i)]) fs' =
      Some (imencode (if decide ((first + i)%nat = 0%nat)
                      then center_crop rgb 590 440 else rgb)).
Proof.
  induction views as [|v views IH]; intros first fs fs' es i m Hrun Hdir Hi Hfree; [done|].
  cbn [length seq zip zip_with for_each] in Hrun. unfold mbind at 1, io_bind at 1 in Hrun.
  destruct (export_view hif_path save_path (first, v) fs) as [[[]|e] fs1] eqn:Hview; [|done].
  destruct i as [|i].
  - injection Hi as ->. rewrite Nat.add_0_r in Hfree |- *.
    destruct (export_view_writes _ _ _ _ _ _ _ Hview Hdir Hfree) as (rgb & Hrgb & Hfile).
    exists rgb. split; [done|]. rewrite <- Hfile.
    refine (for_each_keeps
              (λ fs2 fs3, Fs.file_at (save_path ++ [view_name hif_path first]) fs3 =
                          Fs.file_at (save_path ++ [view_name hif_path first]) fs2)
              (export_view hif_path save_path) _ _ _ _ fs1 _ fs' Hrun).
    + done.
    + intros fs2 fs3 fs4 H23 H34. by rewrite H34.
    + intros [j mj] fs2 r2 fs3 Hin Hround. eapply export_view_other; [done|].
      apply elem_of_zip_l, elem_of_seq in Hin. simpl.
      intros Heq. apply app_inj_tail in Heq as [_ Heq]. apply view_name_inj in Heq. lia.
  - simpl in Hi. destruct (export_view_dir _ _ _ _ _ _ _ Hview Hdir) as [es1 Hdir1].
    replace (first + S i)%nat with (S first + i)%nat in Hfree |- * by lia.
    apply (IH (S first) fs1 fs' es1 i m Hrun Hdir1 Hi).
    rewrite (export_view_present _ _ _ _ _ _ _ Hview); [done|]. simpl.
    intros Heq. apply app_inj_tail in Heq as [_ Heq]. apply view_name_inj in Heq. lia.
Qed.

(** A first export into a directory: when [export] returns, its result is
    the number of views of the container, and every view whose name was free
    in the directory has its image there, the image of view 0 cropped and
    the others whole; no view overwrites the image of another. *)
Theorem export_writes_views hif_path save_path fs n fs' es bytes views view_idx m :
  ¬ exported_before hif_path save_path fs →
  Fs.resolve save_path fs = Ok (Dir es) →
  Fs.file_at hif_path fs = Some bytes → hif_sections bytes = Ok views →
  export hif_path save_path fs = (Ok n, fs') →
  views !! view_idx = Some m →
  ¬ present (save_path ++ [view_name hif_path view_idx]) fs →
  n = length views ∧
  ∃ rgb, matlum_rgb m = Ok rgb ∧
    Fs.file_at (save_path ++ [view_name hif_path view_idx]) fs' =
    Some (imencode (if decide (view_idx = 0%nat) then center_crop rgb 590 440 else rgb)).
Proof.
  intros Hfresh Hdir Hhif Hviews Hrun Hview Hfree.
  rewrite (export_fresh _ _ _ Hfresh), (open_read_file _ _ _ Hhif), Hviews in Hrun.
  destruct (for_each _ _ fs) as [[[]|e] fs1] eqn:Hloop; [|done]. simplify_eq.
  split; [done|]. by apply (export_views_write _ _ _ 0%nat _ _ _ _ _ Hloop Hdir Hview).
Qed.

End ExportViews.

Lemma export_writes_views_witness :
  2%nat = length ["x"%char; "y"%char] ∧
  ∃ rgb, matlum_rgb (Collaborators := Demo.collaborators None) "y"%char = Ok rgb ∧
    Fs.file_at (["out2"] ++ [view_name ["in"; "a.hif"] 1])
      (export (C := Demo.collaborators None) ["in"; "a.hif"] ["out2"] Sample.to_export).2 =
    Some (imencode (Collaborators := Demo.collaborators None)
            (if decide (1%nat = 0%nat) then center_crop rgb 590 440 else rgb)).
Proof.
  apply (export_writes_views (C := Demo.collaborators None) ["in"; "a.hif"] ["out2"]
           Sample.to_export 2 _ [] "xy" ["x"%char; "y"%char] 1 "y"%char).
  - intros [[n Hn]|[[n Hn]|[n Hn]]]; discriminate Hn.
  - reflexivity.
  - reflexivity.
  - reflexivity.
  - vm_compute. reflexivity.
  - reflexivity.
  - intros [n Hn]. discriminate Hn.
Defined.


(** * [copy_files]: when it cannot fail *)

Section CopySucceeds.

Context {C : Collaborators}.

Implicit Types (es : entries) (n fs : node) (p q dir src dest : path) (name file : string).

(** A rewrite of the entries of one directory that keeps the entries
    that are directories keeps every directory of the tree a directory. *)
Lemma dir_with_dir dir f :
  (∀ es0 es0' k child,
     f es0 = Ok es0' → Fs.lookup_entry k es0 = Some child → (∀ c, child ≠ File c) →
     Fs.lookup_entry k es0' = Some child) →
  ∀ n n' q es,
    Fs.with_dir dir f n = Ok n' → Fs.resolve q n = Ok (Dir es) →
    ∃ es', Fs.resolve q n' = Ok (Dir es').
Proof.
  intros Hf. induction dir as [|c dir IH]; intros n n' q es Hwith Hq.
  - destruct n as [|es0]; [done|]. simpl in Hwith.
    destruct (f es0) as [es0'|] eqn:Hes0; simplify_eq/=.
    destruct q as [|k q]; [by eexists|]. simpl in *.
    destruct (Fs.lookup_entry k es0) as [child|] eqn:Hk; [|done].
    rewrite (Hf _ _ _ _ Hes0 Hk); [by eexists|].
    intros c ->. by destruct q.
  - destruct n as [|es0]; [done|]. simpl in Hwith.
    destruct (Fs.lookup_entry c es0) as [child|] eqn:Hc; [|done].
    destruct (Fs.with_dir dir f child) as [child'|] eqn:Hrec; simplify_eq/=.
    destruct q as [|k q]; [by eexists|]. simpl in *.
    rewrite lookup_set_entry. case_decide as Hk; [|by eexists].
    subst k. rewrite Hc in Hq. by eapply IH.
Qed.

Lemma write_keeps_dir p bytes fs fs' q es :
  Fs.write p bytes fs = Ok fs' → Fs.resolve q fs = Ok (Dir es) →
  ∃ es', Fs.resolve q fs' = Ok (Dir es').
Proof.
  unfold Fs.write. destruct (Fs.split p) as [[dir name]|]; [|done].
  apply dir_with_dir. intros es0 es0' k child Hes0 Hk Hdir.
  assert (es0' = Fs.set_entry name (File bytes) es0 ∧
          ∀ es1, Fs.lookup_entry name es0 ≠ Some (Dir es1)) as [-> Hname].
  { destruct (Fs.lookup_entry name es0) as [[|]|]; by simplify_eq. }
  rewrite lookup_set_entry. case_decide as Heq; [|done]. subst k.
  destruct child as [c|es1]; [by destruct (Hdir c)|by destruct (Hname es1)].
Qed.

Lemma remove_keeps_dir p fs fs' q es :
  Fs.remove p fs = Ok fs' → Fs.resolve q fs = Ok (Dir es) →
  ∃ es', Fs.resolve q fs' = Ok (Dir es').
Proof.
  unfold Fs.remove. destruct (Fs.split p) as [[dir name]|]; [|done].
  apply dir_with_dir. intros es0 es0' k child Hes0 Hk Hdir.
  destruct (Fs.lookup_entry name es0) as [[c|]|] eqn:Hname; simplify_eq.
  rewrite lookup_del_entry. case_decide as Heq; [|done]. subst k.
  rewrite Hname in Hk. simplify_eq. by destruct (Hdir c).
Qed.

Lemma mkdir_keeps_dir p fs fs' q es :
  Fs.mkdir p fs = Ok fs' → Fs.resolve q fs = Ok (Dir es) →
  ∃ es', Fs.resolve q fs' = Ok (Dir es').
Proof.
  unfold Fs.mkdir. destruct (Fs.split p) as [[dir name]|]; [|done].
  apply dir_with_dir. intros es0 es0' k child Hes0 Hk Hdir.
  destruct (Fs.lookup_entry name es0) as [|] eqn:Hname; simplify_eq.
  rewrite lookup_set_entry. case_decide as Heq; [|done]. subst k. congruence.
Qed.

(** A regular file can be removed. *)
Lemma remove_file dir name fs bytes :
  Fs.file_at (dir ++ [name]) fs = Some bytes → ∃ fs', Fs.remove (dir ++ [name]) fs = Ok fs'.
Proof.
  intros Hfile. destruct (proj1 (file_at_snoc dir name fs)) as (es & c & Hdir & Hname);
    [by eexists|].
  unfold Fs.remove. rewrite split_snoc.
  eapply with_dir_resolve; [done|]. by rewrite Hname.
Qed.

(** [os.mkdir] in a directory, under a name that is free or names a
    directory: the directory is there afterwards, made or found. *)
Lemma os_mkdir_makes dir name fs es :
  Fs.resolve dir fs = Ok (Dir es) → Fs.file_at (dir ++ [name]) fs = None →
  ∃ es', Fs.resolve (dir ++ [name]) (os_mkdir (dir ++ [name]) fs).2 = Ok (Dir es').
Proof.
  intros Hdir Hfile. unfold os_mkdir, modify, Fs.mkdir. rewrite split_snoc.
  destruct (Fs.lookup_entry name es) as [child|] eqn:Hname.
  - assert (Fs.resolve (dir ++ [name]) fs = Ok child) as Hchild.
    { by rewrite resolve_snoc, Hdir, Hname. }
    assert (∃ es', child = Dir es') as [es' ->].
    { destruct child as [c|es']; [|by eexists].
      unfold Fs.file_at in Hfile. by rewrite Hchild in Hfile. }
    destruct (Fs.with_dir dir _ fs) as [fs1|] eqn:Hwith; [|by exists es'].
    destruct (resolve_with_dir_in _ _ _ _ [name] Hwith) as (es0 & es0' & Hf & Hat).
    cbn [snd]. rewrite Hat. destruct (Fs.lookup_entry name es0) eqn:H0; simplify_eq.
    simpl. rewrite lookup_set_entry, decide_True by done. by eexists.
  - destruct (with_dir_resolve dir
                (λ es0, match Fs.lookup_entry name es0 with
                        | Some _ => Raise FileExistsError
                        | None => Ok (Fs.set_entry name (Dir []) es0)
                        end) fs es (Fs.set_entry name (Dir []) es) Hdir) as [fs1 Hwith].
    { by rewrite Hname. }
    rewrite Hwith. cbn [snd].
    destruct (resolve_with_dir_in _ _ _ _ [name] Hwith) as (es0 & es0' & Hf & Hat).
    rewrite Hat. destruct (Fs.lookup_entry name es0) eqn:H0; simplify_eq.
    simpl. rewrite lookup_set_entry, decide_True by done. by eexists.
Qed.

(** [os.makedirs] makes the directory, or finds it, unless a regular file
    is in the way. *)
Lemma makedirs_from_makes rest :
  ∀ head fs es,
    Fs.resolve head fs = Ok (Dir es) →
    (∀ rest1 rest2, rest = rest1 ++ rest2 → Fs.file_at (head ++ rest1) fs = None) →
    ∃ es', Fs.resolve (head ++ rest) (makedirs_from head rest fs).2 = Ok (Dir es').
Proof.
  induction rest as [|name rest IH]; intros head fs es Hhead Hfree.
  { rewrite app_nil_r. cbn [makedirs_from]. unfold os_mkdir, modify.
    destruct (Fs.mkdir head fs) as [fs1|] eqn:Hmk; [|by eexists].
    by eapply mkdir_keeps_dir. }
  assert (Fs.file_at (head ++ [name]) fs = None) as Hname by apply (Hfree [name] rest eq_refl).
  destruct rest as [|name' rest]; [by eapply os_mkdir_makes|].
  cbn [makedirs_from]. unfold mbind, io_bind, os_path_exists. cbn beta iota.
  replace (head ++ name :: name' :: rest) with ((head ++ [name]) ++ name' :: rest)
    by by rewrite <- app_assoc.
  destruct (Fs.resolve (head ++ [name]) fs) as [child|e] eqn:Hthere; cbn beta iota.
  - destruct child as [c|es1]; [by unfold Fs.file_at in Hname; rewrite Hthere in Hname|].
    apply (IH _ _ es1 Hthere). intros rest1 rest2 Hrest. rewrite <- app_assoc.
    apply (Hfree (name :: rest1) rest2). simpl. by rewrite Hrest.
  - destruct (os_mkdir_makes head name fs es Hhead Hname) as [es1 Hmade].
    pose proof (λ q, file_at_mkdir (head ++ [name]) fs (os_mkdir (head ++ [name]) fs).2 q)
      as Hsame.
    revert Hmade Hsame. unfold os_mkdir, modify.
    destruct (Fs.mkdir (head ++ [name]) fs) as [fs1|e1] eqn:Hmk; cbn [snd]; intros Hmade Hsame.
    + apply (IH _ _ es1 Hmade). intros rest1 rest2 Hrest. rewrite Hsame by done.
      rewrite <- app_assoc. apply (Hfree (name :: rest1) rest2). simpl. by rewrite Hrest.
    + congruence.
Qed.

(** One round, with the destination directory in place and a copy that
    does not break. *)
Lemma copy_file_succeeds src dest delete_at_source file fs es :
  (∀ s d, copy_fault s d = None) →
  Fs.resolve dest fs = Ok (Dir es) →
  ∃ fs' es', copy_file src dest delete_at_source false file fs = (Ok tt, fs') ∧
    Fs.resolve dest fs' = Ok (Dir es').
Proof.
  intros Hsound Hdest. unfold copy_file, mbind, io_bind, mret, io_ret, os_path_exists.
  cbn beta iota. rewrite resolve_snoc, Hdest.
  destruct (Fs.lookup_entry file es) as [child|] eqn:Hfile; [by exists fs, es|].
  cbn [andb negb]. rewrite os_path_isfile_true.
  case_bool_decide as Hsrc; [|by exists fs, es]. destruct Hsrc as [bytes Hsrc].
  unfold shutil_copyfile.
  assert (Fs.resolve (src ++ [file]) fs = Ok (File bytes)) as ->.
  { revert Hsrc. unfold Fs.file_at.
    by destruct (Fs.resolve (src ++ [file]) fs) as [[]|]; intros [= ->]. }
  destruct (decide (src ++ [file] = dest ++ [file])) as [Heq|Hne].
  { apply app_inj_tail in Heq as [-> _].
    revert Hsrc. unfold Fs.file_at. by rewrite resolve_snoc, Hdest, Hfile. }
  rewrite Hsound. unfold modify.
  destruct (write_free dest file bytes fs es Hdest Hfile) as [fs1 Hwrite]. rewrite Hwrite.
  destruct (write_keeps_dir _ _ _ _ _ _ Hwrite Hdest) as [es1 Hdest1].
  destruct delete_at_source; [|by exists fs1, es1].
  assert (Fs.file_at (src ++ [file]) fs1 = Some bytes) as Hsrc1.
  { rewrite <- Hsrc. by eapply file_at_write_ne. }
  destruct (remove_file _ _ _ _ Hsrc1) as [fs2 Hremove].
  unfold os_remove, modify. rewrite Hremove.
  destruct (remove_keeps_dir _ _ _ _ _ Hremove Hdest1) as [es2 Hdest2].
  by exists fs2, es2.
Qed.

(** Without [overwrite], [copy_files] returns whenever no regular file is
    in the way of the destination directory and no copy breaks: it raises
    for no other reason. *)
Theorem copy_files_succeeds src files dest delete_at_source fs :
  (∀ s d, copy_fault s d = None) →
  (∀ p, p `prefix_of` dest → Fs.file_at p fs = None) →
  (copy_files src files dest delete_at_source false fs).1 = Ok tt.
Proof.
  intros Hsound Hfree. unfold copy_files, mbind at 1, io_bind at 1, try_pass, os_makedirs.
  assert (∃ es, Fs.resolve [] fs = Ok (Dir es)) as [es Hroot].
  { specialize (Hfree [] (prefix_nil dest)). destruct fs as [c|es]; [done|by exists es]. }
  destruct (makedirs_from_makes dest [] fs es Hroot) as [es0 Hdest].
  { intros rest1 rest2 ->. apply Hfree. by exists rest2. }
  simpl in Hdest. revert Hdest. generalize (makedirs_from [] dest fs).2. clear Hroot Hfree es.
  intros fs0. revert fs0 es0.
  induction files as [|file files IH]; intros fs0 es0 Hdest; [done|].
  cbn [for_each]. unfold mbind, io_bind.
  destruct (copy_file_succeeds src dest delete_at_source file fs0 es0 Hsound Hdest)
    as (fs1 & es1 & -> & Hdest1).
  by apply (IH fs1 es1).
Qed.

End CopySucceeds.

Lemma copy_files_succeeds_witness :
  (copy_files (C := Demo.collaborators None) ["exported"; "train"] ["a.jpg"]
     ["dataset"; "train"; "0.normal"] true false Sample.sd3).1 = Ok tt.
Proof.
  apply (copy_files_succeeds (C := Demo.collaborators None) ["exported"; "train"] ["a.jpg"]
           ["dataset"; "train"; "0.normal"] true Sample.sd3).
  - reflexivity.
  - intros p [rest Hp].
    destruct p as [|a [|b [|c [|d p]]]]; simplify_eq/=; reflexivity.
Defined.


(** * [export_sd3_hif_form_dir] with [remove_before_export] *)

Section ExportDirRemove.

Context {C : Collaborators}.

Implicit Types (hif_path save_path q : path) (fs : node).

(** [export] makes nothing but the images of its views. *)
Lemma export_present hif_path save_path fs r fs' q :
  export hif_path save_path fs = (r, fs') →
  (∀ view_idx, q ≠ save_path ++ [view_name hif_path view_idx]) →
  present q fs' ↔ present q fs.
Proof.
  intros Hrun Hq.
  destruct (classic_exported hif_path save_path fs) as [Hbefore|Hfresh].
  { rewrite (export_returns_at_once _ _ _ Hbefore) in Hrun. by simplify_eq. }
  rewrite (export_fresh _ _ _ Hfresh) in Hrun.
  pose proof (open_read_state hif_path fs) as Hread.
  destruct (open_read hif_path fs) as [[bytes|e] fs0]; simpl in Hread; subst fs0;
    [|by simplify_eq].
  destruct (hif_sections bytes) as [views_matlum|e]; [|by simplify_eq].
  destruct (for_each _ _ fs) as [r1 fs1] eqn:Hloop.
  assert (present q fs1 ↔ present q fs) as Hsame.
  { refine (for_each_keeps (λ fs2 fs3, present q fs3 ↔ present q fs2)
              (export_view hif_path save_path) _ _ _ _ fs r1 fs1 Hloop).
    - done.
    - intros fs2 fs3 fs4 H23 H34. by rewrite H34.
    - intros iv fs2 r2 fs3 _ Hview. by eapply export_view_present. }
  destruct r1 as [[]|e]; by simplify_eq.
Qed.

Lemma export_each_present files img_export_path counter fs r fs' q :
  export_each files img_export_path counter fs = (r, fs') →
  (∀ name, q ≠ img_export_path ++ [name]) →
  present q fs' ↔ present q fs.
Proof.
  intros Hrun Hq. revert counter fs Hrun.
  induction files as [|path files IH]; intros counter fs Hrun.
  - simpl in Hrun. unfold mret, io_ret in Hrun. by simplify_eq.
  - cbn [export_each] in Hrun. unfold mbind, io_bind in Hrun.
    destruct (export path img_export_path fs) as [[exported|e] fs1] eqn:Hexport.
    + rewrite (IH _ _ Hrun). by eapply export_present.
    + simplify_eq. by eapply export_present.
Qed.

(** With [remove_before_export] set, nothing lies below the first level of
    the export directory afterwards, however the call ends: the [train] and
    [test] directories of an earlier split, which would make [export] skip
    a container, are gone with all their images. *)
Theorem export_dir_removes_split hif_path img_export_path fs r fs' sub name rest :
  export_sd3_hif_form_dir hif_path img_export_path true fs = (r, fs') →
  ¬ present (img_export_path ++ sub :: name :: rest) fs'.
Proof.
  unfold export_sd3_hif_form_dir. unfold mbind at 1, io_bind at 1.
  destruct (shutil_rmtree img_export_path fs) as [r0 fs0] eqn:Hrm.
  destruct (shutil_rmtree_below _ _ _ _ (sub :: name :: rest) Hrm I []) as [_ Hgone].
  specialize (Hgone ltac:(done)).
  destruct r0 as [[]|e0]; [|by intros [= _ <-]].
  assert (img_export_path ++ sub :: name :: rest ≠ img_export_path) as Hdeep.
  { intros Heq. apply (f_equal length) in Heq. rewrite length_app in Heq. simpl in Heq. lia. }
  assert (∀ leaf, img_export_path ++ sub :: name :: rest ≠ img_export_path ++ [leaf]) as Hdeep'.
  { intros leaf Heq. by apply app_inv_head in Heq. }
  unfold mbind at 1, io_bind at 1, try_pass at 1.
  assert (¬ present (img_export_path ++ sub :: name :: rest) (os_mkdir img_export_path fs0).2)
    as Hmade.
  { unfold os_mkdir, modify.
    destruct (Fs.mkdir img_export_path fs0) as [fs1|] eqn:Hp; [|done]. cbn [snd].
    by rewrite (present_mkdir_ne _ _ _ _ Hp Hdeep). }
  destruct (os_mkdir img_export_path fs0) as [r1 fs1]. cbn [snd] in Hmade |- *.
  unfold mbind at 1, io_bind at 1.
  pose proof (crawl_state hif_path ".hif" fs1) as Hcrawl.
  destruct (crawl hif_path ".hif" fs1) as [[files|e] fs2]; simpl in Hcrawl; subst fs2;
    [|by intros [= _ <-]].
  unfold mbind at 1, io_bind at 1.
  destruct (export_each files img_export_path 0 fs1) as [r2 fs2] eqn:Heach.
  rewrite <- (export_each_present _ _ _ _ _ _ _ Heach Hdeep') in Hmade.
  destruct r2 as [counter|e]; by intros [= _ <-].
Qed.

End ExportDirRemove.

Lemma export_dir_removes_split_witness :
  ¬ present (["bags"; "exported"] ++ "train" :: "a.hif-0.jpg" :: [])
      (export_sd3_hif_form_dir (C := Demo.collaborators None) ["bags"] ["bags"; "exported"] true
         Sample.split_before).2.
Proof.
  eapply (export_dir_removes_split (C := Demo.collaborators None) ["bags"] ["bags"; "exported"]
            Sample.split_before).
  apply surjective_pairing.
Defined.


(** * [split_exported_sd3_hif]: [discard] as a count *)

Section SplitCount.

Context {C : Collaborators}.

Lemma upto_nonneg {B : Type} (k : Z) (l : list B) : 0 ≤ k → Py.upto k l = take (Z.to_nat k) l.
Proof.
  intros Hk. unfold Py.upto, Py.slice_index.
  destruct (Z.ltb_spec k 0) as [?|_]; [lia|].
  destruct (decide (Z.to_nat k ≤ length l)%nat) as [Hle|Hgt].
  - f_equal. lia.
  - rewrite !take_ge; [done|lia..].
Qed.

(** With [discard >= 1] the number is not the number of images that are
    discarded but the number that are kept: the two halves together are the
    first [int(discard)] files of the shuffled listing, all of them when
    there are fewer, and no file is marked for deletion. *)
Theorem split_lists_count_keeps `{!ShufflePermutes C}
    listing portion discard first_half second_half files2del :
  (discard <? 1)%float = false →
  split_lists listing portion discard = Ok (first_half, second_half, files2del) →
  ∃ k, Py.int_of_float discard = Ok k ∧
    first_half ++ second_half = take (Z.to_nat k) (shuffle 50 (shuffle 47 listing)) ∧
    length (first_half ++ second_half) = (Z.to_nat k `min` length listing)%nat ∧
    files2del = [].
Proof.
  intros Hcount Hsplit.
  pose proof (split_lists_count_deletes_nothing _ _ _ _ _ _ Hcount Hsplit) as ->.
  revert Hsplit. unfold split_lists, assert, mbind, result_bind. rewrite Hcount.
  destruct (0 <? discard)%float eqn:Habove; [|done].
  destruct (Py.int_of_float discard) as [k|] eqn:Hk; [|done].
  pose proof (int_of_float_above_zero _ _ Habove Hk) as Hnonneg.
  destruct (Py.int_of_float (_ * portion)) as [half|]; [|done]. intros [= <- <- _].
  exists k. split; [done|]. rewrite upto_from, upto_nonneg by done.
  split; [done|]. split; [|done].
  by rewrite length_take, !shuffle_perm.
Qed.

End SplitCount.

Lemma split_lists_count_keeps_witness :
  ∃ k, Py.int_of_float 3 = Ok k ∧
    [] ++ ["d.jpg"; "c.jpg"; "b.jpg"] =
      take (Z.to_nat k)
        (shuffle (Collaborators := Demo.collaborators None) 50
           (shuffle (Collaborators := Demo.collaborators None) 47
              ["d.jpg"; "c.jpg"; "b.jpg"; "a.jpg"])) ∧
    length ([] ++ ["d.jpg"; "c.jpg"; "b.jpg"]) =
      (Z.to_nat k `min` length ["d.jpg"; "c.jpg"; "b.jpg"; "a.jpg"])%nat ∧
    [] = ([] : list string).
Proof.
  apply (split_lists_count_keeps (C := Demo.collaborators None)
           (ShufflePermutes0 := demo_shuffle_permutes None)
           ["d.jpg"; "c.jpg"; "b.jpg"; "a.jpg"] 0 3 [] ["d.jpg"; "c.jpg"; "b.jpg"] []).
  - vm_compute. reflexivity.
  - vm_compute. reflexivity.
Defined.


(** * [parse_voc_xml]: the elements it looks at *)

Section VocElements.

Implicit Types (e extra : ET.element) (kids : list ET.element).

(** A search that starts with a tag other than that of [extra] does not
    see [extra] among the children. *)
Lemma findall_ignores t x kids1 extra kids2 name path :
  ET.tag extra ≠ name →
  ET.findall (name :: path) (ET.Element t x (kids1 ++ extra :: kids2)) =
  ET.findall (name :: path) (ET.Element t x (kids1 ++ kids2)).
Proof.
  intros Hne. unfold ET.findall. cbn [foldl flat_map ET.children]. f_equal.
  rewrite !app_nil_r, !List.filter_app. f_equal. cbn [List.filter].
  by rewrite bool_decide_eq_false_2.
Qed.

Lemma find_text_ignores t x kids1 extra kids2 name path :
  ET.tag extra ≠ name →
  find_text (name :: path) (ET.Element t x (kids1 ++ extra :: kids2)) =
  find_text (name :: path) (ET.Element t x (kids1 ++ kids2)).
Proof. intros Hne. unfold find_text, ET.find. by rewrite findall_ignores. Qed.

Lemma find_int_ignores t x kids1 extra kids2 name path :
  ET.tag extra ≠ name →
  find_int (name :: path) (ET.Element t x (kids1 ++ extra :: kids2)) =
  find_int (name :: path) (ET.Element t x (kids1 ++ kids2)).
Proof. intros Hne. unfold find_int. by rewrite find_text_ignores. Qed.

(** Only the [filename], [size] and [object] children of the root, and
    only the [name] and [bndbox] children of an object, are looked at: any
    other element (a [folder], a [source], the [pose] of an object) can be
    there or not, the outcome is the same. *)
Theorem parse_voc_xml_ignores_others t x kids1 extra kids2 :
  (ET.tag extra ∉ ["filename"; "size"; "object"] →
   voc_of_root (ET.Element t x (kids1 ++ extra :: kids2)) =
   voc_of_root (ET.Element t x (kids1 ++ kids2))) ∧
  (ET.tag extra ∉ ["name"; "bndbox"] →
   object_info (ET.Element t x (kids1 ++ extra :: kids2)) =
   object_info (ET.Element t x (kids1 ++ kids2))).
Proof.
  split; intros Hextra.
  - unfold voc_of_root.
    rewrite find_text_ignores, !find_int_ignores, findall_ignores; [done|..];
      intros Heq; apply Hextra; rewrite Heq; set_solver.
  - unfold object_info.
    rewrite find_text_ignores, !find_int_ignores; [done|..];
      intros Heq; apply Hextra; rewrite Heq; set_solver.
Qed.

End VocElements.

Lemma parse_voc_xml_ignores_others_witness :
  voc_of_root (ET.Element "annotation" None ([] ++ ET.Element "folder" (Some "x") [] :: [])) =
  voc_of_root (ET.Element "annotation" None ([] ++ [])).
Proof.
  apply (proj1 (parse_voc_xml_ignores_others "annotation" None []
                  (ET.Element "folder" (Some "x") []) [])).
  simpl. intros Hin. repeat (apply elem_of_cons in Hin as [Hin|Hin]; [discriminate Hin|]).
  by apply elem_of_nil in Hin.
Defined.

